(** * aladdin_bot: the crawl session, the retry decorator and the Redis
      duplicate cache, embedded from the Python sources

    Sources embedded here:
    - [src/helpers/helper_functions.py]: the [retry] decorator, its
      [extract_amazon_product_id], and of [HelperFunctions] the methods
      [generate_product_url_cache_key], [get_urls] and [delete_images];
    - [src/db/redis.py]: the [redis_call] decorator and the methods of
      [RedisDB];
    - [src/helpers/selenium_helper.py]: [extract_amazon_product_id] and the
      methods of [SeleniumHelper].

    Python values are embedded shallowly: [int] is [Z], [str] is [string]
    (the UTF-8 bytes of the text), [None] is the [None] of an [option] or a
    constructor of its own, a raised exception is the [Raise] case of
    [outcome].  A method that changes its object takes the object and
    returns it with its result.  The collaborators of the sources (the
    Redis server, the browser, the classifier, the clock) and the constants
    of the modules that are not among the sources are parameters; the
    module [Example] gives them values to run the definitions on.

    Part I has the definitions, Part II what is proved of them for the
    statements of the specification, Part III further properties of the
    sources. *)

From Stdlib Require Import ZArith Lia Bool Ascii String.
From stdpp Require Import base tactics option list strings pretty gmap.

Local Open Scope Z_scope.

(** * Part I: the sources *)

(** ** Python exceptions and fallible computations *)

Module Py.

(** An instance of (a subclass of) Python's [Exception]: its class and the
    text [str(e)] gives. *)
Record exn : Type := Exn { exn_class : string; exn_str : string }.

Inductive outcome (A : Type) : Type :=
| Ok (a : A)
| Raise (e : exn).
Arguments Ok {A} a.
Arguments Raise {A} e.

Definition is_raise {A} (o : outcome A) : bool :=
  match o with Raise _ => true | Ok _ => false end.

Definition AttributeError (m : string) : exn := Exn "AttributeError" m.
Definition TypeError (m : string) : exn := Exn "TypeError" m.
Definition ValueError (m : string) : exn := Exn "ValueError" m.
Definition KeyError (m : string) : exn := Exn "KeyError" m.
Definition Exception (m : string) : exn := Exn "Exception" m.

(** The result of a loop that is run for at most a given number of
    iterations. *)
Inductive run (A : Type) : Type :=
| Done (a : A)
| OutOfFuel.
Arguments Done {A} a.
Arguments OutOfFuel {A}.

End Py.
Export Py.

(** ** [retry] (helper_functions.py, lines 21-36) *)

Module Retry.

(** What the wrapper does to the outside world, in order. *)
Inductive effect : Type :=
| Invoke                                   (* one call of the decorated function *)
| Warning (attempt max_retries wait_time : Z) (e : exn)
| Sleep (seconds : Z).

Fixpoint invocations (tr : list effect) : nat :=
  match tr with
  | [] => O
  | Invoke :: tr => S (invocations tr)
  | _ :: tr => invocations tr
  end.

Fixpoint sleeps (tr : list effect) : list Z :=
  match tr with
  | [] => []
  | Sleep s :: tr => s :: sleeps tr
  | _ :: tr => sleeps tr
  end.

Section wrapper.
(** [W] is whatever the decorated function reads and changes (the
    browser, the network); a call either returns a value or raises. *)
Context {W A : Type}.
Variable func : W → outcome A * W.

(** The body of [for retry_count in range(max_retries)], over what is
    left of the range.  Falling off the end of the loop is Python's
    implicit [return None]. *)
Fixpoint wrapper_loop (max_retries : Z) (range : list Z) (w : W)
    : option A * W * list effect :=
  match range with
  | [] => (None, w, [])
  | retry_count :: range =>
      match func w with
      | (Ok a, w) => (Some a, w, [Invoke])
      | (Raise e, w) =>
          if retry_count <? max_retries - 1 then
            let wait_time := 2 ^ retry_count in
            let '(r, w, tr) := wrapper_loop max_retries range w in
            (r, w,
             Invoke :: Warning (retry_count + 1) max_retries wait_time e
                    :: Sleep wait_time :: tr)
          else (None, w, [Invoke])
      end
  end.

Definition wrapper (max_retries : Z) (w : W) : option A * W * list effect :=
  wrapper_loop max_retries (seqZ 0 max_retries) w.

(** The world after the first [i] invocations. *)
Fixpoint after (i : nat) (w : W) : W :=
  match i with
  | O => w
  | S i => (func (after i w)).2
  end.

Definition attempt (i : nat) (w : W) : outcome A := (func (after i w)).1.

End wrapper.

(** An operation that raises whatever the world is, and one that succeeds
    from its third call on; the world counts the calls made. *)
Definition always_raises (calls : nat) : outcome Z * nat :=
  (Raise (Exception "timeout"), S calls).

Definition third_time_lucky (calls : nat) : outcome Z * nat :=
  (if (calls <? 2)%nat then Raise (Exception "timeout") else Ok 7, S calls).

End Retry.

(** ** Python's [str] operations used by the sources *)

Module Str.

Local Open Scope string_scope.

(** [sep.join(parts)] *)
Fixpoint join (sep : string) (parts : list string) : string :=
  match parts with
  | [] => ""
  | [p] => p
  | p :: parts => p +:+ sep +:+ join sep parts
  end.

(** [s.split(c)[0]] for a one-character separator: the text before the
    first [c], the whole of [s] when there is none. *)
Fixpoint before_first (c : ascii) (s : string) : string :=
  match s with
  | "" => ""
  | String a s' => if Ascii.eqb a c then "" else String a (before_first c s')
  end.

(** [s.replace(old, "")] for a non-empty [old]: the occurrences of [old]
    are removed from left to right, without overlap.  [skip] counts the
    characters of an occurrence that are still to be dropped. *)
Fixpoint remove_from (old : string) (skip : nat) (s : string) : string :=
  match s with
  | "" => ""
  | String a s' =>
      match skip with
      | S skip => remove_from old skip s'
      | O =>
          if String.prefix old s
          then remove_from old (String.length old - 1) s'
          else String a (remove_from old O s')
      end
  end.

Definition remove (old s : string) : string := remove_from old O s.

(** [c in s] for a character [c] *)
Fixpoint occurs (c : ascii) (s : string) : bool :=
  match s with
  | "" => false
  | String a s' => Ascii.eqb a c || occurs c s'
  end.

(** [c] is none of the decimal digits. *)
Definition not_a_digit (c : ascii) : Prop := ∀ d, pretty_N_char d ≠ c.

(** The characters the class [[a-zA-Z0-9]] of a regular expression accepts. *)
Definition is_alnum (c : ascii) : bool :=
  let n := Ascii.nat_of_ascii c in
  ((48 <=? n) && (n <=? 57) || (65 <=? n) && (n <=? 90)
   || (97 <=? n) && (n <=? 122))%nat.

Definition all_alnum (s : string) : Prop :=
  Forall (λ c, is_alnum c = true) (list_ascii_of_string s).

(** The value of a hexadecimal digit, as [urllib.parse] reads it. *)
Definition hex_value (c : ascii) : option nat :=
  let n := Ascii.nat_of_ascii c in
  if ((48 <=? n) && (n <=? 57))%nat then Some (n - 48)%nat
  else if ((65 <=? n) && (n <=? 70))%nat then Some (n - 55)%nat
  else if ((97 <=? n) && (n <=? 102))%nat then Some (n - 87)%nat
  else None.

(** [urllib.parse.unquote(s)]: every [%XY] with two hexadecimal digits is
    replaced by the byte it denotes, a [%] not followed by two such digits
    stays.  Python decodes the bytes as UTF-8 and puts U+FFFD for the ones
    that do not decode; the model keeps the bytes, which are not ASCII
    either way. *)
Fixpoint unquote (s : string) : string :=
  match s with
  | "" => ""
  | String a s1 =>
      if Ascii.eqb a "%" then
        match s1 with
        | String h (String l s3) =>
            match hex_value h, hex_value l with
            | Some x, Some y =>
                String (Ascii.ascii_of_nat (16 * x + y)) (unquote s3)
            | _, _ => String a (unquote s1)
            end
        | _ => String a (unquote s1)
        end
      else String a (unquote s1)
  end.

End Str.

(** ** URLs: [extract_amazon_product_id] and
       [SeleniumHelper.short_url_with_affiliate_code]
       (selenium_helper.py, lines 20-29 and 266-290) *)

Module Urls.

Local Open Scope string_scope.

(** Modelled from the spec: [lib/types.py], which declares the enum
    [Websites], is not among the sources; its members are the four the
    specification lists for [site], which are the ones [lib/const.py] keys
    its tables by. *)
Inductive Websites : Type := AMAZON | FLIPKART | MYNTRA | AJIO.

#[global] Instance Websites_eq_dec : EqDecision Websites.
Proof. solve_decision. Defined.

(** [n] characters of the class [[a-zA-Z0-9]] at the head of [s]. *)
Fixpoint take_alnum (n : nat) (s : string) : option string :=
  match n with
  | O => Some ""
  | S n =>
      match s with
      | "" => None
      | String c s' =>
          if Str.is_alnum c then String c <$> take_alnum n s' else None
      end
  end.

(** The pattern [/dp/([a-zA-Z0-9]{10})] matched at the head of [s]: the
    group it captures. *)
Definition match_dp (s : string) : option string :=
  match s with
  | String "/" (String "d" (String "p" (String "/" s'))) => take_alnum 10 s'
  | _ => None
  end.

(** [re.search(pattern, s)]: the leftmost position where the pattern
    matches; [match.group(1)]. *)
Fixpoint search_dp (s : string) : option string :=
  match match_dp s with
  | Some id => Some id
  | None =>
      match s with
      | "" => None
      | String _ s' => search_dp s'
      end
  end.

Definition extract_amazon_product_id (url : string) : option string :=
  let decoded_url := Str.unquote url in
  search_dp decoded_url.

Section affiliate.
(** [constants/product.py] is not among the sources: the affiliate
    suffixes are parameters. *)
Variables AMAZON_AFFILIATE_ID FLIPKART_AFFILIATE_ID MYNTRA_AFFILIATE_ID : string.

(** [self.website_name] is [None] until [get_products] sets it.  The
    result is [None] where the Python function returns [None]. *)
Definition short_url_with_affiliate_code
    (website_name : option Websites) (url : string) : outcome (option string) :=
  match website_name with
  | Some AMAZON =>
      let product_id := extract_amazon_product_id url in
      let short_url :=
        match product_id with
        | Some product_id =>
            Some ("https://www.amazon.in/dp/" +:+ product_id +:+ "/"
                  +:+ AMAZON_AFFILIATE_ID)
        | None => None
        end in
      Ok short_url
  | Some FLIPKART =>
      let short_url :=
        "https://www.flipkart.com" +:+ Str.before_first "?" url +:+ "/"
        +:+ FLIPKART_AFFILIATE_ID in
      Ok (Some short_url)
  | Some MYNTRA =>
      Ok (Some ("https://www.myntra.com/" +:+ url +:+ "/"
                +:+ MYNTRA_AFFILIATE_ID))
  | _ => Raise (ValueError "Invalid website specified")
  end.

End affiliate.

(** The values [lib/const.py] gives the three suffixes. *)
Definition const_AMAZON_AFFILIATE_ID : string := "?tag=aladdinloot3-21".
Definition const_FLIPKART_AFFILIATE_ID : string :=
  "?affid=admitad&affExtParam1=298614".
Definition const_MYNTRA_AFFILIATE_ID : string :=
  "?utm_source=admitad&utm_medium=affiliate".

(** [s] has ["/dp/"] followed by ten characters of [[a-zA-Z0-9]]
    somewhere in it. *)
Definition contains_dp_id (s : string) : Prop :=
  ∃ pre id post,
    s = pre +:+ "/dp/" +:+ id +:+ post
    ∧ String.length id = 10%nat ∧ Str.all_alnum id.

(** The leftmost place of a text where the pattern matches. *)
Definition leftmost_dp_id (s pre id post : string) : Prop :=
  s = pre +:+ "/dp/" +:+ id +:+ post
  ∧ String.length id = 10%nat ∧ Str.all_alnum id
  ∧ ∀ pre' id' post',
      s = pre' +:+ "/dp/" +:+ id' +:+ post' →
      String.length id' = 10%nat → Str.all_alnum id' →
      (String.length pre ≤ String.length pre')%nat.

End Urls.

(** ** The Redis store and [RedisDB] (db/redis.py) *)

Module Redis.

Local Open Scope string_scope.

(** *** The server, as far as the sources use it

    The keyspace holds sets only; a set may carry the time at which it
    expires.  A command is served at the time [now] of the server's clock;
    an expired key is as good as absent. *)
Record entry : Type := Entry { members : gset string; deadline : option Z }.

Record server : Type := Server {
  keyspace : gmap string entry;
  reachable : bool;        (* does the connection still answer *)
  scan_batch : nat         (* SCAN examines [S scan_batch] keys per call *)
}.

Definition ConnectionError : exn := Exn "ConnectionError" "Connection refused".
Definition DataError : exn := Exn "DataError" "Invalid input".

Definition live (now : Z) (e : entry) : bool :=
  match deadline e with
  | Some d => bool_decide (now < d)
  | None => true
  end.

Definition get_live (now : Z) (srv : server) (key : string) : option entry :=
  match keyspace srv !! key with
  | Some e => if live now e then Some e else None
  | None => None
  end.

Definition live_keys (now : Z) (srv : server) : list string :=
  (filter (λ kv, Is_true (live now kv.2)) (map_to_list (keyspace srv))).*1.

Definition with_keyspace (srv : server) (ks : gmap string entry) : server :=
  Server ks (reachable srv) (scan_batch srv).

(** SISMEMBER key member *)
Definition sismember (now : Z) (srv : server) (key member : string)
    : outcome bool :=
  if reachable srv then
    match get_live now srv key with
    | Some e => Ok (bool_decide (member ∈ members e))
    | None => Ok false
    end
  else Raise ConnectionError.

(** SADD key member [member ...]: the number of members that were new.
    Without a member the client refuses the command. *)
Definition sadd (now : Z) (srv : server) (key : string) (ms : list string)
    : outcome Z * server :=
  if reachable srv then
    match ms with
    | [] => (Raise DataError, srv)
    | _ =>
        let old :=
          match get_live now srv key with
          | Some e => e
          | None => Entry ∅ None
          end in
        let added := list_to_set ms ∖ members old in
        (Ok (Z.of_nat (size added)),
         with_keyspace srv
           (<[key := Entry (members old ∪ list_to_set ms) (deadline old)]>
              (keyspace srv)))
    end
  else (Raise ConnectionError, srv).

(** EXPIRE key seconds *)
Definition expire (now : Z) (srv : server) (key : string) (seconds : Z)
    : outcome bool * server :=
  if reachable srv then
    match get_live now srv key with
    | Some e =>
        (Ok true,
         with_keyspace srv
           (<[key := Entry (members e) (Some (now + seconds))]> (keyspace srv)))
    | None => (Ok false, srv)
    end
  else (Raise ConnectionError, srv).

(** SCAN cursor MATCH pattern: the keys among the next [S scan_batch] of
    the keyspace that match, and the cursor to go on from, [0] when the
    iteration is complete.  A pattern is given by the keys it accepts. *)
Definition scan (now : Z) (srv : server) (cursor : nat) (pattern : string → bool)
    : outcome (nat * list string) :=
  if reachable srv then
    let all := live_keys now srv in
    let batch := S (scan_batch srv) in
    let keys :=
      filter (λ k, Is_true (pattern k)) (take batch (drop cursor all)) in
    let next :=
      if (cursor + batch <? length all)%nat then (cursor + batch)%nat else O in
    Ok (next, keys)
  else Raise ConnectionError.

(** [pipe.sismember(key, url)] for each key, then [pipe.execute()]. *)
Fixpoint pipeline_sismember (now : Z) (srv : server) (keys : list string)
    (url : string) : outcome (list bool) :=
  match keys with
  | [] => Ok []
  | key :: keys =>
      match sismember now srv key url with
      | Ok b =>
          match pipeline_sismember now srv keys url with
          | Ok bs => Ok (b :: bs)
          | Raise e => Raise e
          end
      | Raise e => Raise e
      end
  end.

(** *** [RedisDB] *)

(** [self.client]: [None] before [__enter__] and after [__exit__]. *)
Record RedisDB : Type := MkRedisDB { client : option server }.

(** The decorator [redis_call]: without a client, and on every exception,
    the decorated method returns [None]. *)
Definition redis_call {A : Type} (func : server → outcome A * server)
    (self : RedisDB) : option A * RedisDB :=
  match client self with
  | None => (None, self)
  | Some srv =>
      match func srv with
      | (Ok a, srv) => (Some a, MkRedisDB (Some srv))
      | (Raise e, srv) => (None, MkRedisDB (Some srv))
      end
  end.

(** [is_member] (lines 88-103).  [member] is [None] where the caller has
    no URL to ask about, which the client refuses. *)
Definition is_member (now : Z) (key : string) (member : option string)
    (self : RedisDB) : option bool :=
  (redis_call (λ srv,
     match member with
     | Some member =>
         match sismember now srv key member with
         | Ok true => (Ok true, srv)
         | Ok false => (Ok false, srv)
         | Raise e => (Raise e, srv)
         end
     | None => (Raise DataError, srv)
     end) self).1.

(** [add_to_set] (lines 118-138).  [member] is a [str] or a list of them;
    [expire_time] is optional, and [0] counts as absent. *)
Definition add_to_set (now : Z) (key : string) (member : string + list string)
    (expire_time : option Z) (self : RedisDB) : option Z * RedisDB :=
  redis_call (λ srv,
    let member := match member with inl m => [m] | inr ms => ms end in
    match sadd now srv key member with
    | (Ok result, srv) =>
        match expire_time with
        | Some t =>
            if bool_decide (t = 0) then (Ok result, srv)
            else
              match expire now srv key t with
              | (Ok _, srv) => (Ok result, srv)
              | (Raise e, srv) => (Raise e, srv)
              end
        | None => (Ok result, srv)
        end
    | (Raise e, srv) => (Raise e, srv)
    end) self.

(** The [while True] of [is_url_cached] (lines 180-201), from [cursor] on. *)
Fixpoint scan_loop (fuel : nat) (now : Z) (srv : server) (url : string)
    (pattern : string → bool) (cursor : nat) : run (outcome bool) :=
  match fuel with
  | O => OutOfFuel
  | S fuel =>
      match scan now srv cursor pattern with
      | Raise e => Done (Raise e)
      | Ok (cursor, keys) =>
          match keys with
          | [] =>
              if (cursor =? 0)%nat then Done (Ok false)
              else scan_loop fuel now srv url pattern cursor
          | _ =>
              match pipeline_sismember now srv keys url with
              | Raise e => Done (Raise e)
              | Ok results =>
                  if existsb id results then Done (Ok true)
                  else if (cursor =? 0)%nat then Done (Ok false)
                  else scan_loop fuel now srv url pattern cursor
              end
          end
      end
  end.

(** [is_url_cached]: [Done (Some b)] where Python returns the boolean [b],
    [Done None] where it returns [None]. *)
Definition is_url_cached (fuel : nat) (now : Z) (url : string)
    (pattern : string → bool) (self : RedisDB) : run (option bool) :=
  match client self with
  | None => Done None
  | Some srv =>
      match scan_loop fuel now srv url pattern O with
      | Done (Ok b) => Done (Some b)
      | Done (Raise e) => Done None
      | OutOfFuel => OutOfFuel
      end
  end.

(** The default pattern, [f"{PRODUCT_URL_CACHE_KEY}*"], for a constant
    without glob characters: the keys that begin with the constant. *)
Definition prefix_pattern (PRODUCT_URL_CACHE_KEY : string) : string → bool :=
  String.prefix PRODUCT_URL_CACHE_KEY.

(** [url] is in a set that is live at [now] and whose key matches. *)
Definition in_live_set (now : Z) (srv : server) (pattern : string → bool)
    (url : string) : Prop :=
  ∃ key e, get_live now srv key = Some e ∧ pattern key = true
           ∧ url ∈ members e.

(** A store for the examples: SCAN examines one key per call; one set is
    not the cache's, one cache window is live, one has expired at time 50. *)
Definition example_server : server :=
  Server
    (<["session_tokens" := Entry {["https://www.myntra.com/7"]} None]>
       (<["product_url_cache_1.5_monday" :=
            Entry {["https://www.flipkart.com/1"]} None]>
          (<["product_url_cache_0.5_sunday" :=
               Entry {["https://www.flipkart.com/0"]} (Some 50)]> ∅)))
    true 0.

Definition example_db : RedisDB := MkRedisDB (Some example_server).

Definition example_url : string :=
  "https://www.amazon.in/dp/B000000000/?tag=aladdinloot3-21".

(** The answer of SISMEMBER for [key] and [url], when it is served. *)
Definition holds (now : Z) (srv : server) (url key : string) : bool :=
  match get_live now srv key with
  | Some e => bool_decide (url ∈ members e)
  | None => false
  end.

(** *** The other commands and methods of [RedisDB] *)

(** SMEMBERS key: the members of the set, none for a key that is absent. *)
Definition smembers (now : Z) (srv : server) (key : string)
    : outcome (gset string) :=
  if reachable srv then
    match get_live now srv key with
    | Some e => Ok (members e)
    | None => Ok ∅
    end
  else Raise ConnectionError.

(** SREM key member: [1] when the member was in the set, which loses it,
    [0] otherwise.  A set that loses its last member is removed with its
    key. *)
Definition srem (now : Z) (srv : server) (key member : string)
    : outcome Z * server :=
  if reachable srv then
    match get_live now srv key with
    | Some e =>
        if bool_decide (member ∈ members e) then
          let rest := members e ∖ {[member]} in
          (Ok 1,
           with_keyspace srv
             (if bool_decide (rest = ∅) then delete key (keyspace srv)
              else <[key := Entry rest (deadline e)]> (keyspace srv)))
        else (Ok 0, srv)
    | None => (Ok 0, srv)
    end
  else (Raise ConnectionError, srv).

(** DEL key: the number of keys removed. *)
Definition del (now : Z) (srv : server) (key : string) : outcome Z * server :=
  if reachable srv then
    match get_live now srv key with
    | Some _ => (Ok 1, with_keyspace srv (delete key (keyspace srv)))
    | None => (Ok 0, srv)
    end
  else (Raise ConnectionError, srv).

(** [get_all_member] (lines 105-116).  [list(...)] of a Python set has the
    members in an order the language does not fix; [elements] has them in
    some order, each once. *)
Definition get_all_member (now : Z) (key : string) (self : RedisDB)
    : option (list string) :=
  (redis_call (λ srv,
     match smembers now srv key with
     | Ok s => (Ok (elements s), srv)
     | Raise e => (Raise e, srv)
     end) self).1.

(** [remove_to_set] (lines 140-152) *)
Definition remove_to_set (now : Z) (key member : string) (self : RedisDB)
    : option Z * RedisDB :=
  redis_call (λ srv, srem now srv key member) self.

(** [remove_set] (lines 154-165) *)
Definition remove_set (now : Z) (key : string) (self : RedisDB)
    : option Z * RedisDB :=
  redis_call (λ srv, del now srv key) self.

(** [__enter__] (lines 37-68).  [Redis(...)] makes the client without
    opening a connection and [ping] is the first command; [srv] is the
    server the host and the port of the environment name.  The result is
    [true] where the method returns [self] and [false] where it returns
    [False]; the client stays on the object either way. *)
Definition __enter__ (srv : server) (self : RedisDB) : bool * RedisDB :=
  let self := MkRedisDB (Some srv) in
  if reachable srv then (true, self) else (false, self).

(** [__exit__] (lines 70-86).  [pool] is [self.pool]: [None] unless
    [__enter__] has got through [ping], and otherwise what
    [pool.disconnect()] does; [exc_type] is the class of the exception that
    left the block, if one did.  The result is what the method returns,
    which is, for Python, whether that exception is suppressed. *)
Definition __exit__ (pool : option (outcome unit)) (exc_type : option string)
    (self : RedisDB) : bool * RedisDB :=
  match client self with
  | Some _ =>
      match pool with
      | Some (Ok _) => (true, MkRedisDB None)
      | Some (Raise _) => (false, self)
      | None => (false, self)
      end
  | None =>
      match exc_type with
      | Some _ => (false, self)
      | None => (true, self)
      end
  end.

End Redis.

(** ** [HelperFunctions.generate_product_url_cache_key]
       (helper_functions.py, lines 221-233) *)

Module CacheKey.

Local Open Scope string_scope.

(** What [datetime.now()] returns: an instant, to the microsecond, as the
    number of microseconds since 1970-01-01T00:00:00Z, and the offset of the
    local time zone, in seconds, by which the naive local time is ahead of
    UTC. *)
Record datetime : Type := Datetime { posix_us : N; utc_offset : Z }.

(** The digits of [f / 10^k], most significant first, up to the last one
    that is not zero; [f < 10^k]. *)
Fixpoint fraction (k : nat) (f : N) : string :=
  match k with
  | O => ""
  | S k =>
      if (f =? 0)%N then ""
      else String (pretty_N_char (f `div` 10 ^ N.of_nat k))
             (fraction k (f `mod` 10 ^ N.of_nat k))
  end.

Definition fraction_text (f : N) : string :=
  if (f =? 0)%N then "0" else fraction 6 f.

(** The instants whose timestamp Python prints to the microsecond: from
    1970-01-01T00:00:01Z to [2 ** 33] seconds after the epoch, in the year
    2242.  There the floats of two different microseconds are different,
    the spacing of the floats being under a microsecond, and the shortest
    text that reads back as the float is the decimal one with the
    microseconds, less its trailing zeros.  Later two microseconds can share
    a float, and under [1e-4] seconds Python prints an exponent. *)
Definition exact_timestamp (now : datetime) : Prop :=
  (1000000 ≤ posix_us now < 8589934592000000)%N.

(** [f"{datetime.timestamp(now)}"]: the seconds since the epoch as Python
    prints the float, for the instants of [exact_timestamp]; what is proved
    of the digits of the text is proved for these instants. *)
Definition timestamp_text (now : datetime) : string :=
  pretty (posix_us now `div` 1000000)%N +:+ "."
  +:+ fraction_text (posix_us now `mod` 1000000)%N.

(** The day of the week of the local date, Monday being [0];
    1970-01-01 was a Thursday. *)
Definition weekday (now : datetime) : Z :=
  ((Z.of_N (posix_us now `div` 1000000) + utc_offset now) `div` 86400 + 3)
  `mod` 7.

(** The local date, as the number of days since 1970-01-01. *)
Definition local_day (now : datetime) : Z :=
  (Z.of_N (posix_us now `div` 1000000) + utc_offset now) `div` 86400.

(** [strftime("%A").lower()], in the C locale *)
Definition weekday_name (now : datetime) : string :=
  match weekday now with
  | 0 => "monday" | 1 => "tuesday" | 2 => "wednesday" | 3 => "thursday"
  | 4 => "friday" | 5 => "saturday" | _ => "sunday"
  end.

(** The function reads the clock twice: [now] for the timestamp, and a
    second [datetime.now()] for the weekday.  [constants/redis_key.py] is
    not among the sources: the prefix is a parameter. *)
Definition generate_product_url_cache_key (PRODUCT_URL_CACHE_KEY : string)
    (now now' : datetime) : string :=
  let week_day := weekday_name now' in
  let time_stamp := timestamp_text now in
  PRODUCT_URL_CACHE_KEY +:+ "_" +:+ time_stamp +:+ "_" +:+ week_day.

(** Two clock readings of one rotation period, the period being no finer
    than what the weekday in the key tells apart: the same local date. *)
Definition same_rotation_period (a b : datetime) : Prop :=
  local_day a = local_day b ∧ weekday a = weekday b.

(** 2023-11-14T22:13:20Z and the second after it, read in India. *)
Definition example_now : datetime := Datetime 1700000000000000 19800.
Definition example_later : datetime := Datetime 1700000001000000 19800.

End CacheKey.

(** ** [SeleniumHelper] (selenium_helper.py) *)

Module Session.

Export Urls.
Local Open Scope string_scope.

(** *** The documents BeautifulSoup gives

    A node of a parsed page, as far as the sources look at it: the text
    [get_text(strip=True)] gives, the attributes, and the answers of
    [select_one] and [select] to a CSS selector. *)
#[local] Unset Elimination Schemes.
Inductive Soup : Type :=
  MkSoup (text : string) (attrs : list (string * string))
         (sel_one : string → option Soup) (sel : string → list Soup).
#[local] Set Elimination Schemes.

Definition get_text (t : Soup) : string :=
  match t with MkSoup text _ _ _ => text end.
Definition attrs (t : Soup) : list (string * string) :=
  match t with MkSoup _ attrs _ _ => attrs end.
Definition select_one (t : Soup) (css : string) : option Soup :=
  match t with MkSoup _ _ sel_one _ => sel_one css end.
Definition select (t : Soup) (css : string) : list Soup :=
  match t with MkSoup _ _ _ sel => sel css end.

(** [d[key]] for a dictionary given by its items, in order *)
Fixpoint assoc {V : Type} (d : list (string * V)) (key : string) : option V :=
  match d with
  | [] => None
  | (k, v) :: d => if String.eqb k key then Some v else assoc d key
  end.

Definition getitem {V : Type} (d : list (string * V)) (key : string)
    : outcome V :=
  match assoc d key with
  | Some v => Ok v
  | None => Raise (KeyError ("'" +:+ key +:+ "'"))
  end.

(** [x is None] *)
Definition is_None {A : Type} (x : option A) : bool :=
  match x with None => true | Some _ => false end.

(** A leaf: a node with a text and attributes and nothing below it. *)
Definition leaf (text : string) (attrs : list (string * string)) : Soup :=
  MkSoup text attrs (λ _, None) (λ _, []).

(** *** The Chrome driver

    The browser is a collaborator of the session: a state [B] and the calls
    the sources make on it, each of which may raise. *)
Class Chrome (B : Type) : Type := {
  (* driver.get(url) *)
  driver_get : string → B → outcome unit * B;
  (* WebDriverWait(driver, 10).until(presence_of_element_located(css)) *)
  wait_presence : string → B → outcome unit * B;
  (* BeautifulSoup(driver.page_source, 'html.parser'); [None] where
     [page_source] is [None] *)
  page_source : B → option Soup;
  (* driver.current_url *)
  current_url : B → string;
  (* driver.find_element(By.CSS_SELECTOR, css).click() *)
  click : string → B → outcome unit * B;
  (* WebDriverWait(driver, 10).until(lambda d: d.current_url != url) *)
  wait_url_change : string → B → outcome unit * B
}.

(** *** Values of the fields of a product *)
Inductive value (F : Type) : Type :=
| VInt (z : Z)
| VFloat (x : F)
| VStr (s : string)
| VNone.
Arguments VInt {F} z.
Arguments VFloat {F} x.
Arguments VStr {F} s.
Arguments VNone {F}.

#[global] Instance value_eq_dec {F} `{EqDecision F} : EqDecision (value F).
Proof. solve_decision. Defined.

(** What the gate of a card asked, in order (a ghost record: the sources
    keep no such log). *)
Inductive gate_event (F : Type) : Type :=
| PriceChecked (price limit : Z) (passed : bool)
| CacheChecked (url : value F) (answer : option bool)
| Classified (product : gmap string (value F)) (verdict : string).
Arguments PriceChecked {F} price limit passed.
Arguments CacheChecked {F} url answer.
Arguments Classified {F} product verdict.

(** The attributes of a [SeleniumHelper].  [current_page] is read by
    [fetch_product_container] and assigned nowhere in the class:
    it is [None] unless a caller has set the attribute on the object. *)
Record SeleniumHelper (F B : Type) : Type := MkHelper {
  redis : Redis.RedisDB;
  website_name : option Websites;
  category : option string;
  page_conter : Z;
  product_urls : list (value F);
  current_page : option Z;
  driver : B;
  gate_log : list (gate_event F)
}.
Arguments MkHelper {F B}.
Arguments redis {F B}.
Arguments website_name {F B}.
Arguments category {F B}.
Arguments page_conter {F B}.
Arguments product_urls {F B}.
Arguments current_page {F B}.
Arguments driver {F B}.
Arguments gate_log {F B}.

Section helper.
(** Python's [float(s)] and [int(x)] are parameters, with the type of
    floats. *)
Context {F : Type} `{EqDecision F}.
Variable py_float : string → outcome F.
Variable py_int : F → outcome Z.

Context {B : Type} `{Chrome B}.

(** [constants/product.py] and [constants/css_selectors.py] are not among
    the sources: their tables and numbers are parameters.  The tables keyed
    by website have an entry for each member of the enum, as the ones of
    [lib/const.py] have. *)
Variable PRODUCT_DETAILS : Websites → list (string * list string).
Variable PRODUCT_CARDS PRODUCT_CONTAINER NEXT_BUTTON : Websites → string.
Variable REQUIRED_PRODUCT_KEYS : list string.
Variable PRICE_LIMITS : list (string * Z).
Variable MAX_PRODUCTS_PER_WEBSITE : Z.
Variables AMAZON_AFFILIATE_ID FLIPKART_AFFILIATE_ID MYNTRA_AFFILIATE_ID : string.

(** [lib/ml_model/predict_deal.py] is the external classifier:
    [predict_deal(product)['prediction']]. *)
Variable predict_deal : gmap string (value F) → outcome string.

(** The time on the clock of the Redis server during the session. *)
Variable now : Z.

Abbreviation Product := (gmap string (value F)).
Abbreviation Self := (SeleniumHelper F B).

(** A method: it reads and changes [self], and returns or raises. *)
Definition M (A : Type) : Type := Self → outcome A * Self.

Definition ret {A} (a : A) : M A := λ self, (Ok a, self).
Definition raise {A} (e : exn) : M A := λ self, (Raise e, self).
Definition bind {A C} (m : M A) (k : A → M C) : M C :=
  λ self,
    match m self with
    | (Ok a, self) => k a self
    | (Raise e, self) => (Raise e, self)
    end.
Definition lift {A} (o : outcome A) : M A := λ self, (o, self).
Definition gets {A} (f : Self → A) : M A := λ self, (Ok (f self), self).
Definition modify (f : Self → Self) : M unit := λ self, (Ok tt, f self).

Notation "'let!' x ':=' m 'in' k" := (bind m (λ x, k))
  (at level 10, x name, m at level 100, k at level 200).
Notation "'run!' m 'in' k" := (bind m (λ _, k))
  (at level 10, m at level 100, k at level 200).

Definition set_driver (b : B) (self : Self) : Self :=
  MkHelper (redis self) (website_name self) (category self) (page_conter self)
    (product_urls self) (current_page self) b (gate_log self).

Definition set_product_urls (urls : list (value F)) (self : Self) : Self :=
  MkHelper (redis self) (website_name self) (category self) (page_conter self)
    urls (current_page self) (driver self) (gate_log self).

Definition set_page_conter (n : Z) (self : Self) : Self :=
  MkHelper (redis self) (website_name self) (category self) n
    (product_urls self) (current_page self) (driver self) (gate_log self).

Definition logged (events : list (gate_event F)) (self : Self) : Self :=
  MkHelper (redis self) (website_name self) (category self)
    (page_conter self) (product_urls self) (current_page self)
    (driver self) (gate_log self ++ events).

Definition log (ev : gate_event F) : M unit := modify (logged [ev]).

(** Two states of a helper that differ in the browser and in the record of
    the gate at most. *)
Definition same_session (self self' : Self) : Prop :=
  redis self' = redis self ∧ website_name self' = website_name self
  ∧ category self' = category self ∧ page_conter self' = page_conter self
  ∧ product_urls self' = product_urls self
  ∧ current_page self' = current_page self.

(** Two states of a helper that differ in the browser at most. *)
Definition only_browser (self self' : Self) : Prop :=
  same_session self self' ∧ gate_log self' = gate_log self.

(** Two states of a helper with the same store, site, category, page
    counter and [current_page]. *)
Definition same_settings (self self' : Self) : Prop :=
  redis self' = redis self ∧ website_name self' = website_name self
  ∧ category self' = category self ∧ page_conter self' = page_conter self
  ∧ current_page self' = current_page self.

(** [self'] is [self] with more in the record of the gate, none of it a
    call of the classifier. *)
Definition gate_only (ev : gate_event F) : Prop :=
  match ev with Classified _ _ => False | _ => True end.

Definition only_logged (self self' : Self) : Prop :=
  ∃ events, self' = logged events self ∧ Forall gate_only events.

(** A method every call of which leaves [self] in relation [R] with what
    it was. *)
Definition preserves {A} (R : Self → Self → Prop) (m : M A) : Prop :=
  ∀ self, R self (m self).2.

(** What the gate may have asked about a card by the time its turn ends
    without an exception, and what has become of the card: nothing; the
    price, which was over the limit; the price and the cache; the price,
    the cache, which did not have the URL, and the classifier, whose
    verdict decides. *)
Definition gate_order (events : list (gate_event F))
    (accepted : option Product) : Prop :=
  (events = [] ∧ accepted = None)
  ∨ (∃ price limit,
       events = [PriceChecked price limit false]
       ∧ (limit < price)%Z ∧ accepted = None)
  ∨ (∃ price limit url answer,
       events = [PriceChecked price limit true; CacheChecked url answer]
       ∧ (price ≤ limit)%Z ∧ accepted = None)
  ∨ (∃ price limit url answer product verdict,
       events = [PriceChecked price limit true; CacheChecked url answer;
                 Classified product verdict]
       ∧ (price ≤ limit)%Z ∧ answer ≠ Some true
       ∧ accepted
         = if String.eqb verdict "Best Deal" then Some product else None).

(** The URL of a product of the list [get_products] returns. *)
Definition url_of (product : Product) : value F :=
  default VNone (product !! "product_url").

(** A call on [self.driver] *)
Definition on_driver {A} (call : B → outcome A * B) : M A :=
  λ self, let '(r, b) := call (driver self) in (r, set_driver b self).

(** [TABLE[self.website_name]] *)
Definition by_website {V} (table : Websites → V) : M V :=
  λ self,
    match website_name self with
    | Some w => (Ok (table w), self)
    | None => (Raise (KeyError "None"), self)
    end.

(** [tag[name]] on a tag, which may be [None] *)
Definition getattr (tag : option Soup) (name : string) : M string :=
  match tag with
  | Some tag => lift (getitem (attrs tag) name)
  | None => raise (TypeError "'NoneType' object is not subscriptable")
  end.

(** [tag.get_text(strip=True)] on a tag, which may be [None] *)
Definition text_of (tag : option Soup) : M string :=
  match tag with
  | Some tag => ret (get_text tag)
  | None =>
      raise (AttributeError "'NoneType' object has no attribute 'get_text'")
  end.

Definition is_price_key (selector : string) : bool :=
  String.eqb selector "product_price" || String.eqb selector "product_discount".

(** [int(float(text))] *)
Definition int_of_float_text (text : string) : outcome (value F) :=
  match py_float text with
  | Ok x => match py_int x with Ok z => Ok (VInt z) | Raise e => Raise e end
  | Raise e => Raise e
  end.

Definition float_text (text : string) : outcome (value F) :=
  match py_float text with
  | Ok x => Ok (VFloat x)
  | Raise e => Raise e
  end.

(** [format_extracted_data] (lines 227-264), as a function of
    [self.website_name].  A [match] no case of which returns leaves the
    function at its end: the result is [None]. *)
Definition format_extracted_data (website_name : option Websites)
    (selector : string) (element_data : option string) : outcome (value F) :=
  match element_data with
  | None => Ok VNone
  | Some element_data =>
      if String.eqb selector "product_url" then
        match short_url_with_affiliate_code AMAZON_AFFILIATE_ID
                FLIPKART_AFFILIATE_ID MYNTRA_AFFILIATE_ID
                website_name element_data with
        | Ok (Some url) => Ok (VStr url)
        | Ok None => Ok VNone
        | Raise e => Raise e
        end
      else
        match website_name with
        | Some AMAZON =>
            if is_price_key selector then
              int_of_float_text (Str.remove "₹" (Str.remove "," element_data))
            else if String.eqb selector "product_rating" then
              float_text (Str.before_first " " element_data)
            else Ok VNone
        | Some FLIPKART =>
            if is_price_key selector then
              int_of_float_text (Str.remove "₹" (Str.remove "," element_data))
            else if String.eqb selector "product_rating" then
              float_text element_data
            else Ok VNone
        | Some MYNTRA =>
            if is_price_key selector then
              int_of_float_text (Str.remove "," (Str.remove "Rs." element_data))
            else if String.eqb selector "product_rating" then
              float_text element_data
            else Ok VNone
        | _ => Ok VNone
        end
  end.

Definition format_data (selector : string) (element_data : option string)
    : M (value F) :=
  λ self,
    (format_extracted_data (website_name self) selector element_data, self).

(** [product_price <= PRICE_LIMITS[self.category]]: the limit is looked up,
    then the two are compared; [None] does not compare with an [int]. *)
Definition within_price_limit (product_price : value F) : M bool :=
  λ self,
    match match category self with
          | Some c => assoc PRICE_LIMITS c
          | None => None
          end with
    | None =>
        (Raise (KeyError
           (match category self with
            | Some c => "'" +:+ c +:+ "'"
            | None => "None"
            end)), self)
    | Some limit =>
        match product_price with
        | VInt price =>
            run! log (PriceChecked price limit (price <=? limit)%Z) in
            ret (price <=? limit)%Z
        | _ =>
            raise (TypeError
              "'<=' not supported between instances of 'NoneType' and 'int'")
        end self
    end.

(** [self.redis.is_member(PRODUCT_CACHE_KEY, product_url)] *)
Definition cache_is_member (product_url : value F) : M (option bool) :=
  λ self,
    let member :=
      match product_url with VStr url => Some url | _ => None end in
    let answer :=
      Redis.is_member now "product_url_cache" member (redis self) in
    (run! log (CacheChecked product_url answer) in ret answer) self.

(** [is_product_valid] (lines 292-314) *)
Definition is_product_valid (price url : option Soup) : M bool :=
  match price, url with
  | Some price, Some url =>
      let price := get_text price in
      let! url := getattr (Some url) "href" in
      let! product_price := format_data "product_price" (Some price) in
      let! product_url := format_data "product_url" (Some url) in
      let! urls := gets product_urls in
      if bool_decide (product_url ∈ urls) then ret false
      else
        let! ok := within_price_limit product_price in
        if ok then
          let! cached := cache_is_member product_url in
          match cached with
          | Some true => ret false
          | _ => ret true
          end
        else ret false
  | _, _ => ret false
  end.


(** [self.current_page] *)
Definition get_current_page : M Z :=
  λ self,
    match current_page self with
    | Some n => (Ok n, self)
    | None =>
        (Raise (AttributeError
           "'SeleniumHelper' object has no attribute 'current_page'"), self)
    end.

(** The body of [fetch_product_container] (lines 199-225), before the
    decorator.  The random [sleep] leaves nothing to observe. *)
Definition fetch_product_container_body (url type : string)
    : M (option Soup) :=
  let! current_page := get_current_page in
  run! (if (current_page <=? 1)%Z || String.eqb type "product"
        then on_driver (driver_get url) else ret tt) in
  let! container := by_website PRODUCT_CONTAINER in
  let! cards := by_website PRODUCT_CARDS in
  run! on_driver (wait_presence (Str.join " " [container; cards])) in
  let! html := gets (λ self, page_source (driver self)) in
  match html with
  | None => raise (Exception "Failed to retrieve HTML page content.")
  | Some soup =>
      let! container := by_website PRODUCT_CONTAINER in
      let main_container := select_one soup container in
      ret main_container
  end.

(** [@retry(3)] on it: the container, or [None] when the body returns
    [None] or has raised three times. *)
Definition fetch_product_container (url type : string) : M (option Soup) :=
  λ self,
    let '(r, self, _) :=
      Retry.wrapper (fetch_product_container_body url type) 3 self in
    (Ok (match r with Some (Some c) => Some c | _ => None end), self).

(** [get_flipkart_data] (lines 177-196) *)
Definition get_flipkart_data (url : option Soup) : M (option Soup) :=
  let! website := gets website_name in
  if bool_decide (website ≠ Some FLIPKART) || is_None url
  then ret None
  else
    let! href := getattr url "href" in
    let url := "https://www.flipkart.com" +:+ Str.before_first "?" href in
    fetch_product_container url "product".

(** One turn of [for key, selectors in PRODUCT_DETAILS[...].items()]
    (lines 132-160) *)
Definition extract_field (product_soup flipkart_product_soup : Soup)
    (product_url : option Soup) (product_details : Product)
    (item : string * list string) : M Product :=
  let '(key, selectors) := item in
  let! website := gets website_name in
  let elements :=
    if bool_decide (website = Some FLIPKART)
    then select_one flipkart_product_soup (Str.join " ," selectors)
    else select_one product_soup (Str.join " ," selectors) in
  if is_None elements
     && negb (bool_decide (website = Some FLIPKART)
              && String.eqb key "product_url")
  then ret product_details
  else if is_price_key key then
    let! price_data := text_of elements in
    let! v := format_data key (Some price_data) in
    ret (<[key := v]> product_details)
  else if String.eqb key "product_image" then
    let! src := getattr elements "src" in
    ret (<[key := VStr src]> product_details)
  else if String.eqb key "product_rating" then
    let! rating_text := text_of elements in
    let! v := format_data key (Some rating_text) in
    ret (<[key := v]> product_details)
  else if String.eqb key "product_url" then
    let! href := getattr product_url "href" in
    let! v := format_data "product_url" (Some href) in
    ret (<[key := v]> product_details)
  else
    let! t := text_of elements in
    ret (<[key := VStr t]> product_details).

Fixpoint extract_fields (product_soup flipkart_product_soup : Soup)
    (product_url : option Soup) (items : list (string * list string))
    (product_details : Product) : M Product :=
  match items with
  | [] => ret product_details
  | item :: items =>
      let! product_details :=
        extract_field product_soup flipkart_product_soup product_url
          product_details item in
      extract_fields product_soup flipkart_product_soup product_url items
        product_details
  end.

(** [None in [product_details.get(key) for key in REQUIRED_PRODUCT_KEYS]] *)
Definition lacks_required (product_details : Product) : bool :=
  existsb (λ key,
    match product_details !! key with
    | Some VNone | None => true
    | Some _ => false
    end) REQUIRED_PRODUCT_KEYS.

Definition classify (product_details : Product) : M string :=
  let! verdict := lift (predict_deal product_details) in
  run! log (Classified product_details verdict) in
  ret verdict.

(** One turn of [for product_soup in product_cards] (lines 117-173): the
    product the turn appends to [products], if it appends one. *)
Definition extract_card (product_soup : Soup) : M (option Product) :=
  let! details := by_website PRODUCT_DETAILS in
  let! url_selectors := lift (getitem details "product_url") in
  let product_url := select_one product_soup (Str.join " ," url_selectors) in
  let! details := by_website PRODUCT_DETAILS in
  let! price_selectors := lift (getitem details "product_price") in
  let product_price :=
    select_one product_soup (Str.join " ," price_selectors) in
  let! valid := is_product_valid product_price product_url in
  if negb valid then ret None
  else
    let! flipkart_product_soup := get_flipkart_data product_url in
    match flipkart_product_soup with
    | None => ret None
    | Some flipkart_product_soup =>
        let! items := by_website PRODUCT_DETAILS in
        let! product_details :=
          extract_fields product_soup flipkart_product_soup product_url
            items ∅ in
        if lacks_required product_details then ret None
        else
          let! prediction := classify product_details in
          if String.eqb prediction "Best Deal" then
            let! href := getattr product_url "href" in
            let! product_url := format_data "product_url" (Some href) in
            run! modify (λ self,
                   set_product_urls (product_urls self ++ [product_url]) self) in
            ret (Some product_details)
          else ret None
    end.

Fixpoint extract_cards (product_cards : list Soup) (products : list Product)
    : M (list Product) :=
  match product_cards with
  | [] => ret products
  | product_soup :: product_cards =>
      let! accepted := extract_card product_soup in
      extract_cards product_cards
        (match accepted with
         | Some product_details => products ++ [product_details]
         | None => products
         end)
  end.

(** [extract_products_by_website] (lines 100-175) *)
Definition extract_products_by_website (main_container : Soup)
    : M (list Product) :=
  let! cards := by_website PRODUCT_CARDS in
  let product_cards := select main_container cards in
  match product_cards with
  | [] => ret []
  | _ => extract_cards product_cards []
  end.

(** [go_to_next_page] (lines 316-323) *)
Definition go_to_next_page : M unit :=
  let! url := gets (λ self, current_url (driver self)) in
  let! next := by_website NEXT_BUTTON in
  run! on_driver (click next) in
  on_driver (wait_url_change url).

(** [has_next_page] (lines 325-329) is defined without parameters, and its
    body returns [None].  [positional] is the number of positional
    arguments of a call; a call on [self] passes one. *)
Definition has_next_page (positional : nat) : M (option bool) :=
  match positional with
  | O => ret None
  | _ =>
      raise (TypeError
        "SeleniumHelper.has_next_page() takes 0 positional arguments but 1 was given")
  end.

(** How a turn of the [while] of [get_products] ends. *)
Inductive turn : Type :=
| Break (products : list Product)
| Next (products : list Product).

(** The body of the [try] (lines 79-92) *)
Definition get_products_turn (url : string) (products : list Product)
    : M turn :=
  let! main_container := fetch_product_container url "container" in
  match main_container with
  | None => ret (Break products)
  | Some main_container =>
      let! extracted_products := extract_products_by_website main_container in
      let products := (products ++ extracted_products)%list in
      let! more := has_next_page 1 in
      if negb (default false more) then ret (Break products)
      else
        run! go_to_next_page in
        run! modify (λ self, set_page_conter (page_conter self + 1) self) in
        ret (Next products)
  end.

(** The [while] of [get_products] (lines 77-98), for at most [fuel] turns *)
Fixpoint get_products_loop (fuel : nat) (url : string)
    (products : list Product) (self : Self)
    : run (outcome (list Product)) * Self :=
  if (Z.of_nat (length products) >=? MAX_PRODUCTS_PER_WEBSITE)%Z then
    match fuel with
    | O => (OutOfFuel, self)
    | S fuel =>
        match get_products_turn url products self with
        | (Ok (Next products), self) =>
            get_products_loop fuel url products self
        | (Ok (Break products), self) => (Done (Ok products), self)
        | (Raise e, self) =>
            (Done (Raise (Exception
               ("Error occurred while getting products: " +:+ exn_str e))),
             self)
        end
    end
  else (Done (Ok products), self).

(** [get_products] (lines 61-98) *)
Definition get_products (fuel : nat) (website_name : Websites)
    (category : string) (url : string) (self : Self)
    : run (outcome (list Product)) * Self :=
  let self :=
    MkHelper (redis self) (Some website_name) (Some category) 1 []
      (current_page self) (driver self) (gate_log self) in
  get_products_loop fuel url [] self.

End helper.

(** [__init__] (lines 33-59): the attributes it sets, [chrome] being the
    browser [Chrome(options=...)] starts.  [current_page] is not among
    them. *)
Definition __init__ {F B : Type} (redis : Redis.RedisDB) (chrome : B)
    : SeleniumHelper F B :=
  MkHelper redis None None 1 [] None chrome [].

End Session.

(** ** The rest of helper_functions.py *)

Module Helpers.

Local Open Scope string_scope.

(** [extract_amazon_product_id] (helper_functions.py, lines 39-48).  Its
    last line raises a [str]; Python raises [TypeError] in its place, for
    an object that is no exception. *)
Definition extract_amazon_product_id (url : string) : outcome string :=
  let decoded_url := Str.unquote url in
  match Urls.search_dp decoded_url with
  | Some id => Ok id
  | None => Raise (TypeError "exceptions must derive from BaseException")
  end.

(** The values of the keys [get_urls] reads in a product: a [str], a list
    of them, or [None]. *)
Inductive urls_value : Type :=
| UStr (s : string)
| UList (l : list string)
| UNone.

(** [bool(v)] *)
Definition truthy (v : urls_value) : bool :=
  match v with
  | UStr s => negb (String.eqb s "")
  | UList l => negb (bool_decide (l = []))
  | UNone => false
  end.

(** The body of [for product in products] of [get_urls] (lines 211-217),
    [products] being a list of products, as the loop uses it, and a product
    a dictionary given by its items. *)
Fixpoint get_urls_loop (products : list (list (string * urls_value)))
    (urls_to_add : list string) : outcome (list string) :=
  match products with
  | [] => Ok urls_to_add
  | product :: products =>
      match Session.getitem product "product_url" with
      | Raise e => Raise e
      | Ok url =>
          match (if truthy url then Ok url
                 else Session.getitem product "variant_urls") with
          | Raise e => Raise e
          | Ok (UStr s) => get_urls_loop products (urls_to_add ++ [s])
          | Ok (UList l) => get_urls_loop products (urls_to_add ++ l)
          | Ok UNone => Raise (TypeError "'NoneType' object is not iterable")
          end
      end
  end.

(** [HelperFunctions.get_urls] (lines 207-219) *)
Definition get_urls (products : list (list (string * urls_value)))
    : outcome (list string) :=
  get_urls_loop products [].

(** The file system, as far as [delete_images] looks at it: what is at a
    path, a file [os.remove] removes or a directory, which it refuses with
    an [OSError]. *)
Inductive node : Type := File | Directory.

#[global] Instance node_eq_dec : EqDecision node.
Proof. solve_decision. Defined.

(** What [delete_images] writes to the log. *)
Inductive record : Type :=
| Info (image_path : string)           (* Deleted file *)
| Warning (image_path : string)        (* File not found *)
| Error (image_path : string) (e : exn).

Definition IsADirectoryError (image_path : string) : exn :=
  Exn "IsADirectoryError" ("[Errno 21] Is a directory: '" +:+ image_path +:+ "'").

(** [os.remove(path)] on a path that exists *)
Definition remove (path : string) (fs : gmap string node)
    : outcome unit * gmap string node :=
  match fs !! path with
  | Some File => (Ok tt, delete path fs)
  | Some Directory => (Raise (IsADirectoryError path), fs)
  | None =>
      (Raise (Exn "FileNotFoundError"
                ("[Errno 2] No such file or directory: '" +:+ path +:+ "'")),
       fs)
  end.

(** The body of [for image_path in images] (lines 146-154) *)
Fixpoint delete_images_loop (images : list string) (fs : gmap string node)
    : gmap string node * list record :=
  match images with
  | [] => (fs, [])
  | image_path :: images =>
      let '(fs, line) :=
        if bool_decide (is_Some (fs !! image_path)) then
          match remove image_path fs with
          | (Ok _, fs) => (fs, Info image_path)
          | (Raise e, fs) => (fs, Error image_path e)
          end
        else (fs, Warning image_path) in
      let '(fs, lines) := delete_images_loop images fs in
      (fs, line :: lines)
  end.

(** [HelperFunctions.delete_images] (lines 133-154) *)
Definition delete_images (image_paths : string + list string)
    (fs : gmap string node) : gmap string node * list record :=
  let images :=
    match image_paths with inl p => [p] | inr ps => ps end in
  delete_images_loop images fs.

End Helpers.

(** ** A concrete world for the examples *)

Module Example.

Import Session.
Local Open Scope string_scope.

(** Decimal literals stand for the floats: the digits before the point, as
    a number, and the digits after it.  [float] reads a literal made of
    digits with at most one point among or after them and raises
    [ValueError] on a text with a letter or a comma in it, as Python does;
    the other texts Python reads (spaces around, signs, exponents) are not
    in the examples.  [int] drops the fraction. *)
Record decimal : Type := Decimal { whole : N; fraction_digits : string }.

#[global] Instance decimal_eq_dec : EqDecision decimal.
Proof. solve_decision. Defined.

Fixpoint read_digits (s : string) (acc : N) (seen : bool)
    : option (N * string) :=
  match s with
  | "" => if seen then Some (acc, "") else None
  | String c s' =>
      match Ascii.is_nat c with
      | Some d => read_digits s' (10 * acc + N.of_nat d)%N true
      | None => if seen then Some (acc, s) else None
      end
  end.

Fixpoint all_digits (s : string) : bool :=
  match s with
  | "" => true
  | String c s' => bool_decide (is_Some (Ascii.is_nat c)) && all_digits s'
  end.

Definition py_float (s : string) : outcome decimal :=
  let error :=
    ValueError ("could not convert string to float: '" +:+ s +:+ "'") in
  match read_digits s 0 false with
  | Some (n, "") => Ok (Decimal n "")
  | Some (n, String "." fr) =>
      if all_digits fr then Ok (Decimal n fr) else Raise error
  | _ => Raise error
  end.

Definition py_int (x : decimal) : outcome Z := Ok (Z.of_N (whole x)).

(** A card of an AMAZON listing, with a list price, a price after discount
    and a link. *)
Definition price_css : string := "span.a-price.a-text-price span.a-offscreen".
Definition discount_css : string := "span.a-price-whole ,span#priceblock_ourprice".
Definition url_css : string :=
  "a.a-link-normal.s-line-clamp-2.s-link-style.a-text-normal ,a.a-link-normal".

Definition card (price discount href : string) : Soup :=
  MkSoup "" []
    (λ css,
       if String.eqb css price_css then Some (leaf price [])
       else if String.eqb css discount_css then Some (leaf discount [])
       else if String.eqb css url_css then Some (leaf "" [("href", href)])
       else None)
    (λ _, []).

Definition container (cards : list Soup) : Soup :=
  MkSoup "" [] (λ _, None)
    (λ css, if String.eqb css "div.a-section.a-spacing-base" then cards else []).

Definition page (cards : list Soup) : Soup :=
  MkSoup "" []
    (λ css,
       if String.eqb css ".s-main-slot.s-result-list"
       then Some (container cards) else None)
    (λ _, []).

(** A listing: the card of the end-to-end example of the specification,
    and a card with a list price above the ceiling of its category. *)
Definition listing : list Soup :=
  [card "₹1,999" "1,499" "/dp/B000000000";
   card "₹3,000" "1,499" "/dp/B000000001"].

(** A card of a FLIPKART listing and the page of its product. *)
Definition flipkart_card (price href : string) : Soup :=
  MkSoup "" []
    (λ css,
       if String.eqb css "div.Nx9bqj ,div._30jeq3" then Some (leaf price [])
       else if String.eqb css "a.CGtC98" then Some (leaf "" [("href", href)])
       else None)
    (λ _, []).

Definition flipkart_product (name price discount rating : string) : Soup :=
  MkSoup "" []
    (λ css,
       if String.eqb css "div.Nx9bqj ,div._30jeq3" then Some (leaf price [])
       else if String.eqb css "div.yRaY8j" then Some (leaf discount [])
       else if String.eqb css "span.VU-ZEz ,span._35KyD6"
       then Some (leaf name [])
       else if String.eqb css "div.XQDdHH ,div._6er70b"
       then Some (leaf rating [])
       else None)
    (λ _, []).

Definition flipkart_container (cards : list Soup) : Soup :=
  MkSoup "" [] (λ _, None)
    (λ css, if String.eqb css "div._1AtVbE div._2kHMtA" then cards else []).

(** Two cards for one product, their links differing in the query, and a
    card for another. *)
Definition flipkart_listing : list Soup :=
  [flipkart_card "₹999" "/shirt/p/itm1?pid=A&lid=1";
   flipkart_card "₹999" "/shirt/p/itm1?pid=A&lid=2";
   flipkart_card "₹1,299" "/jeans/p/itm2?pid=B"].

(** The browser is at a URL of a web that has a document at every URL. *)
Record browser : Type := Browser { at_url : string; web : string → Soup }.

#[global] Instance browser_chrome : Chrome browser := {
  driver_get url b := (Ok tt, Browser url (web b));
  wait_presence css b := (Ok tt, b);
  page_source b := Some (web b (at_url b));
  current_url b := at_url b;
  click css b := (Ok tt, Browser (at_url b +:+ "&page=2") (web b));
  wait_url_change url b := (Ok tt, b)
}.

(** A web with the same AMAZON listing at every URL. *)
Definition amazon_web (cards : list Soup) : string → Soup := λ _, page cards.

(** A web with the page of a shirt at every URL of FLIPKART. *)
Definition flipkart_web : string → Soup :=
  λ _,
    MkSoup "" []
      (λ css,
         if String.eqb css "div._1AtVbE div._2kHMtA"
         then Some (flipkart_product "Shirt" "₹999" "₹499" "4.3")
         else None)
      (λ _, []).

(** The tables of [lib/const.py] for AMAZON, and tables of the same shape
    for FLIPKART; no selector is known for the other sites. *)
Definition PRODUCT_DETAILS (w : Websites) : list (string * list string) :=
  match w with
  | AMAZON =>
      [("product_price", ["span.a-price.a-text-price span.a-offscreen"]);
       ("product_image", ["img.s-image"]);
       ("product_name", ["h2.a-size-base-plus.a-spacing-none"]);
       ("product_rating", ["span.a-icon-alt"]);
       ("product_url",
        ["a.a-link-normal.s-line-clamp-2.s-link-style.a-text-normal";
         "a.a-link-normal"]);
       ("product_discount", ["span.a-price-whole"; "span#priceblock_ourprice"])]
  | FLIPKART =>
      [("product_price", ["div.Nx9bqj"; "div._30jeq3"]);
       ("product_name", ["span.VU-ZEz"; "span._35KyD6"]);
       ("product_rating", ["div.XQDdHH"; "div._6er70b"]);
       ("product_url", ["a.CGtC98"]);
       ("product_discount", ["div.yRaY8j"])]
  | _ => []
  end.

Definition PRODUCT_CONTAINER (w : Websites) : string :=
  match w with
  | AMAZON => ".s-main-slot.s-result-list"
  | FLIPKART => "div._1AtVbE div._2kHMtA"
  | MYNTRA => "div.product-base"
  | AJIO => "div.item-list"
  end.

Definition PRODUCT_CARDS (w : Websites) : string :=
  match w with
  | AMAZON => "div.a-section.a-spacing-base"
  | FLIPKART => "div._1AtVbE div._2kHMtA"
  | MYNTRA => "div.product-base"
  | AJIO => "div.item-list"
  end.

Definition NEXT_BUTTON (w : Websites) : string := "a.s-pagination-next".

Definition REQUIRED_PRODUCT_KEYS : list string :=
  ["product_price"; "product_discount"; "product_url"].

Definition PRICE_LIMITS : list (string * Z) := [("t-shirt", 2500%Z)].

(** A classifier that finds every product a best deal. *)
Definition predict_deal (product : gmap string (value decimal))
    : outcome string := Ok "Best Deal".

(** A helper as [__init__] leaves it, with a connected Redis and a browser
    on the given web. *)
Definition new_helper (web : string → Soup) : SeleniumHelper decimal browser :=
  MkHelper Redis.example_db None None 1 [] None (Browser "about:blank" web) [].

(** The methods of the helper in this world, for a value of
    [MAX_PRODUCTS_PER_WEBSITE]. *)
Definition get_products (MAX_PRODUCTS_PER_WEBSITE : Z) :=
  Session.get_products py_float py_int PRODUCT_DETAILS PRODUCT_CARDS
    PRODUCT_CONTAINER NEXT_BUTTON REQUIRED_PRODUCT_KEYS PRICE_LIMITS
    MAX_PRODUCTS_PER_WEBSITE const_AMAZON_AFFILIATE_ID
    const_FLIPKART_AFFILIATE_ID const_MYNTRA_AFFILIATE_ID predict_deal 100.

Definition fetch_product_container :=
  Session.fetch_product_container (F:=decimal) (B:=browser)
    PRODUCT_CARDS PRODUCT_CONTAINER.

Definition extract_products_by_website :=
  Session.extract_products_by_website py_float py_int PRODUCT_DETAILS
    PRODUCT_CARDS PRODUCT_CONTAINER REQUIRED_PRODUCT_KEYS PRICE_LIMITS
    const_AMAZON_AFFILIATE_ID const_FLIPKART_AFFILIATE_ID
    const_MYNTRA_AFFILIATE_ID predict_deal 100.

Definition is_product_valid :=
  Session.is_product_valid (B:=browser) py_float py_int PRICE_LIMITS
    const_AMAZON_AFFILIATE_ID const_FLIPKART_AFFILIATE_ID
    const_MYNTRA_AFFILIATE_ID 100.

Definition format_extracted_data :=
  Session.format_extracted_data py_float py_int const_AMAZON_AFFILIATE_ID
    const_FLIPKART_AFFILIATE_ID const_MYNTRA_AFFILIATE_ID.

(** The helper in the middle of a session on t-shirts, on AMAZON and on
    FLIPKART. *)
Definition amazon_helper (cards : list Soup)
    : SeleniumHelper decimal browser :=
  MkHelper Redis.example_db (Some AMAZON) (Some "t-shirt") 1 [] (Some 1%Z)
    (Browser "https://www.amazon.in/s?k=t-shirt" (amazon_web cards)) [].

Definition flipkart_helper : SeleniumHelper decimal browser :=
  MkHelper Redis.example_db (Some FLIPKART) (Some "t-shirt") 1 [] (Some 1%Z)
    (Browser "https://www.flipkart.com/search?q=t-shirt" flipkart_web) [].

(** What the helper accepts on the FLIPKART listing, and how it is left. *)
Definition flipkart_accepted : list (gmap string (value decimal)) :=
  match (extract_products_by_website (flipkart_container flipkart_listing)
           flipkart_helper).1 with
  | Ok products => products
  | Raise _ => []
  end.

Definition flipkart_final : SeleniumHelper decimal browser :=
  (extract_products_by_website (flipkart_container flipkart_listing)
     flipkart_helper).2.

(** A browser on a web some pages of which do not load: [pages] has no
    document for them, [driver.get] and the wait for the cards raise for
    them, and [requests] counts the pages asked for. *)
Record unreliable_browser : Type := UnreliableBrowser {
  showing : string;
  pages : string → option Soup;
  requests : nat
}.

#[global] Instance unreliable_browser_chrome : Chrome unreliable_browser := {
  driver_get url b :=
    match pages b url with
    | Some _ => (Ok tt, UnreliableBrowser url (pages b) (S (requests b)))
    | None =>
        (Raise (Exn "WebDriverException" "net::ERR_CONNECTION_TIMED_OUT"),
         UnreliableBrowser (showing b) (pages b) (S (requests b)))
    end;
  wait_presence css b :=
    match pages b (showing b) with
    | Some _ => (Ok tt, b)
    | None => (Raise (Exn "TimeoutException" ""), b)
    end;
  page_source b := pages b (showing b);
  current_url b := showing b;
  click css b :=
    (Ok tt,
     UnreliableBrowser (showing b +:+ "&page=2") (pages b) (S (requests b)));
  wait_url_change url b := (Ok tt, b)
}.


End Example.

(** * Part II: properties *)

Section retry_facts.
Import Retry.
Context {W A : Type}.
Variable func : W → outcome A * W.

Lemma after_S (i : nat) (w : W) :
  after func (S i) w = after func i (func w).2.
Proof. induction i as [|i IH]; simpl; [done|]. by rewrite <- IH. Qed.

Lemma attempt_S (i : nat) (w : W) :
  attempt func (S i) w = attempt func i (func w).2.
Proof. unfold attempt. by rewrite after_S. Qed.

(** Every attempt raises: the loop goes through the whole range, sleeping
    [2 ** retry_count] after each attempt but the last. *)
Lemma wrapper_loop_exhausted (n : Z) (m : nat) (j : Z) (w : W) :
  0 ≤ j → j + Z.of_nat m = n →
  (∀ i, (i < m)%nat → is_raise (attempt func i w) = true) →
  ∃ tr, wrapper_loop func n (seqZ j (Z.of_nat m)) w = (None, after func m w, tr)
        ∧ invocations tr = m
        ∧ sleeps tr = (λ i, 2 ^ i) <$> seqZ j (Z.of_nat m - 1).
Proof.
  revert j w. induction m as [|m IH]; intros j w Hj Hn Hall.
  - exists []. by rewrite seqZ_nil by lia.
  - rewrite seqZ_cons by lia. simpl wrapper_loop.
    pose proof (Hall O ltac:(lia)) as H0. unfold attempt in H0. simpl in H0.
    destruct (func w) as [[a|e] w1] eqn:Hf; [done|].
    replace (Z.pred (Z.of_nat (S m))) with (Z.of_nat m) by lia.
    destruct (IH (Z.succ j) w1) as (tr & Hloop & Hinv & Hsl); [lia|lia| |].
    { intros i Hi. specialize (Hall (S i) ltac:(lia)).
      by rewrite attempt_S, Hf in Hall. }
    rewrite after_S, Hf. simpl.
    destruct (Z.ltb_spec j (n - 1)) as [Hlt|Hge].
    + rewrite Hloop. eexists; split; [done|]. simpl. split; [by rewrite Hinv|].
      replace (Z.of_nat (S m) - 1) with (Z.succ (Z.of_nat m - 1)) by lia.
      rewrite (seqZ_cons j) by lia. simpl. f_equal.
      rewrite Hsl. by replace (Z.pred (Z.succ (Z.of_nat m - 1)))
        with (Z.of_nat m - 1) by lia.
    + assert (m = O) as -> by lia. by exists [Invoke].
Qed.

(** The first success is at attempt [k] (counted from 1), within the range. *)
Lemma wrapper_loop_success (n : Z) (m k : nat) (j : Z) (a : A) (w : W) :
  0 ≤ j → j + Z.of_nat m = n → (1 ≤ k ≤ m)%nat →
  (∀ i, (i < k - 1)%nat → is_raise (attempt func i w) = true) →
  attempt func (k - 1) w = Ok a →
  ∃ tr, wrapper_loop func n (seqZ j (Z.of_nat m)) w = (Some a, after func k w, tr)
        ∧ invocations tr = k
        ∧ sleeps tr = (λ i, 2 ^ i) <$> seqZ j (Z.of_nat k - 1).
Proof.
  revert k j w. induction m as [|m IH]; intros k j w Hj Hn Hk Hfail Hok; [lia|].
  rewrite seqZ_cons by lia. simpl wrapper_loop.
  replace (Z.pred (Z.of_nat (S m))) with (Z.of_nat m) by lia.
  destruct k as [|[|k]]; [lia| |].
  - unfold attempt in Hok. simpl in Hok.
    destruct (func w) as [[a'|e] w1] eqn:Hf; simplify_eq/=.
    exists [Invoke]. by rewrite Hf.
  - pose proof (Hfail O ltac:(lia)) as H0. unfold attempt in H0. simpl in H0.
    destruct (func w) as [[a'|e] w1] eqn:Hf; [done|].
    destruct (IH (S k) (Z.succ j) w1) as (tr & Hloop & Hinv & Hsl); [lia|lia|lia| | |].
    { intros i Hi. specialize (Hfail (S i) ltac:(lia)).
      by rewrite attempt_S, Hf in Hfail. }
    { replace (S (S k) - 1)%nat with (S (S k - 1)) in Hok by lia.
      by rewrite attempt_S, Hf in Hok. }
    rewrite (after_S (S k)), Hf. simpl.
    destruct (Z.ltb_spec j (n - 1)) as [Hlt|Hge]; [|lia].
    rewrite Hloop. eexists; split; [done|]. simpl. split; [by rewrite Hinv|].
    replace (Z.of_nat (S (S k)) - 1) with (Z.succ (Z.of_nat (S k) - 1)) by lia.
    rewrite (seqZ_cons j) by lia. simpl. f_equal.
    rewrite Hsl. by replace (Z.pred (Z.succ (Z.of_nat (S k) - 1)))
      with (Z.of_nat (S k) - 1) by lia.
Qed.

(** What every call of the operation leaves of the world, the wrapper
    leaves. *)
Lemma wrapper_loop_preserves (R : W → W → Prop)
    `{!Reflexive R, !Transitive R} (n : Z) (range : list Z) (w : W) :
  (∀ w, R w (func w).2) → R w (wrapper_loop func n range w).1.2.
Proof.
  intros Hfunc. revert w. induction range as [|i range IH]; intros w; [done|].
  simpl. specialize (Hfunc w). destruct (func w) as [[a|e] w1]; [done|].
  destruct (i <? n - 1); [|done].
  specialize (IH w1). destruct (wrapper_loop func n range w1) as [[r w2] tr].
  simpl in *. by etrans.
Qed.

End retry_facts.

(** C3.  With [max_retries = 3]: an operation that raises on every call is
    invoked exactly three times, the wrapper sleeps [2 ** 0 = 1] second
    after the first failure and [2 ** 1 = 2] seconds after the second, and
    after the third it returns [None] instead of raising; an operation whose
    first success is its [k]-th call, [k ≤ 3], is invoked exactly [k] times,
    with sleeps of [2 ** (i - 1)] seconds after the failed attempt [i], and
    its value is what the wrapper returns. *)
Theorem retry_three_attempts {W A : Type} (func : W → outcome A * W) (w : W) :
  ((∀ w', is_raise (func w').1 = true) →
     ∃ e1 e2,
       Retry.wrapper func 3 w =
         (None, Retry.after func 3 w,
          [Retry.Invoke; Retry.Warning 1 3 1 e1; Retry.Sleep 1;
           Retry.Invoke; Retry.Warning 2 3 2 e2; Retry.Sleep 2;
           Retry.Invoke]))
  ∧ (∀ (k : nat) (a : A),
       (1 ≤ k ≤ 3)%nat →
       (∀ i, (i < k - 1)%nat → is_raise (Retry.attempt func i w) = true) →
       Retry.attempt func (k - 1) w = Ok a →
       ∃ tr,
         Retry.wrapper func 3 w = (Some a, Retry.after func k w, tr)
         ∧ Retry.invocations tr = k
         ∧ Retry.sleeps tr = (λ i, 2 ^ i) <$> seqZ 0 (Z.of_nat k - 1)).
Proof.
  split.
  - intros Hall. unfold Retry.wrapper.
    change (seqZ 0 3) with [0; 1; 2]. simpl.
    pose proof (Hall w) as H0.
    destruct (func w) as [[a0|e1] w1]; [done|]. simpl.
    pose proof (Hall w1) as H1.
    destruct (func w1) as [[a1|e2] w2]; [done|]. simpl.
    pose proof (Hall w2) as H2.
    destruct (func w2) as [[a2|e3] w3]; [done|]. simpl.
    by exists e1, e2.
  - intros k a Hk Hfail Hok.
    apply (wrapper_loop_success func 3 3 k 0 a w); [lia|lia|lia|done|done].
Qed.

Lemma retry_three_attempts_witness :
  (Retry.wrapper Retry.always_raises 3 O).1 = (None, 3%nat)
  ∧ ∃ tr, Retry.wrapper Retry.third_time_lucky 3 O = (Some 7, 3%nat, tr)
          ∧ Retry.invocations tr = 3%nat ∧ Retry.sleeps tr = [1; 2].
Proof.
  pose proof (retry_three_attempts Retry.always_raises O) as [Hfail _].
  pose proof (retry_three_attempts Retry.third_time_lucky O) as [_ Hok].
  split.
  - destruct Hfail as (e1 & e2 & ->); [done|]. reflexivity.
  - destruct (Hok 3%nat 7) as (tr & Hw & Hinv & Hsl).
    + lia.
    + intros [|[|i]] Hi; [reflexivity|reflexivity|lia].
    + reflexivity.
    + exists tr. rewrite Hw. split; [reflexivity|]. split; [exact Hinv|exact Hsl].
Defined.

(** ** The product id of an Amazon URL and the affiliate rewrite *)

Section url_facts.
Import Urls.
Local Open Scope string_scope.

Lemma append_nil (b : string) : "" +:+ b = b.
Proof. reflexivity. Qed.

Lemma append_cons (c : ascii) (a b : string) :
  String c a +:+ b = String c (a +:+ b).
Proof. reflexivity. Qed.

Lemma append_assoc (a b c : string) : (a +:+ b) +:+ c = a +:+ (b +:+ c).
Proof.
  induction a as [|x a IH]; [done|]. rewrite !append_cons. by f_equal.
Qed.

Lemma all_alnum_cons (c : ascii) (s : string) :
  Str.all_alnum (String c s) ↔ Str.is_alnum c = true ∧ Str.all_alnum s.
Proof.
  unfold Str.all_alnum. simpl. split.
  - by inversion 1.
  - intros [? ?]. by constructor.
Qed.

Lemma take_alnum_Some (n : nat) (s id : string) :
  take_alnum n s = Some id ↔
  ∃ post, s = id +:+ post ∧ String.length id = n ∧ Str.all_alnum id.
Proof.
  revert s id. induction n as [|n IH]; intros s id; simpl.
  - split.
    + intros [= <-]. exists s. repeat split. by constructor.
    + intros (post & _ & Hlen & _). by destruct id.
  - destruct s as [|c s].
    + split; [done|]. intros (post & Heq & Hlen & _). by destruct id.
    + destruct (Str.is_alnum c) eqn:Hc.
      * destruct (take_alnum n s) as [id'|] eqn:Ht; simpl.
        -- apply IH in Ht as (post & -> & Hlen & Hal). split.
           ++ intros [= <-]. exists post. rewrite append_cons. split; [done|].
              split; [by simpl; rewrite Hlen|]. by apply all_alnum_cons.
           ++ intros (post' & Heq & Hlen' & Hal'). destruct id as [|c' id]; [done|].
              rewrite append_cons in Heq. simpl in Hlen'. injection Heq as <- Heq.
              apply all_alnum_cons in Hal' as [_ Hal'].
              assert (take_alnum n (id' +:+ post) = Some id) as Hid.
              { apply IH. exists post'. split; [done|]. split; [lia|done]. }
              assert (take_alnum n (id' +:+ post) = Some id') as Hid'.
              { apply IH. by exists post. }
              congruence.
        -- split; [done|]. intros (post' & Heq & Hlen' & Hal').
           destruct id as [|c' id]; [done|].
           rewrite append_cons in Heq. simpl in Hlen'. injection Heq as <- Heq.
           apply all_alnum_cons in Hal' as [_ Hal'].
           assert (take_alnum n s = Some id) as Hid; [|congruence].
           apply IH. exists post'. split; [done|]. split; [lia|done].
      * split; [done|]. intros (post' & Heq & Hlen' & Hal').
        destruct id as [|c' id]; [done|].
        rewrite append_cons in Heq. injection Heq as <- Heq.
        apply all_alnum_cons in Hal' as [Hc' _]. congruence.
Qed.

Lemma match_dp_Some (s id : string) :
  match_dp s = Some id ↔
  ∃ post, s = "/dp/" +:+ id +:+ post
          ∧ String.length id = 10%nat ∧ Str.all_alnum id.
Proof.
  split.
  - intros H. unfold match_dp in H.
    repeat (match type of H with
            | context [match ?x with _ => _ end] => destruct x; try done
            end).
    apply take_alnum_Some in H as (post & -> & Hlen & Hal). by exists post.
  - intros (post & -> & Hlen & Hal). rewrite !append_cons, append_nil.
    unfold match_dp. apply take_alnum_Some. by exists post.
Qed.

Lemma search_dp_cons (c : ascii) (s : string) :
  search_dp (String c s) =
  match match_dp (String c s) with
  | Some id => Some id
  | None => search_dp s
  end.
Proof. reflexivity. Qed.

(** [search_dp] finds a product id exactly in the texts that contain one. *)
Lemma search_dp_None (s : string) :
  search_dp s = None ↔ ¬ contains_dp_id s.
Proof.
  split.
  - intros Hs (pre & id & post & -> & Hlen & Hal). revert Hs.
    induction pre as [|c pre IH].
    + assert (match_dp ("/dp/" +:+ id +:+ post) = Some id) as Hm.
      { apply match_dp_Some. by exists post. }
      rewrite append_nil. rewrite append_cons in Hm |- *.
      rewrite search_dp_cons. by rewrite Hm.
    + rewrite append_cons, search_dp_cons.
      destruct (match_dp _); [done|]. apply IH.
  - induction s as [|c s IH]; intros Hno; [done|].
    rewrite search_dp_cons. destruct (match_dp (String c s)) as [id|] eqn:Hm.
    + exfalso. apply Hno. apply match_dp_Some in Hm as (post & Heq & Hlen & Hal).
      exists "", id, post. by rewrite Heq.
    + apply IH. intros (pre & id & post & -> & Hlen & Hal).
      apply Hno. by exists (String c pre), id, post.
Qed.

Lemma search_dp_Some (s id : string) :
  search_dp s = Some id →
  contains_dp_id s ∧ String.length id = 10%nat ∧ Str.all_alnum id.
Proof.
  induction s as [|c s IH]; [done|]. rewrite search_dp_cons.
  destruct (match_dp (String c s)) as [id'|] eqn:Hm.
  - intros [= ->]. apply match_dp_Some in Hm as (post & Heq & Hlen & Hal).
    split; [|done]. exists "", id, post. by rewrite Heq.
  - intros Hs. destruct (IH Hs) as ((pre & id' & post & -> & Hlen & Hal) & ?).
    split; [|done]. by exists (String c pre), id', post.
Qed.

End url_facts.

Ltac site_solver :=
  intros;
  repeat match goal with
         | H : _ ∨ _ |- _ => destruct H
         | H : _ ∧ _ |- _ => destruct H
         | H : ex _ |- _ => destruct H
         end;
  first [ done | congruence | by eauto | by left | by right; left
        | by right; right ].

Example short_url_amazon_example :
  Urls.short_url_with_affiliate_code
    Urls.const_AMAZON_AFFILIATE_ID Urls.const_FLIPKART_AFFILIATE_ID
    Urls.const_MYNTRA_AFFILIATE_ID (Some Urls.AMAZON) "/dp/B000000000"
  = Ok (Some "https://www.amazon.in/dp/B000000000/?tag=aladdinloot3-21"%string).
Proof. reflexivity. Qed.

Example short_url_flipkart_example :
  Urls.short_url_with_affiliate_code
    Urls.const_AMAZON_AFFILIATE_ID Urls.const_FLIPKART_AFFILIATE_ID
    Urls.const_MYNTRA_AFFILIATE_ID (Some Urls.FLIPKART) "/shirt/p/itm1?pid=X&lid=Y"
  = Ok (Some
      "https://www.flipkart.com/shirt/p/itm1/?affid=admitad&affExtParam1=298614"%string).
Proof. reflexivity. Qed.

(** C7, as the code has it.  The rewrite returns a URL exactly for
    FLIPKART, for MYNTRA, and for AMAZON when the percent-decoded href
    contains ["/dp/"] and ten characters of [[a-zA-Z0-9]]; the URL it
    returns ends with ["/"] and the affiliate suffix of the site; it raises
    [ValueError] exactly for AJIO, which has no rule although it is a member
    of the enum, and for a website that is not set. *)
Theorem affiliate_rewrite_by_site
    (AMAZON_ID FLIPKART_ID MYNTRA_ID : string)
    (website_name : option Urls.Websites) (href : string) :
  let r := Urls.short_url_with_affiliate_code
             AMAZON_ID FLIPKART_ID MYNTRA_ID website_name href in
  let suffix :=
    match website_name with
    | Some Urls.AMAZON => AMAZON_ID
    | Some Urls.FLIPKART => FLIPKART_ID
    | _ => MYNTRA_ID
    end in
  ((∃ u, r = Ok (Some u)) ↔
     website_name = Some Urls.FLIPKART ∨ website_name = Some Urls.MYNTRA
     ∨ (website_name = Some Urls.AMAZON
        ∧ Urls.contains_dp_id (Str.unquote href)))
  ∧ (∀ u, r = Ok (Some u) → ∃ body, u = (body +:+ "/" +:+ suffix)%string)
  ∧ (r = Raise (ValueError "Invalid website specified") ↔
       website_name = Some Urls.AJIO ∨ website_name = None)
  ∧ (is_raise r = true →
       website_name = Some Urls.AJIO ∨ website_name = None).
Proof.
  intros r suffix. subst r suffix.
  unfold Urls.short_url_with_affiliate_code, Urls.extract_amazon_product_id.
  destruct website_name as [[]|]; simpl.
  - destruct (Urls.search_dp (Str.unquote href)) as [id|] eqn:Hs.
    + apply search_dp_Some in Hs as (Hc & _).
      repeat split; try site_solver.
      intros u [= <-].
      exists ("https://www.amazon.in/dp/" +:+ id)%string.
      by rewrite !append_assoc.
    + apply search_dp_None in Hs. repeat split; site_solver.
  - repeat split; try site_solver. intros u [= <-].
    exists ("https://www.flipkart.com" +:+ Str.before_first "?" href)%string.
    by rewrite !append_assoc.
  - repeat split; try site_solver. intros u [= <-].
    exists ("https://www.myntra.com/" +:+ href)%string.
    by rewrite !append_assoc.
  - repeat split; site_solver.
  - repeat split; site_solver.
Qed.

(** C7 as stated fails for AJIO: a site of the enum, and no URL comes back. *)
Lemma affiliate_rewrite_ajio_raises :
  Urls.short_url_with_affiliate_code
    Urls.const_AMAZON_AFFILIATE_ID Urls.const_FLIPKART_AFFILIATE_ID
    Urls.const_MYNTRA_AFFILIATE_ID (Some Urls.AJIO) "/p/463998781_blue"
  = Raise (ValueError "Invalid website specified").
Proof. reflexivity. Qed.

(** C10, as the code has it.  For AMAZON the rewrite never raises, and for
    every raw href whose percent-decoded form ([unquote]) does not contain
    ["/dp/"] followed by ten characters of [[a-zA-Z0-9]] it returns [None]
    instead of a URL. *)
Theorem amazon_rewrite_without_product_id
    (AMAZON_ID FLIPKART_ID MYNTRA_ID : string) (href : string) :
  ¬ Urls.contains_dp_id (Str.unquote href) →
  Urls.short_url_with_affiliate_code
    AMAZON_ID FLIPKART_ID MYNTRA_ID (Some Urls.AMAZON) href = Ok None.
Proof.
  intros Hno. apply search_dp_None in Hno.
  unfold Urls.short_url_with_affiliate_code, Urls.extract_amazon_product_id.
  by rewrite Hno.
Qed.

Lemma amazon_rewrite_without_product_id_witness :
  Urls.short_url_with_affiliate_code
    Urls.const_AMAZON_AFFILIATE_ID Urls.const_FLIPKART_AFFILIATE_ID
    Urls.const_MYNTRA_AFFILIATE_ID (Some Urls.AMAZON)
    "/gp/slredirect/picassoRedirect.html?ie=UTF8" = Ok None.
Proof.
  apply amazon_rewrite_without_product_id.
  apply search_dp_None. reflexivity.
Defined.

(** C10 as stated, on the raw href, fails: the href below has no ["/dp/"]
    in it, its percent-decoded form has, and the rewrite returns a URL. *)
Lemma amazon_rewrite_percent_encoded_id :
  ¬ Urls.contains_dp_id "%2Fdp%2FB000000000"
  ∧ Urls.short_url_with_affiliate_code
      Urls.const_AMAZON_AFFILIATE_ID Urls.const_FLIPKART_AFFILIATE_ID
      Urls.const_MYNTRA_AFFILIATE_ID (Some Urls.AMAZON) "%2Fdp%2FB000000000"
    = Ok (Some "https://www.amazon.in/dp/B000000000/?tag=aladdinloot3-21"%string).
Proof.
  split; [|reflexivity]. apply search_dp_None. reflexivity.
Qed.

(** ** The duplicate cache: [add_to_set] and [is_url_cached] *)

Section redis_facts.
Import Redis.
Implicit Types (srv : server) (now : Z) (url key : string).

Lemma elem_of_live_keys now srv key :
  key ∈ live_keys now srv ↔ is_Some (get_live now srv key).
Proof.
  unfold live_keys, get_live. rewrite list_elem_of_fmap. split.
  - intros ([k e] & -> & Hin). apply list_elem_of_filter in Hin as [Hl Hin].
    apply elem_of_map_to_list in Hin. simpl in *. rewrite Hin.
    destruct (live now e); [by eexists|done].
  - intros [e He]. destruct (keyspace srv !! key) as [e'|] eqn:Hk; [|done].
    destruct (live now e') eqn:Hl; [|done]. exists (key, e'). split; [done|].
    apply list_elem_of_filter. split; [by simpl; rewrite Hl|].
    by apply elem_of_map_to_list.
Qed.

Lemma pipeline_sismember_reachable now srv keys url :
  reachable srv = true →
  pipeline_sismember now srv keys url = Ok (holds now srv url <$> keys).
Proof.
  intros Hr. induction keys as [|key keys IH]; simpl; [done|].
  rewrite IH. unfold sismember, holds. rewrite Hr.
  by destruct (get_live now srv key).
Qed.

Lemma existsb_id_fmap {A} (f : A → bool) (l : list A) :
  existsb id (f <$> l) = existsb f l.
Proof. induction l as [|x l IH]; [done|]. rewrite fmap_cons. simpl. by rewrite IH. Qed.

Lemma existsb_filter_app {A} (f : A → bool) (P : A → Prop)
    `{∀ x, Decision (P x)} (l1 l2 : list A) :
  existsb f (filter P (l1 ++ l2))
  = existsb f (filter P l1) || existsb f (filter P l2).
Proof. by rewrite filter_app, existsb_app. Qed.

(** With fuel for every batch that is left, the loop answers whether one of
    the matching keys from [cursor] on holds the URL. *)
Lemma scan_loop_spec (fuel : nat) now srv url (pattern : string → bool)
    (cursor : nat) :
  reachable srv = true →
  (length (live_keys now srv) - cursor < fuel)%nat →
  scan_loop fuel now srv url pattern cursor
  = Done (Ok (existsb (holds now srv url)
                (filter (λ k, Is_true (pattern k))
                   (drop cursor (live_keys now srv))))).
Proof.
  intros Hr. revert cursor.
  induction fuel as [|fuel IH]; intros cursor Hfuel; [lia|].
  set (all := live_keys now srv) in *.
  set (batch := S (scan_batch srv)).
  set (keys := filter (λ k, Is_true (pattern k)) (take batch (drop cursor all))).
  assert (existsb (holds now srv url)
            (filter (λ k, Is_true (pattern k)) (drop cursor all))
          = existsb (holds now srv url) keys
            || existsb (holds now srv url)
                 (filter (λ k, Is_true (pattern k)) (drop (cursor + batch) all)))
    as ->.
  { subst keys. by rewrite <- existsb_filter_app, <- drop_drop, take_drop. }
  simpl scan_loop. unfold scan. rewrite Hr.
  fold all. fold batch. fold keys.
  assert ((cursor + batch <? length all)%nat = false →
          drop (cursor + batch) all = []) as Hlast.
  { intros Hlt%Nat.ltb_ge. by apply drop_ge. }
  assert ((cursor + batch <? length all)%nat = true →
          scan_loop fuel now srv url pattern (cursor + batch)
          = Done (Ok (existsb (holds now srv url)
                        (filter (λ k, Is_true (pattern k))
                           (drop (cursor + batch) all))))) as Hnext.
  { intros Hlt%Nat.ltb_lt. apply IH. subst batch. lia. }
  destruct keys as [|k keys'] eqn:Hkeys.
  - simpl. destruct (cursor + batch <? length all)%nat eqn:Hlt.
    + replace (cursor + batch =? 0)%nat with false
        by (symmetry; apply Nat.eqb_neq; subst batch; lia).
      by apply Hnext.
    + simpl. by rewrite Hlast.
  - rewrite pipeline_sismember_reachable by done.
    rewrite existsb_id_fmap.
    destruct (existsb (holds now srv url) (k :: keys')) eqn:Hex; [done|].
    simpl. destruct (cursor + batch <? length all)%nat eqn:Hlt.
    + replace (cursor + batch =? 0)%nat with false
        by (symmetry; apply Nat.eqb_neq; subst batch; lia).
      by apply Hnext.
    + simpl. by rewrite Hlast.
Qed.

Lemma existsb_holds_in_live_set now srv url (pattern : string → bool) :
  existsb (holds now srv url)
    (filter (λ k, Is_true (pattern k)) (live_keys now srv)) = true
  ↔ in_live_set now srv pattern url.
Proof.
  rewrite existsb_exists. split.
  - intros (key & Hin & Hh). apply list_elem_of_In in Hin.
    apply list_elem_of_filter in Hin as [Hp Hin].
    unfold holds in Hh. destruct (get_live now srv key) as [e|] eqn:He; [|done].
    exists key, e. split; [done|]. split; [by apply Is_true_true|].
    by apply bool_decide_eq_true in Hh.
  - intros (key & e & He & Hp & Hin). exists key. split.
    + apply list_elem_of_In, list_elem_of_filter. split; [by apply Is_true_true|].
      apply elem_of_live_keys. by eexists.
    + unfold holds. rewrite He. by apply bool_decide_eq_true.
Qed.

(** [is_url_cached] on a store that answers: [True] exactly when some live
    set with a matching key has the URL. *)
Lemma is_url_cached_reachable (fuel : nat) now srv url (pattern : string → bool) :
  reachable srv = true →
  (length (live_keys now srv) < fuel)%nat →
  (in_live_set now srv pattern url →
     is_url_cached fuel now url pattern (MkRedisDB (Some srv)) = Done (Some true))
  ∧ (¬ in_live_set now srv pattern url →
     is_url_cached fuel now url pattern (MkRedisDB (Some srv)) = Done (Some false)).
Proof.
  intros Hr Hfuel. unfold is_url_cached. simpl.
  rewrite scan_loop_spec by (done || lia). rewrite drop_0.
  pose proof (existsb_holds_in_live_set now srv url pattern) as Hiff.
  destruct (existsb _ _).
  - split; [done|]. intros Hno. by destruct Hno; apply Hiff.
  - split; [|done]. intros Hin. apply Hiff in Hin. done.
Qed.

(** [is_url_cached] on a store that does not answer returns [None]. *)
Lemma is_url_cached_unreachable (fuel : nat) now srv url (pattern : string → bool) :
  reachable srv = false →
  is_url_cached (S fuel) now url pattern (MkRedisDB (Some srv)) = Done None.
Proof. intros Hr. unfold is_url_cached, scan. simpl. unfold scan. by rewrite Hr. Qed.

(** What a successful [add_to_set] of one URL leaves in the store. *)
Lemma add_to_set_inv now key url (expire_time : option Z) (self self' : RedisDB)
    (n : Z) :
  add_to_set now key (inl url) expire_time self = (Some n, self') →
  ∃ srv srv' e,
    client self = Some srv ∧ client self' = Some srv'
    ∧ reachable srv' = true ∧ scan_batch srv' = scan_batch srv
    ∧ keyspace srv' !! key = Some e ∧ url ∈ members e
    ∧ (∀ t, expire_time = Some t → t ≠ 0 → deadline e = Some (now + t)).
Proof.
  unfold add_to_set, redis_call. destruct self as [[srv|]]; simpl; [|done].
  unfold sadd. destruct (reachable srv) eqn:Hr; [|done].
  set (old := match get_live now srv key with Some e => e | None => Entry ∅ None end).
  set (e1 := Entry (members old ∪ list_to_set [url]) (deadline old)).
  set (srv1 := with_keyspace srv (<[key:=e1]> (keyspace srv))).
  assert (url ∈ members e1) as Hin1 by (simpl; set_solver).
  assert (keyspace srv1 !! key = Some e1) as Hk1 by (simpl; apply lookup_insert_eq).
  destruct expire_time as [t|].
  - destruct (bool_decide (t = 0)) eqn:Ht.
    + apply bool_decide_eq_true in Ht. intros [= <- <-].
      exists srv, srv1, e1. repeat split; try done. intros t' [= <-]. done.
    + unfold expire. change (reachable srv1) with (reachable srv). rewrite Hr.
      assert (live now e1 = true → get_live now srv1 key = Some e1) as Hlive.
      { intros Hl. unfold get_live. by rewrite Hk1, Hl. }
      destruct (get_live now srv1 key) as [e2|] eqn:Hg.
      * intros [= <- <-]. unfold get_live in Hg. rewrite Hk1 in Hg.
        destruct (live now e1); [|done]. injection Hg as <-.
        exists srv,
          (with_keyspace srv1
             (<[key:=Entry (members e1) (Some (now + t))]> (keyspace srv1))),
          (Entry (members e1) (Some (now + t))).
        split; [done|]. split; [done|]. split; [done|]. split; [done|].
        split; [apply lookup_insert_eq|]. split; [done|].
        simpl. by intros t' [= <-] _.
      * exfalso. unfold get_live in Hg. rewrite Hk1 in Hg.
        assert (live now e1 = true) as Hl; [|by rewrite Hl in Hg].
        unfold live, e1, old. simpl. unfold get_live.
        destruct (keyspace srv !! key) as [e0|]; [|done].
        unfold live. destruct (deadline e0) as [d|] eqn:Hd; simpl; [|by rewrite Hd].
        destruct (bool_decide (now < d)) eqn:Hb; simpl; [by rewrite Hd|done].
  - intros [= <- <-]. exists srv, srv1, e1. repeat split; done.
Qed.

End redis_facts.

Example is_url_cached_live_window :
  Redis.is_url_cached 4 100 "https://www.flipkart.com/1"
    (Redis.prefix_pattern "product_url_cache") Redis.example_db
  = Done (Some true).
Proof. vm_compute. reflexivity. Qed.

Example is_url_cached_expired_window :
  Redis.is_url_cached 4 49 "https://www.flipkart.com/0"
    (Redis.prefix_pattern "product_url_cache") Redis.example_db
  = Done (Some true)
  ∧ Redis.is_url_cached 4 50 "https://www.flipkart.com/0"
      (Redis.prefix_pattern "product_url_cache") Redis.example_db
    = Done (Some false).
Proof. split; vm_compute; reflexivity. Qed.

Example is_url_cached_other_set :
  Redis.is_url_cached 4 100 "https://www.myntra.com/7"
    (Redis.prefix_pattern "product_url_cache") Redis.example_db
  = Done (Some false).
Proof. vm_compute. reflexivity. Qed.

Example is_url_cached_not_connected :
  Redis.is_url_cached 4 100 "https://www.flipkart.com/1"
    (Redis.prefix_pattern "product_url_cache") (Redis.MkRedisDB None)
  = Done None.
Proof. reflexivity. Qed.

(** C4.  After [add_to_set] has added [url] to the set at [key], a key the
    pattern of the cache accepts, [is_url_cached] returns [True] at every
    time [t1] at which that set has not expired; and on a store that
    answers, for a URL that is in no live set with a matching key,
    [is_url_cached] returns [False] (it never returns [True] for such a URL,
    whether the store answers or not).  The loop of [is_url_cached] ends
    within one iteration per key of the store and one more. *)
Theorem register_then_exists
    (self self' : Redis.RedisDB) (t0 t1 : Z) (key url : string)
    (expire_time : option Z) (n : Z) (pattern : string → bool) :
  (∀ srv' fuel,
     Redis.add_to_set t0 key (inl url) expire_time self = (Some n, self') →
     pattern key = true →
     Redis.client self' = Some srv' →
     is_Some (Redis.get_live t1 srv' key) →
     (length (Redis.live_keys t1 srv') < fuel)%nat →
     Redis.is_url_cached fuel t1 url pattern self' = Done (Some true))
  ∧ (∀ srv fuel,
       Redis.client self = Some srv →
       ¬ Redis.in_live_set t1 srv pattern url →
       (length (Redis.live_keys t1 srv) < fuel)%nat →
       Redis.is_url_cached fuel t1 url pattern self ≠ Done (Some true)
       ∧ (Redis.reachable srv = true →
          Redis.is_url_cached fuel t1 url pattern self = Done (Some false))).
Proof.
  split.
  - intros srv' fuel Hadd Hpat Hcl [e' Hlive] Hfuel.
    apply add_to_set_inv in Hadd
      as (srv & srv1 & e & _ & Hcl1 & Hr & _ & Hk & Hin & _).
    rewrite Hcl in Hcl1. injection Hcl1 as <-.
    destruct self' as [c]. simpl in Hcl. subst c.
    apply is_url_cached_reachable; [done|done|].
    exists key, e'. split; [done|]. split; [done|].
    unfold Redis.get_live in Hlive. rewrite Hk in Hlive.
    destruct (Redis.live t1 e); by simplify_eq.
  - intros srv fuel Hcl Hno Hfuel.
    destruct self as [c]. simpl in Hcl. subst c.
    destruct (Redis.reachable srv) eqn:Hr.
    + destruct (is_url_cached_reachable fuel t1 srv url pattern Hr Hfuel)
        as [_ Hfalse].
      rewrite (Hfalse Hno). done.
    + destruct fuel as [|fuel]; [lia|].
      rewrite is_url_cached_unreachable by done. done.
Qed.

Lemma register_then_exists_witness :
  Redis.is_url_cached 5 3600 Redis.example_url
    (Redis.prefix_pattern "product_url_cache")
    (Redis.add_to_set 60 "product_url_cache_60.25_thursday"
       (inl Redis.example_url) (Some 604800) Redis.example_db).2
  = Done (Some true)
  ∧ Redis.is_url_cached 5 3600 Redis.example_url
      (Redis.prefix_pattern "product_url_cache") Redis.example_db
    = Done (Some false).
Proof.
  pose proof (register_then_exists Redis.example_db
    (Redis.add_to_set 60 "product_url_cache_60.25_thursday"
       (inl Redis.example_url) (Some 604800) Redis.example_db).2
    60 3600 "product_url_cache_60.25_thursday" Redis.example_url
    (Some 604800) 1 (Redis.prefix_pattern "product_url_cache")) as [Hyes Hno].
  split.
  - eapply Hyes.
    + vm_compute. reflexivity.
    + reflexivity.
    + reflexivity.
    + vm_compute. eexists. reflexivity.
    + vm_compute. lia.
  - eapply Hno.
    + reflexivity.
    + intros Hin. apply existsb_holds_in_live_set in Hin.
      vm_compute in Hin. discriminate Hin.
    + vm_compute. lia.
    + reflexivity.
Defined.

(** ** The key of the rotation window *)

Section cache_key_facts.
Import CacheKey.
Local Open Scope string_scope.

Lemma occurs_cons (c a : ascii) (s : string) :
  Str.occurs c (String a s) = Ascii.eqb a c || Str.occurs c s.
Proof. reflexivity. Qed.

Lemma occurs_digit (c : ascii) (d : N) (s : string) :
  (∀ d, pretty_N_char d ≠ c) →
  Str.occurs c (String (pretty_N_char d) s) = Str.occurs c s.
Proof.
  intros Hc. rewrite occurs_cons.
  destruct (Ascii.eqb_spec (pretty_N_char d) c) as [Heq|]; [|done].
  by destruct (Hc _ Heq).
Qed.

Lemma occurs_append (c : ascii) (a b : string) :
  Str.occurs c (a +:+ b) = Str.occurs c a || Str.occurs c b.
Proof.
  induction a as [|x a IH]; [done|].
  rewrite append_cons, !occurs_cons. by rewrite IH, orb_assoc.
Qed.

(** A text is cut in one way only at the first occurrence of a character. *)
Lemma append_sep_inj (c : ascii) (a1 b1 a2 b2 : string) :
  Str.occurs c a1 = false → Str.occurs c a2 = false →
  a1 +:+ String c b1 = a2 +:+ String c b2 → a1 = a2 ∧ b1 = b2.
Proof.
  revert a2. induction a1 as [|x a1 IH]; intros [|y a2] H1 H2 Heq;
    rewrite ?append_nil, ?append_cons in Heq.
  - by injection Heq.
  - injection Heq as Hc _. subst y. by rewrite occurs_cons, Ascii.eqb_refl in H2.
  - injection Heq as Hc _. subst x. by rewrite occurs_cons, Ascii.eqb_refl in H1.
  - injection Heq as <- Heq. rewrite occurs_cons in H1, H2.
    apply orb_false_iff in H1 as [_ H1]. apply orb_false_iff in H2 as [_ H2].
    destruct (IH a2 H1 H2 Heq) as [-> ->]. done.
Qed.

Lemma dot_not_a_digit : Str.not_a_digit ".".
Proof. intros d. unfold pretty_N_char. by repeat case_match. Qed.

Lemma underscore_not_a_digit : Str.not_a_digit "_".
Proof. intros d. unfold pretty_N_char. by repeat case_match. Qed.

Lemma occurs_pretty_N_go (c : ascii) (x : N) (s : string) :
  Str.not_a_digit c → Str.occurs c (pretty_N_go x s) = Str.occurs c s.
Proof.
  intros Hc. revert s. induction (N.lt_wf_0 x) as [x _ IH]; intros s.
  assert (x = 0 ∨ 0 < x)%N as [->|Hx] by lia.
  - by rewrite pretty_N_go_0.
  - rewrite pretty_N_go_step by done. rewrite IH by (by apply N.div_lt).
    by apply occurs_digit.
Qed.

Lemma occurs_pretty_N (c : ascii) (x : N) :
  Str.not_a_digit c → Str.occurs c (pretty x) = false.
Proof.
  intros Hc. unfold pretty, pretty_N. case_decide.
  - exact (occurs_digit c 0 "" Hc).
  - by rewrite occurs_pretty_N_go.
Qed.

Lemma occurs_fraction (c : ascii) (k : nat) (f : N) :
  Str.not_a_digit c → Str.occurs c (fraction k f) = false.
Proof.
  intros Hc. revert f. induction k as [|k IH]; intros f; [done|].
  change (fraction (S k) f) with
    (if (f =? 0)%N then ""
     else String (pretty_N_char (f `div` 10 ^ N.of_nat k))
            (fraction k (f `mod` 10 ^ N.of_nat k))).
  destruct (f =? 0)%N; [done|]. by rewrite occurs_digit.
Qed.

Lemma occurs_fraction_text (c : ascii) (f : N) :
  Str.not_a_digit c → Str.occurs c (fraction_text f) = false.
Proof.
  intros Hc. unfold fraction_text. destruct (f =? 0)%N.
  - exact (occurs_digit c 0 "" Hc).
  - by apply occurs_fraction.
Qed.

Lemma occurs_timestamp_text (now : datetime) :
  Str.occurs "_" (timestamp_text now) = false.
Proof.
  unfold timestamp_text. rewrite occurs_append, append_cons, append_nil.
  rewrite occurs_pretty_N by apply underscore_not_a_digit.
  rewrite occurs_cons.
  by rewrite occurs_fraction_text by apply underscore_not_a_digit.
Qed.

Lemma fraction_S (k : nat) (f : N) :
  fraction (S k) f =
  if (f =? 0)%N then ""
  else String (pretty_N_char (f `div` 10 ^ N.of_nat k))
         (fraction k (f `mod` 10 ^ N.of_nat k)).
Proof. reflexivity. Qed.

Lemma fraction_0 (k : nat) : fraction k 0 = "".
Proof. by destruct k. Qed.

Lemma pow10_pos (k : nat) : (0 < 10 ^ N.of_nat k)%N.
Proof. apply N.neq_0_lt_0, N.pow_nonzero. lia. Qed.

Lemma pow10_S (k : nat) : (10 ^ N.of_nat (S k) = 10 * 10 ^ N.of_nat k)%N.
Proof. rewrite Nat2N.inj_succ. apply N.pow_succ_r'. Qed.

Lemma fraction_inj (k : nat) (f g : N) :
  (f < 10 ^ N.of_nat k)%N → (g < 10 ^ N.of_nat k)%N →
  fraction k f = fraction k g → f = g.
Proof.
  revert f g. induction k as [|k IH]; intros f g Hf Hg Heq.
  - change (10 ^ N.of_nat 0)%N with 1%N in *. lia.
  - rewrite !fraction_S in Heq. rewrite pow10_S in Hf, Hg.
    pose proof (pow10_pos k) as Hpos.
    destruct (N.eqb_spec f 0) as [->|Hf0], (N.eqb_spec g 0) as [->|Hg0];
      try done.
    injection Heq as Hd Hrest.
    apply pretty_N_char_inj in Hd;
      [|apply N.Div0.div_lt_upper_bound; lia..].
    apply IH in Hrest; [|apply N.mod_lt; lia..].
    rewrite (N.div_mod f (10 ^ N.of_nat k)), (N.div_mod g (10 ^ N.of_nat k))
      by lia.
    by rewrite Hd, Hrest.
Qed.

Lemma fraction_not_zero_text (h : N) :
  (h < 1000000)%N → h ≠ 0%N → fraction 6 h ≠ "0".
Proof.
  intros Hh Hh0 Heq. apply Hh0.
  change 6%nat with (S 5) in Heq. rewrite fraction_S in Heq.
  destruct (N.eqb_spec h 0) as [|_]; [done|].
  injection Heq as Hd Hrest.
  pose proof (pow10_pos 5) as Hpos.
  assert (h `mod` 10 ^ N.of_nat 5 = 0)%N as Hm.
  { apply (fraction_inj 5); [apply N.mod_lt; lia|done|].
    rewrite fraction_0. exact Hrest. }
  apply (pretty_N_char_inj _ 0) in Hd;
    [|apply N.Div0.div_lt_upper_bound;
      change (10 ^ N.of_nat 5)%N with 100000%N; lia|done].
  rewrite (N.div_mod h (10 ^ N.of_nat 5)) by lia.
  rewrite Hd, Hm. lia.
Qed.

Lemma fraction_text_inj (f g : N) :
  (f < 1000000)%N → (g < 1000000)%N →
  fraction_text f = fraction_text g → f = g.
Proof.
  intros Hf Hg. unfold fraction_text.
  destruct (N.eqb_spec f 0) as [->|Hf0], (N.eqb_spec g 0) as [->|Hg0]; try done.
  - intros Heq. symmetry in Heq. by destruct (fraction_not_zero_text g Hg Hg0).
  - intros Heq. by destruct (fraction_not_zero_text f Hf Hf0).
  - by apply (fraction_inj 6).
Qed.

Lemma timestamp_text_inj (a b : datetime) :
  timestamp_text a = timestamp_text b → posix_us a = posix_us b.
Proof.
  unfold timestamp_text. rewrite !append_cons, !append_nil. intros Heq.
  apply append_sep_inj in Heq as [Hint Hfrac];
    [|by apply occurs_pretty_N, dot_not_a_digit..].
  apply (inj pretty) in Hint.
  apply fraction_text_inj in Hfrac; [|by apply N.mod_lt..].
  rewrite (N.div_mod (posix_us a) 1000000), (N.div_mod (posix_us b) 1000000)
    by done.
  by rewrite Hint, Hfrac.
Qed.

Lemma weekday_range (now : datetime) : 0 ≤ weekday now < 7.
Proof. unfold weekday. apply Z.mod_pos_bound. lia. Qed.

Lemma weekday_name_inj (a b : datetime) :
  weekday_name a = weekday_name b → weekday a = weekday b.
Proof.
  unfold weekday_name.
  pose proof (weekday_range a) as Ha. pose proof (weekday_range b) as Hb.
  destruct (weekday a) as [|[[[]|[]|]|[[]|[]|]|]|]; try lia;
  destruct (weekday b) as [|[[[]|[]|]|[[]|[]|]|]|]; try lia; done.
Qed.

End cache_key_facts.

Example cache_key_example :
  CacheKey.generate_product_url_cache_key "product_url_cache"
    CacheKey.example_now CacheKey.example_now
  = "product_url_cache_1700000000.0_wednesday"%string.
Proof. vm_compute. reflexivity. Qed.

(** C8, as the code has it.  The key is a function of the two clock
    readings of an invocation and of nothing else.  For first readings
    between 1970-01-01T00:00:01Z and [2 ** 33] seconds after the epoch (the
    year 2242), whose timestamps Python prints to the microsecond, two
    invocations return the same key exactly when their first readings are
    the same microsecond and their second readings fall on the same day of
    the week: the key holds the whole timestamp, not a coarse bucket of
    it. *)
Theorem cache_key_equal_iff (PRODUCT_URL_CACHE_KEY : string)
    (a a' b b' : CacheKey.datetime) :
  CacheKey.exact_timestamp a → CacheKey.exact_timestamp b →
  (CacheKey.generate_product_url_cache_key PRODUCT_URL_CACHE_KEY a a'
   = CacheKey.generate_product_url_cache_key PRODUCT_URL_CACHE_KEY b b'
   ↔ CacheKey.posix_us a = CacheKey.posix_us b
     ∧ CacheKey.weekday a' = CacheKey.weekday b').
Proof.
  intros _ _.
  unfold CacheKey.generate_product_url_cache_key. split.
  - intros Heq. apply (inj (String.append _)) in Heq.
    rewrite !append_cons, !append_nil in Heq. injection Heq as Heq.
    apply append_sep_inj in Heq as [Hts Hwd];
      [|apply occurs_timestamp_text..].
    split; [by apply timestamp_text_inj|by apply weekday_name_inj].
  - intros [Hus Hwd].
    unfold CacheKey.timestamp_text, CacheKey.weekday_name.
    by rewrite Hus, Hwd.
Qed.

Lemma cache_key_equal_iff_witness :
  CacheKey.generate_product_url_cache_key "product_url_cache"
    CacheKey.example_now CacheKey.example_now
  = CacheKey.generate_product_url_cache_key "product_url_cache"
      CacheKey.example_later CacheKey.example_later
  ↔ CacheKey.posix_us CacheKey.example_now
    = CacheKey.posix_us CacheKey.example_later
    ∧ CacheKey.weekday CacheKey.example_now
      = CacheKey.weekday CacheKey.example_later.
Proof.
  apply (cache_key_equal_iff "product_url_cache" CacheKey.example_now
           CacheKey.example_now CacheKey.example_later CacheKey.example_later).
  - unfold CacheKey.exact_timestamp. simpl. lia.
  - unfold CacheKey.exact_timestamp. simpl. lia.
Defined.

(** C8 as stated fails: two invocations one second apart, on the same
    local date, return different keys. *)
Lemma cache_key_differs_within_period :
  CacheKey.same_rotation_period CacheKey.example_now CacheKey.example_later
  ∧ CacheKey.generate_product_url_cache_key "product_url_cache"
      CacheKey.example_now CacheKey.example_now
    ≠ CacheKey.generate_product_url_cache_key "product_url_cache"
        CacheKey.example_later CacheKey.example_later.
Proof.
  split.
  - split; vm_compute; reflexivity.
  - vm_compute. discriminate.
Qed.

(** Every key the function makes is one the default pattern of
    [is_url_cached] accepts. *)
Lemma cache_key_matches_prefix (PRODUCT_URL_CACHE_KEY : string)
    (now now' : CacheKey.datetime) :
  Redis.prefix_pattern PRODUCT_URL_CACHE_KEY
    (CacheKey.generate_product_url_cache_key PRODUCT_URL_CACHE_KEY now now')
  = true.
Proof.
  unfold Redis.prefix_pattern, CacheKey.generate_product_url_cache_key.
  generalize ("_" +:+ CacheKey.timestamp_text now +:+ "_"
              +:+ CacheKey.weekday_name now')%string as rest.
  intros rest. induction PRODUCT_URL_CACHE_KEY as [|c p IH]; [by destruct rest|].
  rewrite append_cons. simpl. rewrite IH. by destruct (ascii_dec c c).
Qed.

(** ** The crawl session *)

Section session_facts.
Import Session.
Context {F : Type} `{EqDecision F}.
Variable py_float : string → outcome F.
Variable py_int : F → outcome Z.
Context {B : Type} `{Chrome B}.
Variable PRODUCT_DETAILS : Websites → list (string * list string).
Variable PRODUCT_CARDS PRODUCT_CONTAINER NEXT_BUTTON : Websites → string.
Variable REQUIRED_PRODUCT_KEYS : list string.
Variable PRICE_LIMITS : list (string * Z).
Variable MAX_PRODUCTS_PER_WEBSITE : Z.
Variables AMAZON_AFFILIATE_ID FLIPKART_AFFILIATE_ID MYNTRA_AFFILIATE_ID : string.
Variable predict_deal : gmap string (value F) → outcome string.
Variable now : Z.

Abbreviation Product := (gmap string (value F)).
Abbreviation Self := (SeleniumHelper F B).

Abbreviation fetch_product_container :=
  (fetch_product_container PRODUCT_CARDS PRODUCT_CONTAINER).
Abbreviation extract_products_by_website :=
  (extract_products_by_website py_float py_int PRODUCT_DETAILS PRODUCT_CARDS
     PRODUCT_CONTAINER REQUIRED_PRODUCT_KEYS PRICE_LIMITS AMAZON_AFFILIATE_ID
     FLIPKART_AFFILIATE_ID MYNTRA_AFFILIATE_ID predict_deal now).
Abbreviation get_products_turn :=
  (get_products_turn py_float py_int PRODUCT_DETAILS PRODUCT_CARDS
     PRODUCT_CONTAINER NEXT_BUTTON REQUIRED_PRODUCT_KEYS PRICE_LIMITS
     AMAZON_AFFILIATE_ID FLIPKART_AFFILIATE_ID MYNTRA_AFFILIATE_ID
     predict_deal now).
Abbreviation get_products_loop :=
  (get_products_loop py_float py_int PRODUCT_DETAILS PRODUCT_CARDS
     PRODUCT_CONTAINER NEXT_BUTTON REQUIRED_PRODUCT_KEYS PRICE_LIMITS
     MAX_PRODUCTS_PER_WEBSITE AMAZON_AFFILIATE_ID FLIPKART_AFFILIATE_ID
     MYNTRA_AFFILIATE_ID predict_deal now).
Abbreviation get_products :=
  (get_products py_float py_int PRODUCT_DETAILS PRODUCT_CARDS
     PRODUCT_CONTAINER NEXT_BUTTON REQUIRED_PRODUCT_KEYS PRICE_LIMITS
     MAX_PRODUCTS_PER_WEBSITE AMAZON_AFFILIATE_ID FLIPKART_AFFILIATE_ID
     MYNTRA_AFFILIATE_ID predict_deal now).

(** The retry wrapper swallows what the body raises. *)
Lemma fetch_product_container_returns (url type : string) (self : Self) :
  ∃ container self',
    fetch_product_container url type self = (Ok container, self').
Proof.
  unfold Session.fetch_product_container.
  destruct (Retry.wrapper _ 3 self) as [[r self'] tr]. by eexists _, _.
Qed.

(** A turn of the loop of [get_products]: without a container it leaves
    the loop with the products it was given; with one, it raises, from the
    extraction or else from the call of [has_next_page]. *)
Lemma get_products_turn_outcome (url : string) (products : list Product)
    (self : Self) :
  match fetch_product_container url "container" self with
  | (Ok None, self') =>
      get_products_turn url products self = (Ok (Break products), self')
  | (Ok (Some main_container), self') =>
      ∃ e self'', get_products_turn url products self = (Raise e, self'')
  | (Raise _, _) => False
  end.
Proof.
  unfold Session.get_products_turn, bind.
  destruct (fetch_product_container_returns url "container" self)
    as (container & self' & ->).
  destruct container as [main_container|]; [|done].
  destruct (extract_products_by_website main_container self')
    as [[extracted|e] self''].
  - by eexists _, _.
  - by eexists _, _.
Qed.

(** The loop makes one turn at most. *)
Lemma get_products_loop_one_turn (fuel : nat) (url : string)
    (products : list Product) (self : Self) :
  get_products_loop (S fuel) url products self
  = if (Z.of_nat (length products) >=? MAX_PRODUCTS_PER_WEBSITE)%Z then
      match get_products_turn url products self with
      | (Ok (Break products), self) => (Done (Ok products), self)
      | (Ok (Next products), self) => (OutOfFuel, self)
      | (Raise e, self) =>
          (Done (Raise (Exception
             ("Error occurred while getting products: " +:+ exn_str e))),
           self)
      end
    else (Done (Ok products), self).
Proof.
  simpl. destruct (_ >=? _)%Z; [|done].
  pose proof (get_products_turn_outcome url products self) as Hturn.
  destruct (fetch_product_container url "container" self)
    as [[[mc|]|e] self']; [| |done].
  - destruct Hturn as (e & self'' & ->). done.
  - by rewrite Hturn.
Qed.

(** *** What a method leaves of [self] *)

Abbreviation M := (M (F:=F) (B:=B)).
Abbreviation preserves := (preserves (F:=F) (B:=B)).
Abbreviation same_session := (same_session (F:=F) (B:=B)).
Abbreviation only_logged := (only_logged (F:=F) (B:=B)).
Abbreviation only_browser := (only_browser (F:=F) (B:=B)).
Abbreviation on_driver := (on_driver (F:=F) (B:=B)).
Abbreviation log := (log (F:=F) (B:=B)).

#[local] Instance same_session_refl : Reflexive same_session.
Proof. by intros self. Qed.

#[local] Instance same_session_trans : Transitive same_session.
Proof.
  intros s1 s2 s3 (?&?&?&?&?&?) (?&?&?&?&?&?).
  repeat split; congruence.
Qed.

#[local] Instance only_browser_refl : Reflexive only_browser.
Proof. by intros self. Qed.

#[local] Instance only_browser_trans : Transitive only_browser.
Proof.
  intros s1 s2 s3 [H12 Hlog12] [H23 Hlog23].
  split; [by etrans|congruence].
Qed.

Lemma logged_nil (self : Self) : logged [] self = self.
Proof. destruct self. unfold logged. simpl. by rewrite app_nil_r. Qed.

Lemma logged_logged (evs1 evs2 : list (gate_event F)) (self : Self) :
  logged evs2 (logged evs1 self) = logged (evs1 ++ evs2) self.
Proof. unfold logged. simpl. by rewrite app_assoc. Qed.

#[local] Instance only_logged_refl : Reflexive only_logged.
Proof. intros self. exists []. by rewrite logged_nil. Qed.

#[local] Instance only_logged_trans : Transitive only_logged.
Proof.
  intros s1 s2 s3 (evs1 & -> & H1) (evs2 & -> & H2).
  exists (evs1 ++ evs2). split; [by rewrite logged_logged|].
  by apply Forall_app.
Qed.

Lemma only_logged_same_session (self self' : Self) :
  only_logged self self' → same_session self self' ∧ driver self' = driver self.
Proof. by intros (evs & -> & _). Qed.

Section preserves.
Variable R : Self → Self → Prop.
Context `{!Reflexive R, !Transitive R}.

Lemma preserves_ret {A} (a : A) : preserves R (ret a).
Proof. by intros self. Qed.

Lemma preserves_raise {A} (e : exn) : preserves R (raise (A:=A) e).
Proof. by intros self. Qed.

Lemma preserves_lift {A} (o : outcome A) : preserves R (lift o).
Proof. by intros self. Qed.

Lemma preserves_gets {A} (f : Self → A) : preserves R (gets f).
Proof. by intros self. Qed.

Lemma preserves_bind {A C} (m : M A) (k : A → M C) :
  preserves R m → (∀ a, preserves R (k a)) → preserves R (bind m k).
Proof.
  intros Hm Hk self. unfold bind. specialize (Hm self).
  destruct (m self) as [[a|e] self1]; simpl in *; [|done].
  etrans; [done|]. apply Hk.
Qed.

Lemma preserves_by_website {V} (table : Websites → V) :
  preserves R (by_website table).
Proof. intros self. unfold by_website. by destruct (website_name self). Qed.

Lemma preserves_getattr (tag : option Soup) (name : string) :
  preserves R (getattr tag name).
Proof. by destruct tag. Qed.

Lemma preserves_text_of (tag : option Soup) : preserves R (text_of tag).
Proof. by destruct tag. Qed.

Lemma preserves_format_data (selector : string) (data : option string) :
  preserves R (format_data py_float py_int AMAZON_AFFILIATE_ID
                 FLIPKART_AFFILIATE_ID MYNTRA_AFFILIATE_ID selector data).
Proof. by intros self. Qed.

Lemma preserves_get_current_page : preserves R get_current_page.
Proof. intros self. unfold get_current_page. by destruct (current_page self). Qed.

End preserves.

Lemma only_logged_log (ev : gate_event F) :
  gate_only ev → preserves only_logged (log ev).
Proof. intros Hev self. exists [ev]. split; [done|]. by constructor. Qed.

Lemma only_browser_on_driver {A} (call : B → outcome A * B) :
  preserves only_browser (on_driver call).
Proof. intros self. unfold on_driver. by destruct (call (driver self)). Qed.

(** *** [is_product_valid] *)

Abbreviation format_extracted_data :=
  (format_extracted_data py_float py_int AMAZON_AFFILIATE_ID
     FLIPKART_AFFILIATE_ID MYNTRA_AFFILIATE_ID).
Abbreviation is_product_valid :=
  (is_product_valid (B:=B) py_float py_int PRICE_LIMITS AMAZON_AFFILIATE_ID
     FLIPKART_AFFILIATE_ID MYNTRA_AFFILIATE_ID now).
Abbreviation within_price_limit := (within_price_limit (F:=F) (B:=B) PRICE_LIMITS).
Abbreviation cache_is_member := (cache_is_member (F:=F) (B:=B) now).

Lemma only_logged_within_price_limit (product_price : value F) :
  preserves only_logged (within_price_limit product_price).
Proof.
  intros self. unfold Session.within_price_limit.
  destruct (match category self with Some c => assoc PRICE_LIMITS c | None => None end);
    [|done].
  destruct product_price; try done.
  apply (preserves_bind only_logged); [by apply only_logged_log|].
  intros _. apply preserves_ret. apply _.
Qed.

Lemma only_logged_cache_is_member (product_url : value F) :
  preserves only_logged (cache_is_member product_url).
Proof.
  intros self. unfold Session.cache_is_member.
  apply (preserves_bind only_logged); [by apply only_logged_log|].
  intros _. apply preserves_ret. apply _.
Qed.

Lemma only_logged_is_product_valid (price url : option Soup) :
  preserves only_logged (is_product_valid price url).
Proof.
  unfold Session.is_product_valid.
  destruct price as [price|], url as [url|];
    try (apply preserves_ret; apply _).
  apply preserves_bind; [apply _|apply preserves_getattr; apply _|]. intros href.
  apply preserves_bind; [apply _|apply preserves_format_data; apply _|].
  intros product_price.
  apply preserves_bind; [apply _|apply preserves_format_data; apply _|].
  intros product_url.
  apply preserves_bind; [apply _|apply preserves_gets; apply _|]. intros urls.
  case_bool_decide; [apply preserves_ret; apply _|].
  apply preserves_bind; [apply _|apply only_logged_within_price_limit|].
  intros [|]; [|apply preserves_ret; apply _].
  apply preserves_bind; [apply _|apply only_logged_cache_is_member|].
  intros [[|]|]; apply preserves_ret; apply _.
Qed.

(** A card is found valid only with a link whose URL, as the site's rule
    rewrites it, is not yet among the URLs of the session. *)
Lemma is_product_valid_true (price url : option Soup) (self self' : Self) :
  is_product_valid price url self = (Ok true, self') →
  ∃ tag href u,
    url = Some tag ∧ getitem (attrs tag) "href" = Ok href
    ∧ format_extracted_data (website_name self) "product_url" (Some href) = Ok u
    ∧ u ∉ product_urls self.
Proof.
  unfold Session.is_product_valid.
  destruct price as [price|], url as [tag|]; try done.
  unfold bind, getattr, lift, format_data, gets.
  destruct (getitem (attrs tag) "href") as [href|e] eqn:Hhref; [|done].
  destruct (format_extracted_data (website_name self) "product_price" _)
    as [pp|e]; [|done].
  destruct (format_extracted_data (website_name self) "product_url" _)
    as [u|e] eqn:Hu; [|done].
  case_bool_decide as Hin; [done|].
  intros _. by exists tag, href, u.
Qed.

(** *** The fetch of a page and the page of a FLIPKART product *)

Abbreviation fetch_product_container_body :=
  (fetch_product_container_body (F:=F) PRODUCT_CARDS PRODUCT_CONTAINER).
Abbreviation get_flipkart_data :=
  (get_flipkart_data (F:=F) PRODUCT_CARDS PRODUCT_CONTAINER).

Lemma only_browser_fetch_body (url type : string) :
  preserves only_browser (fetch_product_container_body url type).
Proof.
  unfold Session.fetch_product_container_body.
  apply preserves_bind; [apply _|apply preserves_get_current_page; apply _|].
  intros cp. apply preserves_bind; [apply _| |].
  { destruct (_ || _); [apply only_browser_on_driver|apply preserves_ret; apply _]. }
  intros _. apply preserves_bind; [apply _|apply preserves_by_website; apply _|].
  intros container.
  apply preserves_bind; [apply _|apply preserves_by_website; apply _|].
  intros cards. apply preserves_bind; [apply _|apply only_browser_on_driver|].
  intros _. apply preserves_bind; [apply _|apply preserves_gets; apply _|].
  intros [soup|]; [|apply preserves_raise; apply _].
  apply preserves_bind; [apply _|apply preserves_by_website; apply _|].
  intros c. apply preserves_ret. apply _.
Qed.

Lemma only_browser_fetch (url type : string) :
  preserves only_browser (fetch_product_container url type).
Proof.
  intros self. unfold Session.fetch_product_container, Retry.wrapper.
  pose proof (wrapper_loop_preserves (fetch_product_container_body url type)
                only_browser 3 (seqZ 0 3) self
                (only_browser_fetch_body url type)) as Hw.
  by destruct (Retry.wrapper_loop _ 3 (seqZ 0 3) self) as [[r self'] tr].
Qed.

Lemma only_browser_get_flipkart_data (url : option Soup) :
  preserves only_browser (get_flipkart_data url).
Proof.
  unfold Session.get_flipkart_data.
  apply preserves_bind; [apply _|apply preserves_gets; apply _|].
  intros w. destruct (_ || _); [apply preserves_ret; apply _|].
  apply preserves_bind; [apply _|apply preserves_getattr; apply _|].
  intros href. apply only_browser_fetch.
Qed.

(** Only on FLIPKART does [get_flipkart_data] return a page. *)
Lemma get_flipkart_data_Some (url : option Soup) (self self' : Self)
    (soup : Soup) :
  get_flipkart_data url self = (Ok (Some soup), self') →
  website_name self = Some FLIPKART.
Proof.
  unfold Session.get_flipkart_data, bind, gets.
  destruct (bool_decide (website_name self ≠ Some FLIPKART)) eqn:Hw; [done|].
  intros _. apply bool_decide_eq_false in Hw.
  by destruct (decide (website_name self = Some FLIPKART)).
Qed.

Lemma get_flipkart_data_outside_flipkart (url : option Soup) (self : Self) :
  website_name self ≠ Some FLIPKART →
  get_flipkart_data url self = (Ok None, self).
Proof.
  intros Hw. unfold Session.get_flipkart_data, bind, gets.
  by rewrite bool_decide_eq_true_2.
Qed.

(** *** The fields of a product *)

Abbreviation extract_field :=
  (extract_field (B:=B) py_float py_int AMAZON_AFFILIATE_ID
     FLIPKART_AFFILIATE_ID MYNTRA_AFFILIATE_ID).
Abbreviation extract_fields :=
  (extract_fields (B:=B) py_float py_int AMAZON_AFFILIATE_ID
     FLIPKART_AFFILIATE_ID MYNTRA_AFFILIATE_ID).

Lemma extract_field_pure (product_soup flipkart_product_soup : Soup)
    (product_url : option Soup) (product_details : Product)
    (item : string * list string) :
  preserves eq
    (extract_field product_soup flipkart_product_soup product_url
       product_details item).
Proof.
  destruct item as [key selectors]. unfold Session.extract_field.
  apply preserves_bind; [apply _|apply preserves_gets; apply _|].
  intros w. destruct (_ && _); [apply preserves_ret; apply _|].
  destruct (is_price_key key).
  { apply preserves_bind; [apply _|apply preserves_text_of; apply _|].
    intros t. apply preserves_bind; [apply _|apply preserves_format_data; apply _|].
    intros v. apply preserves_ret. apply _. }
  destruct (String.eqb key "product_image").
  { apply preserves_bind; [apply _|apply preserves_getattr; apply _|].
    intros t. apply preserves_ret. apply _. }
  destruct (String.eqb key "product_rating").
  { apply preserves_bind; [apply _|apply preserves_text_of; apply _|].
    intros t. apply preserves_bind; [apply _|apply preserves_format_data; apply _|].
    intros v. apply preserves_ret. apply _. }
  destruct (String.eqb key "product_url").
  { apply preserves_bind; [apply _|apply preserves_getattr; apply _|].
    intros t. apply preserves_bind; [apply _|apply preserves_format_data; apply _|].
    intros v. apply preserves_ret. apply _. }
  apply preserves_bind; [apply _|apply preserves_text_of; apply _|].
  intros t. apply preserves_ret. apply _.
Qed.

(** A key other than ["product_url"] leaves the URL of the product alone. *)
Lemma extract_field_other_key (product_soup flipkart_product_soup : Soup)
    (product_url : option Soup) (d d' : Product) (key : string)
    (selectors : list string) (self self' : Self) :
  key ≠ "product_url"%string →
  extract_field product_soup flipkart_product_soup product_url d
    (key, selectors) self = (Ok d', self') →
  d' !! "product_url"%string = d !! "product_url"%string.
Proof.
  intros Hkey. unfold Session.extract_field, bind, gets, ret.
  destruct (_ && _); [by intros [= <- _]|].
  assert (∀ v, <[key:=v]> d !! "product_url"%string = d !! "product_url"%string)
    as Hother by (intros v; by apply lookup_insert_ne).
  destruct (is_price_key key).
  { destruct (text_of _ self) as [[t|e] s1]; [|done].
    destruct (format_data _ _ _ _ _ _ _ s1) as [[v|e] s2]; [|done].
    by intros [= <- _]. }
  destruct (String.eqb key "product_image").
  { destruct (getattr _ _ self) as [[t|e] s1]; [|done]. by intros [= <- _]. }
  destruct (String.eqb key "product_rating").
  { destruct (text_of _ self) as [[t|e] s1]; [|done].
    destruct (format_data _ _ _ _ _ _ _ s1) as [[v|e] s2]; [|done].
    by intros [= <- _]. }
  destruct (String.eqb_spec key "product_url"); [done|].
  destruct (text_of _ self) as [[t|e] s1]; [|done]. by intros [= <- _].
Qed.

(** On FLIPKART the key ["product_url"] gets the URL of the link of the
    card, as the rule of the site rewrites it. *)
Lemma extract_field_url (product_soup flipkart_product_soup tag : Soup)
    (d d' : Product) (selectors : list string) (self self' : Self)
    (href : string) (u : value F) :
  website_name self = Some FLIPKART →
  getitem (attrs tag) "href" = Ok href →
  format_extracted_data (Some FLIPKART) "product_url" (Some href) = Ok u →
  extract_field product_soup flipkart_product_soup (Some tag) d
    ("product_url"%string, selectors) self = (Ok d', self') →
  d' !! "product_url"%string = Some u.
Proof.
  intros Hw Hhref Hu. unfold Session.extract_field, bind, gets, ret.
  rewrite Hw. rewrite bool_decide_eq_true_2 by done.
  change (String.eqb "product_url" "product_url") with true.
  rewrite andb_false_r.
  change (is_price_key "product_url") with false.
  change (String.eqb "product_url" "product_image") with false.
  change (String.eqb "product_url" "product_rating") with false.
  cbv iota. unfold getattr, lift, format_data. rewrite Hhref, Hw, Hu.
  intros [= <- _]. apply lookup_insert_eq.
Qed.

Lemma extract_fields_cons (product_soup flipkart_product_soup : Soup)
    (product_url : option Soup) (item : string * list string)
    (items : list (string * list string)) (d : Product) :
  extract_fields product_soup flipkart_product_soup product_url
    (item :: items) d
  = bind (extract_field product_soup flipkart_product_soup product_url d item)
      (extract_fields product_soup flipkart_product_soup product_url items).
Proof. reflexivity. Qed.

Lemma extract_fields_pure (product_soup flipkart_product_soup : Soup)
    (product_url : option Soup) (items : list (string * list string))
    (d : Product) :
  preserves eq
    (extract_fields product_soup flipkart_product_soup product_url items d).
Proof.
  revert d. induction items as [|item items IH]; intros d.
  - apply preserves_ret. apply _.
  - rewrite extract_fields_cons.
    apply preserves_bind; [apply _|apply extract_field_pure|]. apply IH.
Qed.

Lemma extract_fields_url (product_soup flipkart_product_soup tag : Soup)
    (items : list (string * list string)) (d d' : Product)
    (self self' : Self) (href : string) (u : value F) :
  website_name self = Some FLIPKART →
  getitem (attrs tag) "href" = Ok href →
  format_extracted_data (Some FLIPKART) "product_url" (Some href) = Ok u →
  extract_fields product_soup flipkart_product_soup (Some tag) items d self
  = (Ok d', self') →
  is_Some (assoc items "product_url") ∨ d !! "product_url"%string = Some u →
  d' !! "product_url"%string = Some u.
Proof.
  intros Hw Hhref Hu. revert d.
  induction items as [|[key selectors] items IH]; intros d.
  - intros [= <- _] [[? [=]]|Hd]. done.
  - rewrite extract_fields_cons. unfold bind.
    pose proof (extract_field_pure product_soup flipkart_product_soup
                  (Some tag) d (key, selectors) self) as Hpure.
    destruct (extract_field product_soup flipkart_product_soup (Some tag) d
                (key, selectors) self) as [[d1|e] self1] eqn:Hfield; [|done].
    simpl in Hpure. subst self1. intros Hrest Hkey.
    apply (IH d1 Hrest).
    destruct (String.eqb_spec key "product_url") as [->|Hne].
    + right. by eapply extract_field_url.
    + destruct Hkey as [Hkey|Hd].
      * left. simpl in Hkey. by destruct (String.eqb_spec key "product_url").
      * right. erewrite extract_field_other_key; done.
Qed.

(** *** The cards of a page *)

Abbreviation extract_card :=
  (extract_card py_float py_int PRODUCT_DETAILS PRODUCT_CARDS
     PRODUCT_CONTAINER REQUIRED_PRODUCT_KEYS PRICE_LIMITS AMAZON_AFFILIATE_ID
     FLIPKART_AFFILIATE_ID MYNTRA_AFFILIATE_ID predict_deal now).
Abbreviation extract_cards :=
  (extract_cards py_float py_int PRODUCT_DETAILS PRODUCT_CARDS
     PRODUCT_CONTAINER REQUIRED_PRODUCT_KEYS PRICE_LIMITS AMAZON_AFFILIATE_ID
     FLIPKART_AFFILIATE_ID MYNTRA_AFFILIATE_ID predict_deal now).

(** On a site other than FLIPKART the turn for a card appends nothing: the
    card is skipped after [get_flipkart_data], before the classifier. *)
Lemma extract_card_outside_flipkart (product_soup : Soup) (self : Self) :
  website_name self ≠ Some FLIPKART →
  only_logged self (extract_card product_soup self).2
  ∧ ((extract_card product_soup self).1 = Ok None
     ∨ is_raise (extract_card product_soup self).1 = true).
Proof.
  intros Hw. unfold Session.extract_card, bind, by_website, lift.
  destruct (website_name self) as [w|] eqn:Hname; [|by split; [|right]].
  destruct (getitem (PRODUCT_DETAILS w) "product_url") as [url_selectors|e];
    [|by split; [|right]].
  rewrite Hname.
  destruct (getitem (PRODUCT_DETAILS w) "product_price") as [price_selectors|e];
    [|by split; [|right]].
  set (product_url := select_one product_soup (Str.join " ," url_selectors)).
  set (product_price := select_one product_soup (Str.join " ," price_selectors)).
  pose proof (only_logged_is_product_valid product_price product_url self)
    as Hlogged.
  destruct (is_product_valid product_price product_url self)
    as [[valid|e] self1]; simpl in Hlogged; [|by split; [|right]].
  destruct valid; simpl; [|by split; [|left]].
  rewrite get_flipkart_data_outside_flipkart.
  - by split; [|left].
  - destruct Hlogged as (evs & -> & _). simpl. by rewrite Hname.
Qed.

Lemma extract_cards_outside_flipkart (product_cards : list Soup)
    (products : list Product) (self : Self) :
  website_name self ≠ Some FLIPKART →
  only_logged self (extract_cards product_cards products self).2
  ∧ (∀ out, (extract_cards product_cards products self).1 = Ok out →
            out = products).
Proof.
  revert products self.
  induction product_cards as [|product_soup product_cards IH];
    intros products self Hw.
  - simpl. split; [done|]. by intros out [= <-].
  - simpl. unfold bind.
    destruct (extract_card_outside_flipkart product_soup self Hw)
      as [Hlogged Hnone].
    destruct (extract_card product_soup self) as [[accepted|e] self1];
      simpl in *; [|by split].
    destruct Hnone as [[= ->]|?]; [|done].
    assert (website_name self1 ≠ Some FLIPKART) as Hw1.
    { destruct Hlogged as (evs & -> & _). done. }
    destruct (IH products self1 Hw1) as [Hlogged1 Hout].
    split; [by etrans|done].
Qed.

(** The turn for a card either leaves the URLs of the session as they
    are, or accepts a product whose URL is new to them and appends it. *)
Lemma extract_card_urls (product_soup : Soup) (self self' : Self)
    (accepted : option Product) :
  extract_card product_soup self = (Ok accepted, self') →
  website_name self' = website_name self
  ∧ match accepted with
    | None => product_urls self' = product_urls self
    | Some product_details =>
        ∃ u, product_details !! "product_url"%string = Some u
             ∧ (u ∉ product_urls self)
             ∧ product_urls self' = product_urls self ++ [u]
    end.
Proof.
  unfold Session.extract_card, bind, by_website, lift, ret.
  destruct (website_name self) as [w|] eqn:Hname; [|done].
  destruct (getitem (PRODUCT_DETAILS w) "product_url") as [url_selectors|e]
    eqn:Hsel; [|done].
  rewrite Hname.
  destruct (getitem (PRODUCT_DETAILS w) "product_price") as [price_selectors|e];
    [|done].
  generalize (select_one product_soup (Str.join " ," url_selectors)).
  generalize (select_one product_soup (Str.join " ," price_selectors)).
  intros product_price product_url.
  pose proof (only_logged_is_product_valid product_price product_url self)
    as Hlogged.
  destruct (is_product_valid product_price product_url self)
    as [[valid|e] self1] eqn:Hvalid; [|done].
  simpl in Hlogged.
  apply only_logged_same_session in Hlogged as [(_&Hw1&_&_&Hurls1&_) _].
  destruct valid; simpl; [|intros [= <- <-]; split; congruence].
  pose proof (only_browser_get_flipkart_data product_url self1) as Hsame2.
  destruct (get_flipkart_data product_url self1) as [[[fps|]|e] self2]
    eqn:Hflipkart; simpl in Hsame2; [| |done].
  2: { destruct Hsame2 as [(_&Hw2&_&_&Hurls2&_) _]. intros [= <- <-].
       split; congruence. }
  destruct Hsame2 as [(_&Hw2&_&_&Hurls2&_) _].
  apply get_flipkart_data_Some in Hflipkart.
  assert (w = FLIPKART) as -> by congruence.
  rewrite Hw2, Hflipkart.
  pose proof (extract_fields_pure product_soup fps product_url
                (PRODUCT_DETAILS FLIPKART) ∅ self2) as Hpure.
  destruct (extract_fields product_soup fps product_url
              (PRODUCT_DETAILS FLIPKART) ∅ self2) as [[d|e] self3]
    eqn:Hfields; [|done].
  simpl in Hpure. subst self3.
  destruct (lacks_required REQUIRED_PRODUCT_KEYS d).
  { intros [= <- <-]. split; congruence. }
  unfold classify, bind, lift, log, modify, ret.
  destruct (predict_deal d) as [verdict|e]; [|done].
  destruct (String.eqb verdict "Best Deal").
  2: { intros [= <- <-]. simpl. split; congruence. }
  apply is_product_valid_true in Hvalid
    as (tag & href & u & -> & Hhref & Hu & Hnew).
  unfold getattr, lift, format_data. rewrite Hhref. cbv beta iota.
  change (website_name (logged [Classified d verdict] self2))
    with (website_name self2).
  rewrite Hw2, Hflipkart. rewrite Hname in Hu.
  assert (match short_url_with_affiliate_code AMAZON_AFFILIATE_ID
                  FLIPKART_AFFILIATE_ID MYNTRA_AFFILIATE_ID (Some FLIPKART)
                  href with
          | Ok (Some url) => Ok (VStr url)
          | Ok None => Ok VNone
          | Raise e => Raise e
          end = Ok u) as -> by exact Hu.
  intros [= <- <-]. simpl. split; [congruence|].
  exists u. split; [|split; [done|congruence]].
  eapply extract_fields_url; [| | |exact Hfields|]; try done.
  - congruence.
  - left. unfold getitem in Hsel.
    destruct (assoc (PRODUCT_DETAILS FLIPKART) "product_url"); [by eexists|done].
Qed.

Lemma extract_cards_cons (product_soup : Soup) (product_cards : list Soup)
    (products : list Product) :
  extract_cards (product_soup :: product_cards) products
  = bind (extract_card product_soup) (λ accepted,
      extract_cards product_cards
        (match accepted with
         | Some product_details => products ++ [product_details]
         | None => products
         end)).
Proof. reflexivity. Qed.

(** The URLs of the session grow by the URLs of the products a page adds,
    in order, and stay without repetition. *)
Lemma extract_cards_urls (product_cards : list Soup) (products out : list Product)
    (self self' : Self) :
  extract_cards product_cards products self = (Ok out, self') →
  ∃ new, out = products ++ new
         ∧ product_urls self' = product_urls self ++ (url_of <$> new)
         ∧ (NoDup (product_urls self) → NoDup (product_urls self')).
Proof.
  revert products self.
  induction product_cards as [|product_soup product_cards IH];
    intros products self.
  - intros [= <- <-]. exists []. by rewrite !app_nil_r.
  - rewrite extract_cards_cons. unfold bind.
    destruct (extract_card product_soup self) as [[accepted|e] self1] eqn:Hcard;
      [|done].
    apply extract_card_urls in Hcard as [_ Haccepted].
    intros (new & -> & Hurls & Hnodup)%IH.
    destruct accepted as [d|].
    + destruct Haccepted as (u & Hd & Hnew & Hurls1).
      exists (d :: new). split; [by rewrite <- app_assoc|].
      assert (url_of d = u) as Hu by (unfold url_of; by rewrite Hd).
      split.
      * rewrite Hurls, Hurls1, fmap_cons, Hu. by rewrite <- app_assoc.
      * intros Hself. apply Hnodup. rewrite Hurls1.
        apply NoDup_app. split; [done|]. split; [|apply NoDup_singleton].
        intros x Hx ->%list_elem_of_singleton. done.
    + exists new. split; [done|]. split; [by rewrite Hurls, Haccepted|].
      intros Hself. apply Hnodup. by rewrite Haccepted.
Qed.

(** Whenever [get_products] returns, it returns the empty list. *)
Lemma get_products_returns_nothing (fuel : nat) (website : Websites)
    (category url : string) (self self' : Self) (products : list Product) :
  get_products fuel website category url self = (Done (Ok products), self') →
  products = [].
Proof.
  unfold Session.get_products.
  set (start := MkHelper _ _ _ _ _ _ _ _).
  destruct fuel as [|fuel].
  - simpl. by destruct (_ >=? _)%Z; intros [= <-].
  - rewrite get_products_loop_one_turn.
    destruct (_ >=? _)%Z; [|by intros [= <-]].
    pose proof (get_products_turn_outcome url [] start) as Hturn.
    destruct (fetch_product_container url "container" start)
      as [[[mc|]|e] self1]; [| |done].
    + destruct Hturn as (e & self'' & ->). done.
    + rewrite Hturn. by intros [= <-].
Qed.

(** C9.  While a page is processed the URLs of the session stay pairwise
    distinct: from a helper whose [product_urls] has no repetition,
    [extract_products_by_website] appends to it the URL of each product it
    accepts, in order, and the list has no repetition afterwards, so that
    the URLs of the accepted products differ from one another and from the
    URLs accepted before in the session; a card whose URL, as the rule of
    the site rewrites it, is already in [product_urls] is not valid; and the
    products [get_products] returns have pairwise distinct URLs. *)
Theorem session_urls_pairwise_distinct (main_container : Soup)
    (self self' : Self) (products : list Product) :
  NoDup (product_urls self) →
  extract_products_by_website main_container self = (Ok products, self') →
  product_urls self' = product_urls self ++ (url_of <$> products)
  ∧ NoDup (product_urls self')
  ∧ NoDup (url_of <$> products)
  ∧ (∀ product, product ∈ products → url_of product ∉ product_urls self)
  ∧ (∀ price url tag href u r self1,
       url = Some tag → getitem (attrs tag) "href" = Ok href →
       format_extracted_data (website_name self) "product_url" (Some href)
       = Ok u →
       u ∈ product_urls self →
       is_product_valid price url self = (r, self1) → r ≠ Ok true)
  ∧ (∀ fuel website category url start final returned,
       get_products fuel website category url start
       = (Done (Ok returned), final) →
       NoDup (url_of <$> returned)).
Proof.
  intros Hnodup Hextract.
  assert (product_urls self' = product_urls self ++ (url_of <$> products)
          ∧ NoDup (product_urls self')) as [Hurls Hnodup'].
  { revert Hextract.
    unfold Session.extract_products_by_website, bind, by_website.
    destruct (website_name self) as [w|]; [|done].
    destruct (select main_container (PRODUCT_CARDS w)) as [|card cards].
    - intros [= <- <-]. by rewrite app_nil_r.
    - intros (new & -> & Hurls & Hnd)%extract_cards_urls. auto. }
  split; [done|]. split; [done|].
  rewrite Hurls in Hnodup'. apply NoDup_app in Hnodup' as (_ & Hdisjoint & Hnew).
  split; [done|]. split.
  { intros product Hin Hold. apply (Hdisjoint _ Hold).
    apply list_elem_of_fmap. by exists product. }
  split.
  - intros price url tag href u r self1 -> Hhref Hu Hin Hvalid ->.
    apply is_product_valid_true in Hvalid
      as (tag' & href' & u' & [= <-] & Hhref' & Hu' & Hnew').
    congruence.
  - intros fuel website category url start final returned Hget.
    apply get_products_returns_nothing in Hget as ->. constructor.
Qed.

(** The checks [is_product_valid] makes, in order: the price, and the
    cache only for a price within the limit. *)
Lemma is_product_valid_gate (price url : option Soup) (self self' : Self)
    (valid : bool) :
  is_product_valid price url self = (Ok valid, self') →
  (valid = false ∧ self' = self)
  ∨ (∃ p limit,
       valid = false ∧ limit < p
       ∧ self' = logged [PriceChecked p limit false] self)
  ∨ (∃ p limit u answer,
       p ≤ limit ∧ valid = negb (bool_decide (answer = Some true))
       ∧ self' = logged [PriceChecked p limit true; CacheChecked u answer] self).
Proof.
  unfold Session.is_product_valid.
  destruct price as [price|], url as [tag|];
    try (intros [= <- <-]; by left).
  unfold bind, getattr, lift, format_data, gets, ret.
  destruct (getitem (attrs tag) "href") as [href|e]; [|done].
  destruct (format_extracted_data (website_name self) "product_price" _)
    as [pp|e]; [|done].
  destruct (format_extracted_data (website_name self) "product_url" _)
    as [u|e]; [|done].
  case_bool_decide; [intros [= <- <-]; by left|].
  unfold Session.within_price_limit.
  destruct (match category self with Some c => assoc PRICE_LIMITS c | None => None end)
    as [limit|]; [|done].
  destruct pp as [p| | |]; try done.
  unfold bind, log, modify, ret. simpl.
  destruct (Z.leb_spec p limit) as [Hle|Hgt].
  - unfold Session.cache_is_member, bind, log, modify, ret. simpl.
    rewrite logged_logged. simpl.
    set (answer := Redis.is_member now "product_url_cache" _ (redis self)).
    intros Heq. right. right. exists p, limit, u, answer. split; [done|].
    destruct answer as [[|]|]; by injection Heq as <- <-.
  - intros [= <- <-]. right. left. by exists p, limit.
Qed.

(** The order of the gate: the price ceiling, then the cache, then the
    classifier, which is consulted only for a card within the limit that
    the cache does not have; and a card is accepted only after the
    classifier has said "Best Deal". *)
Lemma extract_card_gate_order (product_soup : Soup) (self self' : Self)
    (accepted : option Product) :
  extract_card product_soup self = (Ok accepted, self') →
  ∃ events,
    gate_log self' = gate_log self ++ events ∧ gate_order events accepted.
Proof.
  unfold Session.extract_card, bind, by_website, lift, ret.
  destruct (website_name self) as [w|] eqn:Hname; [|done].
  destruct (getitem (PRODUCT_DETAILS w) "product_url") as [url_selectors|e];
    [|done].
  rewrite Hname.
  destruct (getitem (PRODUCT_DETAILS w) "product_price") as [price_selectors|e];
    [|done].
  generalize (select_one product_soup (Str.join " ," url_selectors)).
  generalize (select_one product_soup (Str.join " ," price_selectors)).
  intros product_price product_url.
  destruct (is_product_valid product_price product_url self)
    as [[valid|e] self1] eqn:Hvalid; [|done].
  apply is_product_valid_gate in Hvalid
    as [[-> ->]|[(p&limit&->&Hgt&->)|(p&limit&u&answer&Hle&->&->)]].
  { intros [= <- <-]. exists []. split; [by rewrite app_nil_r|by left]. }
  { intros [= <- <-]. eexists. split; [done|]. right. left. by eexists _, _. }
  set (self1 := logged _ self).
  assert (∀ s : Self, gate_log s = gate_log self1 →
            ∃ events, gate_log s = gate_log self ++ events
                      ∧ gate_order events None) as Hdropped.
  { intros s ->. eexists. split; [done|]. right. right. left.
    by eexists _, _, _, _. }
  destruct (bool_decide (answer = Some true)) eqn:Hanswer; simpl.
  { intros [= <- <-]. by apply Hdropped. }
  apply bool_decide_eq_false in Hanswer.
  pose proof (only_browser_get_flipkart_data product_url self1) as Hsame2.
  destruct (get_flipkart_data product_url self1) as [[[fps|]|e] self2]
    eqn:Hflipkart; simpl in Hsame2; [| |done].
  2: { destruct Hsame2 as [_ Hlog2]. intros [= <- <-]. by apply Hdropped. }
  destruct Hsame2 as [(_&Hw2&_) Hlog2].
  rewrite Hw2. change (website_name self1) with (website_name self).
  rewrite Hname.
  pose proof (extract_fields_pure product_soup fps product_url
                (PRODUCT_DETAILS w) ∅ self2) as Hpure.
  destruct (extract_fields product_soup fps product_url
              (PRODUCT_DETAILS w) ∅ self2) as [[d|e] self3]; [|done].
  simpl in Hpure. subst self3.
  destruct (lacks_required REQUIRED_PRODUCT_KEYS d).
  { intros [= <- <-]. by apply Hdropped. }
  unfold classify, bind, lift, log, modify, ret.
  destruct (predict_deal d) as [verdict|e]; [|done].
  assert (∀ (s : Self) r,
            gate_log s = gate_log self2 ++ [Classified d verdict] →
            r = (if String.eqb verdict "Best Deal" then Some d else None) →
            ∃ events, gate_log s = gate_log self ++ events
                      ∧ gate_order events r) as Hclassified.
  { intros s r -> ->. rewrite Hlog2. subst self1. simpl.
    rewrite <- app_assoc. eexists. split; [done|]. right. right. right.
    by eexists _, _, _, _, _, _. }
  destruct (String.eqb verdict "Best Deal") eqn:Hverdict.
  2: { intros [= <- <-]. apply Hclassified; [done|]. by rewrite ?Hverdict. }
  destruct (getattr product_url "href" _) as [[href|e] self4] eqn:Hhref;
    [|done].
  assert (self4 = logged [Classified d verdict] self2) as ->.
  { pose proof (preserves_getattr eq product_url "href"
                  (logged [Classified d verdict] self2)) as Hp.
    by rewrite Hhref in Hp. }
  unfold format_data.
  destruct (short_url_with_affiliate_code _ _ _ _ href) as [[url|]|e];
    [| |done].
  - intros [= <- <-]. apply Hclassified; [done|]. by rewrite ?Hverdict.
  - intros [= <- <-]. apply Hclassified; [done|]. by rewrite ?Hverdict.
Qed.

(** C6, the code at the failing input.  On a site other than FLIPKART
    [extract_products_by_website] accepts no card of any page, however the
    card fares with the three checks: the list it returns is empty, and the
    helper is as before but for the price and cache checks its record of
    the gate has gained; the classifier is not consulted. *)
Theorem extract_accepts_nothing_outside_flipkart (main_container : Soup)
    (self self' : Self) (products : list Product) :
  website_name self ≠ Some FLIPKART →
  extract_products_by_website main_container self = (Ok products, self') →
  products = [] ∧ only_logged self self'.
Proof.
  intros Hw. unfold Session.extract_products_by_website, bind, by_website.
  destruct (website_name self) as [w|] eqn:Hname; [|done].
  destruct (select main_container (PRODUCT_CARDS w)) as [|card cards].
  - intros [= <- <-]. done.
  - intros Heq.
    assert (website_name self ≠ Some FLIPKART) as Hw' by by rewrite Hname.
    destruct (extract_cards_outside_flipkart (card :: cards) [] self Hw')
      as [Hlogged Hout].
    rewrite Heq in Hlogged, Hout. simpl in *. split; [by apply Hout|done].
Qed.

(** C5, as the code has it.  The ceiling check of [is_product_valid] is on
    [product_price], the list price of the card, not on the price after
    discount: a card whose link is new to the session is rejected, without
    a look at the cache, exactly when its [product_price] is strictly
    greater than [PRICE_LIMITS[category]]; a [product_price] equal to the
    ceiling passes the check, and the card is then valid unless the cache
    has its URL; a [product_price] of the ceiling plus one is rejected. *)
Theorem price_ceiling_on_list_price (self : Self) (price url : Soup)
    (href category_name : string) (p limit : Z) (u : value F) :
  getitem (attrs url) "href" = Ok href →
  format_extracted_data (website_name self) "product_price"
    (Some (get_text price)) = Ok (VInt p) →
  format_extracted_data (website_name self) "product_url" (Some href) = Ok u →
  u ∉ product_urls self →
  category self = Some category_name →
  assoc PRICE_LIMITS category_name = Some limit →
  let answer :=
    Redis.is_member now "product_url_cache"
      (match u with VStr url => Some url | _ => None end) (redis self) in
  is_product_valid (Some price) (Some url) self
  = if p <=? limit
    then (Ok (negb (bool_decide (answer = Some true))),
          logged [PriceChecked p limit true; CacheChecked u answer] self)
    else (Ok false, logged [PriceChecked p limit false] self).
Proof.
  intros Hhref Hprice Hurl Hnew Hcat Hlimit answer.
  unfold Session.is_product_valid, bind, getattr, lift, format_data, gets.
  rewrite Hhref, Hprice, Hurl. case_bool_decide; [done|].
  unfold Session.within_price_limit. rewrite Hcat, Hlimit.
  unfold bind, log, modify, ret. simpl.
  destruct (p <=? limit) eqn:Hle; [|done].
  unfold Session.cache_is_member, bind, log, modify, ret. simpl.
  fold answer. rewrite logged_logged. simpl.
  by destruct answer as [[|]|].
Qed.

(** C1, the code at the failing input.  For a positive
    [MAX_PRODUCTS_PER_WEBSITE] the guard of the loop of [get_products],
    [len(products) >= MAX_PRODUCTS_PER_WEBSITE], is false for the empty
    list the session starts with: [get_products] returns the empty list
    without a turn of the loop, the browser untouched, whatever the pages
    of the target are. *)
Theorem get_products_fetches_no_page (fuel : nat) (website : Websites)
    (category url : string) (self : Self) :
  0 < MAX_PRODUCTS_PER_WEBSITE →
  get_products fuel website category url self
  = (Done (Ok []),
     MkHelper (redis self) (Some website) (Some category) 1 []
       (current_page self) (driver self) (gate_log self)).
Proof.
  intros Hmax. unfold Session.get_products.
  assert ((0 >=? MAX_PRODUCTS_PER_WEBSITE) = false) as Hguard.
  { rewrite Z.geb_leb. apply Z.leb_gt. lia. }
  destruct fuel as [|fuel]; cbn -[Z.geb Z.of_nat];
    change (Z.of_nat 0) with 0; by rewrite Hguard.
Qed.

(** Without [current_page] every attempt of the fetch raises
    [AttributeError] before the browser is asked for anything, and the
    wrapper returns [None]. *)
Lemma fetch_product_container_unset (url type : string) (self : Self) :
  current_page self = None →
  fetch_product_container url type self = (Ok None, self).
Proof.
  intros Hcp.
  assert (fetch_product_container_body url type self
          = (Raise (AttributeError
               "'SeleniumHelper' object has no attribute 'current_page'"),
             self)) as Hbody.
  { unfold Session.fetch_product_container_body, bind, get_current_page.
    by rewrite Hcp. }
  unfold Session.fetch_product_container, Retry.wrapper.
  change (seqZ 0 3) with [0; 1; 2]. simpl. by rewrite !Hbody.
Qed.


End session_facts.

Lemma get_products_fetches_no_page_witness :
  Example.get_products 10 5 Urls.AMAZON "t-shirt"
    "https://www.amazon.in/s?k=t-shirt"
    (Example.new_helper (Example.amazon_web Example.listing))
  = (Done (Ok []),
     Session.MkHelper Redis.example_db (Some Urls.AMAZON) (Some "t-shirt"%string)
       1 [] None
       (Example.Browser "about:blank" (Example.amazon_web Example.listing)) []).
Proof.
  apply (get_products_fetches_no_page Example.py_float Example.py_int
           Example.PRODUCT_DETAILS Example.PRODUCT_CARDS
           Example.PRODUCT_CONTAINER Example.NEXT_BUTTON
           Example.REQUIRED_PRODUCT_KEYS Example.PRICE_LIMITS 10).
  lia.
Defined.


(** Without [current_page] every attempt of the fetch raises
    [AttributeError], the wrapper returns [None], and the session ends with
    the empty list. *)
Example get_products_without_current_page :
  (Example.get_products 0 5 Urls.AMAZON "t-shirt"
     "https://www.amazon.in/s?k=t-shirt"
     (Example.new_helper (Example.amazon_web Example.listing))).1
  = Done (Ok []).
Proof. vm_compute. reflexivity. Qed.

Lemma price_ceiling_on_list_price_witness :
  (Example.is_product_valid
     (Some (Session.leaf "₹2,500" []))
     (Some (Session.leaf "" [("href", "/dp/B000000000")]))
     (Example.amazon_helper Example.listing)).1 = Ok true
  ∧ (Example.is_product_valid
       (Some (Session.leaf "₹2,501" []))
       (Some (Session.leaf "" [("href", "/dp/B000000000")]))
       (Example.amazon_helper Example.listing)).1 = Ok false.
Proof.
  split.
  - unfold Example.is_product_valid.
    rewrite (price_ceiling_on_list_price Example.py_float Example.py_int
      Example.PRICE_LIMITS Urls.const_AMAZON_AFFILIATE_ID
      Urls.const_FLIPKART_AFFILIATE_ID Urls.const_MYNTRA_AFFILIATE_ID 100
      (Example.amazon_helper Example.listing)
      (Session.leaf "₹2,500" [])
      (Session.leaf "" [("href", "/dp/B000000000")])
      "/dp/B000000000" "t-shirt" 2500 2500
      (Session.VStr "https://www.amazon.in/dp/B000000000/?tag=aladdinloot3-21")).
    + reflexivity.
    + reflexivity.
    + vm_compute. reflexivity.
    + reflexivity.
    + intros Hin. inversion Hin.
    + reflexivity.
    + reflexivity.
  - unfold Example.is_product_valid.
    rewrite (price_ceiling_on_list_price Example.py_float Example.py_int
      Example.PRICE_LIMITS Urls.const_AMAZON_AFFILIATE_ID
      Urls.const_FLIPKART_AFFILIATE_ID Urls.const_MYNTRA_AFFILIATE_ID 100
      (Example.amazon_helper Example.listing)
      (Session.leaf "₹2,501" [])
      (Session.leaf "" [("href", "/dp/B000000000")])
      "/dp/B000000000" "t-shirt" 2501 2500
      (Session.VStr "https://www.amazon.in/dp/B000000000/?tag=aladdinloot3-21")).
    + reflexivity.
    + reflexivity.
    + vm_compute. reflexivity.
    + reflexivity.
    + intros Hin. inversion Hin.
    + reflexivity.
    + reflexivity.
Defined.

(** C5 as stated fails: a card with a list price of 3000 and a price after
    discount of 1499, under the ceiling of 2500 of its category, is rejected
    by the ceiling check. *)
Lemma price_ceiling_rejects_discounted_card :
  let product_soup := Example.card "₹3,000" "1,499" "/dp/B000000001" in
  let self := Example.amazon_helper Example.listing in
  Example.format_extracted_data (Some Urls.AMAZON) "product_discount"
    (Session.get_text
       <$> Session.select_one product_soup Example.discount_css)
  = Ok (Session.VInt 1499)
  ∧ Session.assoc Example.PRICE_LIMITS "t-shirt" = Some 2500
  ∧ (Example.is_product_valid
       (Session.select_one product_soup Example.price_css)
       (Session.select_one product_soup Example.url_css) self).1 = Ok false
  ∧ Session.gate_log
      (Example.is_product_valid
         (Session.select_one product_soup Example.price_css)
         (Session.select_one product_soup Example.url_css) self).2
    = [Session.PriceChecked 3000 2500 false].
Proof. repeat split; vm_compute; reflexivity. Qed.

(** The card of the end-to-end example of the specification, on AMAZON:
    under the ceiling, not in the cache, a best deal for the classifier,
    and not accepted. *)
Lemma extract_accepts_nothing_outside_flipkart_witness :
  ∃ self',
    Example.extract_products_by_website
      (Example.container [Example.card "₹1,999" "1,499" "/dp/B000000000"])
      (Example.amazon_helper Example.listing)
    = (Ok [], self')
    ∧ Session.only_logged (Example.amazon_helper Example.listing) self'
    ∧ Session.gate_log self'
      = [Session.PriceChecked 1999 2500 true;
         Session.CacheChecked
           (Session.VStr
              "https://www.amazon.in/dp/B000000000/?tag=aladdinloot3-21")
           (Some false)].
Proof.
  eexists. split; [vm_compute; reflexivity|]. split; [|reflexivity].
  eapply (extract_accepts_nothing_outside_flipkart Example.py_float
            Example.py_int Example.PRODUCT_DETAILS Example.PRODUCT_CARDS
            Example.PRODUCT_CONTAINER Example.REQUIRED_PRODUCT_KEYS
            Example.PRICE_LIMITS Urls.const_AMAZON_AFFILIATE_ID
            Urls.const_FLIPKART_AFFILIATE_ID Urls.const_MYNTRA_AFFILIATE_ID
            Example.predict_deal 100
            (Example.container [Example.card "₹1,999" "1,499" "/dp/B000000000"])
            (Example.amazon_helper Example.listing) _ []).
  - discriminate.
  - vm_compute. reflexivity.
Defined.

(** A page of FLIPKART with two cards for one product and a card for
    another: two products are accepted, and their URLs differ. *)
Lemma session_urls_pairwise_distinct_witness :
  length Example.flipkart_accepted = 2%nat
  ∧ NoDup (Session.url_of <$> Example.flipkart_accepted)
  ∧ Session.product_urls Example.flipkart_final
    = [Session.VStr
         "https://www.flipkart.com/shirt/p/itm1/?affid=admitad&affExtParam1=298614";
       Session.VStr
         "https://www.flipkart.com/jeans/p/itm2/?affid=admitad&affExtParam1=298614"].
Proof.
  assert (Example.extract_products_by_website
            (Example.flipkart_container Example.flipkart_listing)
            Example.flipkart_helper
          = (Ok Example.flipkart_accepted, Example.flipkart_final)) as Heq.
  { unfold Example.flipkart_final.
    rewrite (surjective_pairing (Example.extract_products_by_website _ _))
      at 1.
    f_equal; vm_compute; reflexivity. }
  split; [vm_compute; reflexivity|]. split; [|vm_compute; reflexivity].
  exact (proj1 (proj2 (proj2
    (session_urls_pairwise_distinct Example.py_float Example.py_int
       Example.PRODUCT_DETAILS Example.PRODUCT_CARDS
       Example.PRODUCT_CONTAINER Example.NEXT_BUTTON
       Example.REQUIRED_PRODUCT_KEYS Example.PRICE_LIMITS 10
       Urls.const_AMAZON_AFFILIATE_ID Urls.const_FLIPKART_AFFILIATE_ID
       Urls.const_MYNTRA_AFFILIATE_ID Example.predict_deal 100
       (Example.flipkart_container Example.flipkart_listing)
       Example.flipkart_helper Example.flipkart_final
       Example.flipkart_accepted NoDup_nil_2 Heq)))).
Defined.

(** * Part III: further properties of the sources *)

(** ** [retry], for every bound *)

Section retry_bounds.
Import Retry.
Context {W A : Type}.
Variable func : W → outcome A * W.

Lemma sum_powers_of_two (m : nat) (j : Z) :
  0 ≤ j →
  foldr Z.add 0 ((λ i, 2 ^ i) <$> seqZ j (Z.of_nat m)) = 2 ^ (j + Z.of_nat m) - 2 ^ j.
Proof.
  revert j. induction m as [|m IH]; intros j Hj.
  - rewrite seqZ_nil by lia. simpl. replace (j + Z.of_nat 0) with j by lia. lia.
  - rewrite seqZ_cons by lia. rewrite fmap_cons. simpl foldr.
    replace (Z.pred (Z.of_nat (S m))) with (Z.of_nat m) by lia.
    rewrite IH by lia.
    replace (Z.succ j + Z.of_nat m) with (j + Z.of_nat (S m)) by lia.
    rewrite (Z.pow_succ_r 2 j) by lia. lia.
Qed.

(** What the loop has done when it ends, whatever the operation does. *)
Lemma wrapper_loop_trace (n : Z) (m : nat) (j : Z) (w : W) :
  0 ≤ j → j + Z.of_nat m = n →
  ∃ r tr,
    wrapper_loop func n (seqZ j (Z.of_nat m)) w
    = (r, after func (invocations tr) w, tr)
    ∧ (invocations tr ≤ m)%nat
    ∧ sleeps tr = (λ i, 2 ^ i) <$> seqZ j (Z.of_nat (invocations tr) - 1)
    ∧ (∀ i, (S i < invocations tr)%nat → is_raise (attempt func i w) = true)
    ∧ match r with
      | Some a =>
          (0 < invocations tr)%nat
          ∧ attempt func (invocations tr - 1) w = Ok a
      | None =>
          invocations tr = m
          ∧ ∀ i, (i < m)%nat → is_raise (attempt func i w) = true
      end.
Proof.
  revert j w. induction m as [|m IH]; intros j w Hj Hn.
  - exists None, []. rewrite seqZ_nil by lia. simpl.
    split; [done|]. split; [lia|]. split; [done|].
    split; [intros; lia|]. split; [done|]. intros; lia.
  - rewrite seqZ_cons by lia. simpl wrapper_loop.
    replace (Z.pred (Z.of_nat (S m))) with (Z.of_nat m) by lia.
    destruct (func w) as [[a|e] w1] eqn:Hf.
    + exists (Some a), [Invoke]. simpl. rewrite Hf. simpl.
      split; [done|]. split; [lia|]. split; [done|].
      split; [intros; lia|]. split; [lia|].
      unfold attempt. simpl. by rewrite Hf.
    + assert (is_raise (attempt func 0 w) = true) as H0.
      { unfold attempt. simpl. by rewrite Hf. }
      destruct (Z.ltb_spec j (n - 1)) as [Hlt|Hge].
      * destruct (IH (Z.succ j) w1) as (r & tr & -> & Hle & Hsl & Hfail & Hr);
          [lia|lia|].
        exists r, (Invoke :: Warning (j + 1) n (2 ^ j) e :: Sleep (2 ^ j) :: tr).
        change (invocations (Invoke :: Warning (j + 1) n (2 ^ j) e
                               :: Sleep (2 ^ j) :: tr))
          with (S (invocations tr)).
        rewrite after_S, Hf. simpl snd.
        split; [done|]. split; [lia|]. split.
        { simpl sleeps.
          replace (Z.of_nat (S (invocations tr)) - 1)
            with (Z.of_nat (S (invocations tr - 0)) - 1) by lia.
          destruct (invocations tr) as [|k] eqn:Hk.
          - destruct r as [a|]; [lia|]. destruct Hr as [<- _]. lia.
          - replace (Z.of_nat (S (S k - 0)) - 1) with (Z.succ (Z.of_nat k)) by lia.
            rewrite (seqZ_cons j) by lia. rewrite fmap_cons. f_equal.
            rewrite Hsl. f_equal. f_equal. lia. }
        split.
        { intros [|i] Hi; [done|]. rewrite attempt_S, Hf. apply Hfail. lia. }
        destruct r as [a|].
        -- destruct Hr as [Hpos Hok]. split; [lia|].
           replace (S (invocations tr) - 1)%nat
             with (S (invocations tr - 1)) by lia.
           by rewrite attempt_S, Hf.
        -- destruct Hr as [Hall Hraise]. split; [lia|].
           intros [|i] Hi; [done|]. rewrite attempt_S, Hf. apply Hraise. lia.
      * assert (m = O) as -> by lia.
        exists None, [Invoke]. simpl. rewrite Hf. simpl.
        split; [done|]. split; [lia|]. split; [done|].
        split; [intros; lia|]. split; [done|].
        intros i Hi. by assert (i = O) as -> by lia.
Qed.

End retry_bounds.

(** X1.  Whatever the decorated function does and whatever [max_retries]
    is, the wrapper ends in one of two ways, [n] being [max_retries], or
    zero for a negative bound.  Either one of the first [n] calls of the
    function returns: the first that does is the last call made, the calls
    before it have raised, and the wrapper returns what that call returned
    ([Some a] here; in Python the value itself, which is [None] when the
    function returned [None]).  Or each of the first [n] calls raises: the
    function is called exactly [n] times and the wrapper itself returns
    [None].  Either way the function is called [n] times at most, and the
    wrapper sleeps [2 ** i] seconds after the failed call [i] (from 0) that
    another call follows. *)
Theorem retry_call_budget {W A : Type} (func : W → outcome A * W)
    (max_retries : Z) (w : W) :
  let n := Z.to_nat max_retries in
  (∃ (k : nat) (a : A) tr,
     (1 ≤ k ≤ n)%nat
     ∧ (∀ i, (i < k - 1)%nat → is_raise (Retry.attempt func i w) = true)
     ∧ Retry.attempt func (k - 1) w = Ok a
     ∧ Retry.wrapper func max_retries w = (Some a, Retry.after func k w, tr)
     ∧ Retry.invocations tr = k
     ∧ Retry.sleeps tr = (λ i, 2 ^ i) <$> seqZ 0 (Z.of_nat k - 1))
  ∨ ((∀ i, (i < n)%nat → is_raise (Retry.attempt func i w) = true)
     ∧ ∃ tr,
         Retry.wrapper func max_retries w = (None, Retry.after func n w, tr)
         ∧ Retry.invocations tr = n
         ∧ Retry.sleeps tr = (λ i, 2 ^ i) <$> seqZ 0 (Z.of_nat n - 1)).
Proof.
  intros n. unfold Retry.wrapper.
  destruct (Z.le_gt_cases max_retries 0) as [Hle|Hgt].
  - right. assert (n = O) as -> by (subst n; lia).
    split; [intros; lia|]. exists []. by rewrite seqZ_nil by lia.
  - destruct (wrapper_loop_trace func max_retries n 0 w)
      as (r & tr & Hloop & Hbound & Hsl & Hfail & Hr); [lia|subst n; lia|].
    assert (Z.of_nat n = max_retries) as Hn by (subst n; lia).
    rewrite Hn in Hloop. rewrite Hloop. destruct r as [a|].
    + destruct Hr as [Hpos Hok]. left.
      exists (Retry.invocations tr), a, tr.
      split; [lia|]. split; [intros i Hi; apply Hfail; lia|].
      split; [exact Hok|]. split; [reflexivity|]. split; [reflexivity|].
      exact Hsl.
    + destruct Hr as [Hall Hraise]. right. split; [exact Hraise|].
      exists tr. rewrite <- Hall. split; [reflexivity|].
      split; [reflexivity|]. exact Hsl.
Qed.

(** X2.  A function that raises at each of its first [max_retries] calls,
    [max_retries] positive, is called exactly [max_retries] times; the
    wrapper returns [None], having slept [2 ** 0], ..., [2 ** (max_retries - 2)]
    seconds, [2 ** (max_retries - 1) - 1] seconds in all. *)
Theorem retry_gives_up {W A : Type} (func : W → outcome A * W)
    (max_retries : Z) (w : W) :
  0 < max_retries →
  (∀ i, Z.of_nat i < max_retries →
        is_raise (Retry.attempt func i w) = true) →
  ∃ tr,
    Retry.wrapper func max_retries w
    = (None, Retry.after func (Z.to_nat max_retries) w, tr)
    ∧ Retry.invocations tr = Z.to_nat max_retries
    ∧ Retry.sleeps tr = (λ i, 2 ^ i) <$> seqZ 0 (max_retries - 1)
    ∧ foldr Z.add 0 (Retry.sleeps tr) = 2 ^ (max_retries - 1) - 1.
Proof.
  intros Hpos Hall. unfold Retry.wrapper.
  destruct (wrapper_loop_exhausted func max_retries (Z.to_nat max_retries) 0 w)
    as (tr & Hloop & Hinv & Hsl); [lia|lia| |].
  { intros i Hi. apply Hall. lia. }
  rewrite Z2Nat.id in Hloop, Hsl by lia.
  exists tr. split; [done|]. split; [done|]. split; [done|].
  rewrite Hsl.
  replace (max_retries - 1) with (Z.of_nat (Z.to_nat (max_retries - 1))) at 1
    by lia.
  rewrite sum_powers_of_two by lia. rewrite Z2Nat.id by lia.
  rewrite Z.add_0_l, Z.pow_0_r. done.
Qed.

Lemma retry_gives_up_witness :
  ∃ tr,
    Retry.wrapper Retry.always_raises 5 O = (None, 5%nat, tr)
    ∧ Retry.invocations tr = 5%nat
    ∧ Retry.sleeps tr = [1; 2; 4; 8]
    ∧ foldr Z.add 0 (Retry.sleeps tr) = 15.
Proof.
  apply (retry_gives_up Retry.always_raises 5 O); [lia|].
  intros i _. reflexivity.
Defined.

(** X3.  With a bound of zero or less the wrapper returns [None] without a
    call of the function; with a bound of one it calls the function once
    and turns a failure into [None] without a warning or a sleep. *)
Theorem retry_small_bounds {W A : Type} (func : W → outcome A * W)
    (max_retries : Z) (w : W) :
  (max_retries ≤ 0 → Retry.wrapper func max_retries w = (None, w, []))
  ∧ Retry.wrapper func 1 w
    = (match (func w).1 with Ok a => Some a | Raise _ => None end,
       (func w).2, [Retry.Invoke]).
Proof.
  unfold Retry.wrapper. split.
  - intros Hle. by rewrite seqZ_nil by lia.
  - change (seqZ 0 1) with [0]. simpl. by destruct (func w) as [[a|e] w1].
Qed.

Lemma retry_small_bounds_witness :
  Retry.wrapper Retry.always_raises 0 O = (None, O, [])
  ∧ Retry.wrapper Retry.always_raises (-2) O = (None, O, []).
Proof.
  split.
  - apply (proj1 (retry_small_bounds Retry.always_raises 0 O)). lia.
  - apply (proj1 (retry_small_bounds Retry.always_raises (-2) O)). lia.
Defined.

(** X4.  A relation between states of the world that is reflexive and
    transitive and that every call of the function keeps, failed or not,
    holds between the world before the wrapper and the world after it. *)
Theorem retry_keeps_invariant {W A : Type} (func : W → outcome A * W)
    (R : W → W → Prop) `{!Reflexive R, !Transitive R}
    (max_retries : Z) (w : W) :
  (∀ w, R w (func w).2) → R w (Retry.wrapper func max_retries w).1.2.
Proof.
  intros Hfunc. unfold Retry.wrapper. by apply wrapper_loop_preserves.
Qed.

Lemma retry_keeps_invariant_witness :
  (O ≤ (Retry.wrapper Retry.third_time_lucky 3 O).1.2)%nat.
Proof.
  apply (retry_keeps_invariant Retry.third_time_lucky le 3 O).
  intros w. simpl. lia.
Defined.

(** ** The product id and the rewrite of a URL, further *)

Section url_more.
Import Urls.
Local Open Scope string_scope.

Lemma append_length_inj (a a' b b' : string) :
  a +:+ b = a' +:+ b' → String.length a = String.length a' → a = a' ∧ b = b'.
Proof.
  revert a'. induction a as [|c a IH]; intros [|c' a'] Heq Hlen; try done.
  rewrite !append_cons in Heq. injection Heq as <- Heq.
  simpl in Hlen. destruct (IH a' Heq) as [-> ->]; [lia|done].
Qed.

Lemma append_length (a b : string) :
  String.length (a +:+ b) = (String.length a + String.length b)%nat.
Proof.
  induction a as [|c a IH]; [done|]. rewrite append_cons. simpl. by rewrite IH.
Qed.

Lemma search_dp_leftmost (s id : string) :
  search_dp s = Some id → ∃ pre post, leftmost_dp_id s pre id post.
Proof.
  induction s as [|c s IH]; [done|]. rewrite search_dp_cons.
  destruct (match_dp (String c s)) as [id'|] eqn:Hm.
  - intros [= ->]. apply match_dp_Some in Hm as (post & Heq & Hlen & Hal).
    exists "", post. split; [by rewrite Heq|]. split; [done|]. split; [done|].
    intros; simpl; lia.
  - intros Hs. destruct (IH Hs) as (pre & post & -> & Hlen & Hal & Hleft).
    exists (String c pre), post. split; [done|]. split; [done|].
    split; [done|]. intros [|c' pre'] id' post' Heq Hlen' Hal'.
    + exfalso. rewrite append_nil in Heq.
      assert (match_dp (String c (pre +:+ "/dp/" +:+ id +:+ post)) = Some id')
        as Hm'; [|congruence].
      apply match_dp_Some. by exists post'.
    + rewrite append_cons in Heq. injection Heq as <- Heq.
      specialize (Hleft pre' id' post' Heq Hlen' Hal'). simpl. lia.
Qed.

Lemma leftmost_dp_id_unique (s pre1 id1 post1 pre2 id2 post2 : string) :
  leftmost_dp_id s pre1 id1 post1 → leftmost_dp_id s pre2 id2 post2 →
  id1 = id2.
Proof.
  intros (Heq1 & Hlen1 & Hal1 & Hleft1) (Heq2 & Hlen2 & Hal2 & Hleft2).
  pose proof (Hleft1 _ _ _ Heq2 Hlen2 Hal2) as H12.
  pose proof (Hleft2 _ _ _ Heq1 Hlen1 Hal1) as H21.
  rewrite Heq1 in Heq2.
  apply append_length_inj in Heq2 as [_ Heq2]; [|lia].
  apply (append_length_inj "/dp/" "/dp/") in Heq2 as [_ Heq2]; [|done].
  apply append_length_inj in Heq2 as [Heq2 _]; [done|lia].
Qed.

Lemma before_first_append (c : ascii) (a b : string) :
  Str.occurs c a = false → Str.before_first c (a +:+ String c b) = a.
Proof.
  induction a as [|x a IH]; intros Hno.
  - rewrite append_nil. simpl. by rewrite Ascii.eqb_refl.
  - rewrite append_cons. simpl in *. apply orb_false_elim in Hno as [Hx Ha].
    rewrite Hx. f_equal. by apply IH.
Qed.

Lemma before_first_none (c : ascii) (a : string) :
  Str.occurs c a = false → Str.before_first c a = a.
Proof.
  induction a as [|x a IH]; intros Hno; [done|].
  simpl in *. apply orb_false_elim in Hno as [Hx Ha].
  rewrite Hx. f_equal. by apply IH.
Qed.

Lemma unquote_cons (a : ascii) (s : string) :
  Ascii.eqb a "%" = false → Str.unquote (String a s) = String a (Str.unquote s).
Proof. intros Ha. simpl. by rewrite Ha. Qed.

Lemma unquote_append (a b : string) :
  Str.occurs "%" a = false → Str.unquote (a +:+ b) = a +:+ Str.unquote b.
Proof.
  induction a as [|x a IH]; intros Hno; [done|].
  simpl in Hno. apply orb_false_elim in Hno as [Hx Ha].
  rewrite !append_cons, unquote_cons by done. f_equal. by apply IH.
Qed.

Lemma is_alnum_not_percent (c : ascii) :
  Str.is_alnum c = true → Ascii.eqb c "%" = false.
Proof.
  intros Hc. apply Ascii.eqb_neq. intros ->. by vm_compute in Hc.
Qed.

Lemma all_alnum_no_percent (s : string) :
  Str.all_alnum s → Str.occurs "%" s = false.
Proof.
  induction s as [|c s IH]; [done|].
  intros [Hc Hs]%all_alnum_cons. simpl.
  rewrite (is_alnum_not_percent c Hc). by apply IH.
Qed.

Lemma search_dp_amazon_url (id rest : string) :
  String.length id = 10%nat → Str.all_alnum id →
  search_dp ("https://www.amazon.in/dp/" +:+ id +:+ rest) = Some id.
Proof.
  intros Hlen Hal.
  change (search_dp ("https://www.amazon.in/dp/" +:+ id +:+ rest))
    with (search_dp ("/dp/" +:+ id +:+ rest)).
  assert (match_dp ("/dp/" +:+ id +:+ rest) = Some id) as Hm.
  { apply match_dp_Some. by exists rest. }
  rewrite !append_cons, append_nil in Hm |- *.
  rewrite search_dp_cons. by rewrite Hm.
Qed.

End url_more.

(** X5.  [extract_amazon_product_id] returns the ten characters after the
    leftmost ["/dp/"] of the percent-decoded URL that is followed by ten
    characters of [[a-zA-Z0-9]], and it returns them for no other text: what
    is before that place in the URL and what is after the id play no part
    in the result. *)
Theorem extract_amazon_product_id_leftmost (url id : string) :
  Urls.extract_amazon_product_id url = Some id
  ↔ ∃ pre post,
      Str.unquote url = (pre +:+ "/dp/" +:+ id +:+ post)%string
      ∧ String.length id = 10%nat ∧ Str.all_alnum id
      ∧ ∀ pre' id' post',
          Str.unquote url = (pre' +:+ "/dp/" +:+ id' +:+ post')%string →
          String.length id' = 10%nat → Str.all_alnum id' →
          (String.length pre ≤ String.length pre')%nat.
Proof.
  unfold Urls.extract_amazon_product_id. split.
  - intros Hs. apply search_dp_leftmost in Hs as (pre & post & Hl).
    by exists pre, post.
  - intros (pre & post & Hl).
    destruct (Urls.search_dp (Str.unquote url)) as [id2|] eqn:Hs.
    + apply search_dp_leftmost in Hs as (pre2 & post2 & Hl2).
      f_equal. symmetry. by eapply leftmost_dp_id_unique.
    + apply search_dp_None in Hs. destruct Hs.
      destruct Hl as (Heq & Hlen & Hal & _). by exists pre, id, post.
Qed.

(** X6.  On FLIPKART the rewrite keeps of the href what is before its first
    ["?"]: an href with a query and the same href without it are rewritten
    to the same URL, the host, the path, ["/"] and the affiliate suffix. *)
Theorem flipkart_rewrite_drops_query
    (AMAZON_ID FLIPKART_ID MYNTRA_ID path query : string) :
  Str.occurs "?" path = false →
  Urls.short_url_with_affiliate_code AMAZON_ID FLIPKART_ID MYNTRA_ID
    (Some Urls.FLIPKART) (path +:+ "?" +:+ query)
  = Ok (Some ("https://www.flipkart.com" +:+ path +:+ "/" +:+ FLIPKART_ID)%string)
  ∧ Urls.short_url_with_affiliate_code AMAZON_ID FLIPKART_ID MYNTRA_ID
      (Some Urls.FLIPKART) path
    = Ok (Some ("https://www.flipkart.com" +:+ path +:+ "/" +:+ FLIPKART_ID)%string).
Proof.
  intros Hno. unfold Urls.short_url_with_affiliate_code.
  change ("?" +:+ query)%string with (String "?" query).
  by rewrite before_first_append, before_first_none.
Qed.

Lemma flipkart_rewrite_drops_query_witness :
  Urls.short_url_with_affiliate_code Urls.const_AMAZON_AFFILIATE_ID
    Urls.const_FLIPKART_AFFILIATE_ID Urls.const_MYNTRA_AFFILIATE_ID
    (Some Urls.FLIPKART) ("/shirt/p/itm1" +:+ "?" +:+ "pid=A&lid=1?x")
  = Ok (Some ("https://www.flipkart.com" +:+ "/shirt/p/itm1" +:+ "/"
              +:+ Urls.const_FLIPKART_AFFILIATE_ID)%string).
Proof.
  apply (flipkart_rewrite_drops_query Urls.const_AMAZON_AFFILIATE_ID
           Urls.const_FLIPKART_AFFILIATE_ID Urls.const_MYNTRA_AFFILIATE_ID
           "/shirt/p/itm1" "pid=A&lid=1?x").
  reflexivity.
Defined.

(** X7.  On AMAZON the rewrite is idempotent: a URL it has made is
    rewritten to itself, whatever the affiliate suffix is. *)
Theorem amazon_rewrite_idempotent
    (AMAZON_ID FLIPKART_ID MYNTRA_ID href u : string) :
  Urls.short_url_with_affiliate_code AMAZON_ID FLIPKART_ID MYNTRA_ID
    (Some Urls.AMAZON) href = Ok (Some u) →
  Urls.short_url_with_affiliate_code AMAZON_ID FLIPKART_ID MYNTRA_ID
    (Some Urls.AMAZON) u = Ok (Some u).
Proof.
  unfold Urls.short_url_with_affiliate_code, Urls.extract_amazon_product_id.
  destruct (Urls.search_dp (Str.unquote href)) as [id|] eqn:Hs; [|done].
  intros [= <-]. apply search_dp_Some in Hs as (_ & Hlen & Hal).
  rewrite (unquote_append "https://www.amazon.in/dp/") by done.
  rewrite (unquote_append id) by by apply all_alnum_no_percent.
  by rewrite search_dp_amazon_url.
Qed.

Lemma amazon_rewrite_idempotent_witness :
  Urls.short_url_with_affiliate_code Urls.const_AMAZON_AFFILIATE_ID
    Urls.const_FLIPKART_AFFILIATE_ID Urls.const_MYNTRA_AFFILIATE_ID
    (Some Urls.AMAZON)
    "https://www.amazon.in/dp/B000000000/?tag=aladdinloot3-21"
  = Ok (Some "https://www.amazon.in/dp/B000000000/?tag=aladdinloot3-21"%string).
Proof.
  apply (amazon_rewrite_idempotent Urls.const_AMAZON_AFFILIATE_ID
           Urls.const_FLIPKART_AFFILIATE_ID Urls.const_MYNTRA_AFFILIATE_ID
           "/Some-Shirt/dp/B000000000/ref=sr_1_1?keywords=shirt").
  reflexivity.
Defined.

(** X8.  The [extract_amazon_product_id] of helper_functions.py returns the
    same id as the one of selenium_helper.py where that one returns an id;
    where that one returns [None], for a URL whose decoded form has no
    ["/dp/"] with ten characters of [[a-zA-Z0-9]] after it, this one raises
    [TypeError], not an error that names the URL: its [raise] is given a
    string. *)
Theorem helpers_extract_amazon_product_id_raises_type_error (url : string) :
  (∀ id, Helpers.extract_amazon_product_id url = Ok id
         ↔ Urls.extract_amazon_product_id url = Some id)
  ∧ (Helpers.extract_amazon_product_id url
     = Raise (TypeError "exceptions must derive from BaseException")
     ↔ ¬ Urls.contains_dp_id (Str.unquote url))
  ∧ (∀ e, Helpers.extract_amazon_product_id url = Raise e
          → exn_class e = "TypeError"%string
            ∧ Urls.extract_amazon_product_id url = None).
Proof.
  unfold Helpers.extract_amazon_product_id, Urls.extract_amazon_product_id.
  destruct (Urls.search_dp (Str.unquote url)) as [id|] eqn:Hs.
  - apply search_dp_Some in Hs as (Hc & _).
    split; [intros id'; split; congruence|]. split; [|done].
    split; [done|]. by intros [].
  - apply search_dp_None in Hs.
    split; [by intros id'; split|]. split; [done|]. by intros e [= <-].
Qed.

(** ** [RedisDB], further *)

Section redis_more.
Import Redis.
Implicit Types (srv : server) (now : Z) (url key member : string).

(** The entry [add_to_set] finds at the key, and the expiry it leaves. *)
Lemma get_live_with_keyspace_eq now srv key (e : entry) :
  get_live now (with_keyspace srv (<[key := e]> (keyspace srv))) key
  = if live now e then Some e else None.
Proof. unfold get_live. simpl. by rewrite lookup_insert_eq. Qed.

Lemma get_live_with_keyspace_ne now srv key key' (e : entry) :
  key' ≠ key →
  get_live now (with_keyspace srv (<[key := e]> (keyspace srv))) key'
  = get_live now srv key'.
Proof. intros Hne. unfold get_live. simpl. by rewrite lookup_insert_ne. Qed.

Lemma get_live_live now srv key (e : entry) :
  get_live now srv key = Some e → live now e = true.
Proof.
  unfold get_live. destruct (keyspace srv !! key) as [e'|]; [|done].
  destruct (live now e') eqn:Hl; [|done]. by intros [= <-].
Qed.

Lemma is_member_reachable now srv key member :
  reachable srv = true →
  is_member now key (Some member) (MkRedisDB (Some srv))
  = Some (holds now srv member key).
Proof.
  intros Hr. unfold is_member, redis_call, sismember, holds. simpl.
  rewrite Hr. destruct (get_live now srv key) as [e|]; [|done].
  by destruct (bool_decide (member ∈ members e)).
Qed.

(** A successful [add_to_set], in full. *)
Lemma add_to_set_spec now srv key (member : string + list string)
    (expire_time : option Z) :
  reachable srv = true →
  let ms := match member with inl m => [m] | inr ms => ms end in
  let old := default (Entry ∅ None) (get_live now srv key) in
  let until :=
    match expire_time with
    | Some t => if bool_decide (t = 0) then deadline old else Some (now + t)
    | None => deadline old
    end in
  ms ≠ [] →
  add_to_set now key member expire_time (MkRedisDB (Some srv))
  = (Some (Z.of_nat (size (list_to_set ms ∖ members old : gset string))),
     MkRedisDB (Some (with_keyspace srv
       (<[key := Entry (members old ∪ list_to_set ms) until]> (keyspace srv))))).
Proof.
  intros Hr ms old until Hms.
  unfold add_to_set, redis_call. simpl. fold ms. unfold sadd. rewrite Hr.
  destruct ms as [|m ms'] eqn:Hmseq; [done|]. rewrite <- Hmseq.
  assert (match get_live now srv key with
          | Some e => e
          | None => Entry ∅ None
          end = old) as -> by (unfold old; by destruct (get_live now srv key)).
  set (e1 := Entry (members old ∪ list_to_set ms) (deadline old)).
  assert (live now e1 = true) as Hlive1.
  { unfold live, e1, old. simpl.
    destruct (get_live now srv key) as [e|] eqn:He; [|done].
    apply get_live_live in He. by unfold live in He. }
  assert (∀ t, t ≠ 0 →
    expire now (with_keyspace srv (<[key:=e1]> (keyspace srv))) key t
    = (Ok true, with_keyspace srv
         (<[key := Entry (members old ∪ list_to_set ms) (Some (now + t))]>
            (keyspace srv)))) as Hexpire.
  { intros t Ht. unfold expire. simpl reachable. rewrite Hr.
    rewrite get_live_with_keyspace_eq, Hlive1. unfold with_keyspace. simpl.
    by rewrite insert_insert_eq. }
  subst until. destruct expire_time as [t|]; [|done].
  case_bool_decide as Ht; [done|]. by rewrite Hexpire.
Qed.

(** What [add_to_set] leaves of the other keys, and of the connection. *)
Lemma add_to_set_frame now key (member : string + list string)
    (expire_time : option Z) (self : RedisDB) :
  match client self with
  | None => (add_to_set now key member expire_time self).2 = self
  | Some srv =>
      ∃ srv',
        (add_to_set now key member expire_time self).2 = MkRedisDB (Some srv')
        ∧ reachable srv' = reachable srv
        ∧ ∀ key', key' ≠ key → keyspace srv' !! key' = keyspace srv !! key'
  end.
Proof.
  destruct self as [[srv|]]; simpl; [|done].
  destruct (reachable srv) eqn:Hr.
  - destruct (decide (match member with inl m => [m] | inr ms => ms end = []))
      as [Hnil|Hms].
    + exists srv. unfold add_to_set, redis_call, sadd. simpl.
      rewrite Hnil, Hr. done.
    + rewrite add_to_set_spec by done. eexists. split; [done|].
      split; [done|]. intros key' Hne. simpl. by rewrite lookup_insert_ne.
  - exists srv. unfold add_to_set, redis_call, sadd. simpl. rewrite Hr. done.
Qed.

Lemma is_member_ext now key (m : option string) srv srv' :
  reachable srv' = reachable srv →
  keyspace srv' !! key = keyspace srv !! key →
  is_member now key m (MkRedisDB (Some srv'))
  = is_member now key m (MkRedisDB (Some srv)).
Proof.
  intros Hr Hk. unfold is_member, redis_call, sismember, get_live. simpl.
  destruct m as [m|]; [|done]. rewrite Hr, Hk.
  destruct (reachable srv); [|done].
  destruct (keyspace srv !! key) as [e|]; [|done].
  destruct (live now e); [|done].
  by destruct (bool_decide (m ∈ members e)).
Qed.

Lemma get_all_member_ext now key srv srv' :
  reachable srv' = reachable srv →
  keyspace srv' !! key = keyspace srv !! key →
  get_all_member now key (MkRedisDB (Some srv'))
  = get_all_member now key (MkRedisDB (Some srv)).
Proof.
  intros Hr Hk. unfold get_all_member, redis_call, smembers, get_live. simpl.
  rewrite Hr, Hk. destruct (reachable srv); [|done].
  destruct (keyspace srv !! key) as [e|]; [|done].
  by destruct (live now e).
Qed.

Lemma size_list_to_set_le (l : list string) :
  (size (list_to_set l : gset string) ≤ length l)%nat.
Proof.
  induction l as [|x l IH].
  - by rewrite list_to_set_nil, size_empty.
  - rewrite list_to_set_cons, size_union_alt, size_singleton. simpl.
    pose proof (subseteq_size (list_to_set l ∖ {[x]}) (list_to_set l : gset string)
                  ltac:(set_solver)). lia.
Qed.

Lemma size_singleton_difference (url : string) (X : gset string) :
  size (list_to_set [url] ∖ X) = if bool_decide (url ∈ X) then 0%nat else 1%nat.
Proof.
  case_bool_decide.
  - assert (list_to_set [url] ∖ X = ∅) as -> by set_solver. apply size_empty.
  - assert (list_to_set [url] ∖ X = {[url]}) as -> by set_solver.
    apply size_singleton.
Qed.

(** X9.  A URL added with an expiry of [t] seconds, [t] not zero, is a
    member of the set at every time before [now + t] and at no time from
    then on: the expiry of the set is set anew at each such call, whatever
    it was before. *)
Theorem add_to_set_member_until_expiry now srv key url (t t1 : Z) :
  reachable srv = true → t ≠ 0 →
  is_member t1 key (Some url)
    (add_to_set now key (inl url) (Some t) (MkRedisDB (Some srv))).2
  = Some (bool_decide (t1 < now + t)).
Proof.
  intros Hr Ht. rewrite add_to_set_spec by done. simpl.
  rewrite is_member_reachable by done. unfold holds.
  rewrite get_live_with_keyspace_eq. unfold live. simpl.
  rewrite bool_decide_false by done.
  case_bool_decide; [|done]. simpl. f_equal. apply bool_decide_eq_true.
  set_solver.
Qed.

Lemma add_to_set_member_until_expiry_witness :
  is_member 604859 "product_url_cache_60.25_thursday" (Some example_url)
    (add_to_set 60 "product_url_cache_60.25_thursday" (inl example_url)
       (Some 604800) example_db).2 = Some true
  ∧ is_member 604860 "product_url_cache_60.25_thursday" (Some example_url)
      (add_to_set 60 "product_url_cache_60.25_thursday" (inl example_url)
         (Some 604800) example_db).2 = Some false.
Proof.
  split.
  - apply (add_to_set_member_until_expiry 60 example_server
             "product_url_cache_60.25_thursday" example_url 604800 604859);
      [reflexivity|lia].
  - apply (add_to_set_member_until_expiry 60 example_server
             "product_url_cache_60.25_thursday" example_url 604800 604860);
      [reflexivity|lia].
Defined.

(** X10.  An [add_to_set] without [expire_time], or with [0], leaves the
    expiry of the set as it is: the URL is a member for as long as the set
    the key had at the time of the call lives, and for ever when the key
    had no set then. *)
Theorem add_to_set_without_expiry now srv key url (expire_time : option Z)
    (t1 : Z) :
  reachable srv = true →
  expire_time = None ∨ expire_time = Some 0 →
  is_member t1 key (Some url)
    (add_to_set now key (inl url) expire_time (MkRedisDB (Some srv))).2
  = Some (match get_live now srv key with
          | Some e => live t1 e
          | None => true
          end).
Proof.
  intros Hr Hexp. rewrite add_to_set_spec by done. simpl.
  rewrite is_member_reachable by done. unfold holds.
  rewrite get_live_with_keyspace_eq.
  assert (match expire_time with
          | Some t => if bool_decide (t = 0)
                      then deadline (default (Entry ∅ None) (get_live now srv key))
                      else Some (now + t)
          | None => deadline (default (Entry ∅ None) (get_live now srv key))
          end = deadline (default (Entry ∅ None) (get_live now srv key))) as ->.
  { by destruct Hexp as [-> | ->]. }
  unfold live at 1. simpl.
  destruct (get_live now srv key) as [e|]; simpl.
  - unfold live. destruct (deadline e) as [d|]; simpl.
    + case_bool_decide; [|done]. f_equal. apply bool_decide_eq_true. set_solver.
    + f_equal. apply bool_decide_eq_true. set_solver.
  - f_equal. apply bool_decide_eq_true. set_solver.
Qed.

Lemma add_to_set_without_expiry_witness :
  is_member 1000000 "product_url_cache_60.25_thursday" (Some example_url)
    (add_to_set 60 "product_url_cache_60.25_thursday" (inl example_url)
       None example_db).2 = Some true
  ∧ is_member 50 "product_url_cache_0.5_sunday" (Some example_url)
      (add_to_set 40 "product_url_cache_0.5_sunday" (inl example_url)
         (Some 0) example_db).2 = Some false.
Proof.
  split.
  - apply (add_to_set_without_expiry 60 example_server
             "product_url_cache_60.25_thursday" example_url None 1000000);
      [reflexivity|by left].
  - apply (add_to_set_without_expiry 40 example_server
             "product_url_cache_0.5_sunday" example_url (Some 0) 50);
      [reflexivity|by right].
Defined.

Lemma is_member_after_add_to_other_key now key key'
    (member : string + list string) (expire_time : option Z) (self : RedisDB)
    (t1 : Z) (m : option string) :
  key' ≠ key →
  is_member t1 key' m (add_to_set now key member expire_time self).2
  = is_member t1 key' m self.
Proof.
  intros Hne.
  pose proof (add_to_set_frame now key member expire_time self) as Hframe.
  destruct self as [[srv|]]; simpl in Hframe; [|done].
  destruct Hframe as (srv' & Heq & Hr & Hk). rewrite Heq.
  apply is_member_ext; auto.
Qed.

(** X11.  [add_to_set] touches the set at its key only: what [is_member]
    and [get_all_member] answer for another key is the same before and
    after, whether the call succeeds or not. *)
Theorem add_to_set_other_keys now key key' (member : string + list string)
    (expire_time : option Z) (self : RedisDB) (t1 : Z) (m : option string) :
  key' ≠ key →
  is_member t1 key' m (add_to_set now key member expire_time self).2
  = is_member t1 key' m self
  ∧ get_all_member t1 key'
      (add_to_set now key member expire_time self).2
    = get_all_member t1 key' self.
Proof.
  intros Hne. split; [by apply is_member_after_add_to_other_key|].
  pose proof (add_to_set_frame now key member expire_time self) as Hframe.
  destruct self as [[srv|]]; simpl in Hframe; [|done].
  destruct Hframe as (srv' & Heq & Hr & Hk). rewrite Heq.
  apply get_all_member_ext; auto.
Qed.

Lemma add_to_set_other_keys_witness :
  is_member 100 "product_url_cache_1.5_monday"
    (Some "https://www.flipkart.com/1"%string)
    (add_to_set 60 "product_url_cache_60.25_thursday" (inl example_url)
       (Some 604800) example_db).2
  = is_member 100 "product_url_cache_1.5_monday"
      (Some "https://www.flipkart.com/1"%string) example_db.
Proof.
  apply (add_to_set_other_keys 60 "product_url_cache_60.25_thursday"
           "product_url_cache_1.5_monday" (inl example_url) (Some 604800)
           example_db 100 (Some "https://www.flipkart.com/1"%string)).
  discriminate.
Defined.

(** X12.  [add_to_set] returns [None] exactly when there is no client,
    when the store does not answer, or when the list of members is empty;
    the store is then as it was.  Otherwise it returns the number of
    members that were new to the set, between zero and the number given. *)
Theorem add_to_set_result now key (member : string + list string)
    (expire_time : option Z) (self : RedisDB) :
  let ms := match member with inl m => [m] | inr ms => ms end in
  ((add_to_set now key member expire_time self).1 = None
   ↔ client self = None
     ∨ (∃ srv, client self = Some srv ∧ reachable srv = false)
     ∨ ms = [])
  ∧ ((add_to_set now key member expire_time self).1 = None →
     (add_to_set now key member expire_time self).2 = self)
  ∧ (∀ n, (add_to_set now key member expire_time self).1 = Some n →
          0 ≤ n ≤ Z.of_nat (length ms)).
Proof.
  intros ms. destruct self as [[srv|]]; simpl.
  - destruct (reachable srv) eqn:Hr.
    + destruct (decide (ms = [])) as [Hnil|Hms].
      * unfold add_to_set, redis_call, sadd. simpl. fold ms.
        rewrite Hnil, Hr. simpl. split; [|done]. split; [auto|done].
      * rewrite add_to_set_spec by done. simpl. fold ms. split.
        { split; [done|]. intros [?|[(srv' & [= <-] & ?)|?]]; congruence. }
        split; [done|]. intros n [= <-]. split; [lia|].
        apply inj_le. etrans; [|apply size_list_to_set_le].
        apply subseteq_size. set_solver.
    + unfold add_to_set, redis_call, sadd. simpl. rewrite Hr. simpl.
      split; [|done]. split; [|done]. intros _. right. left. by exists srv.
  - unfold add_to_set, redis_call. simpl. split; [|done]. split; auto.
Qed.

(** X13.  For a URL of which [is_member] says it is in the set,
    [add_to_set] returns [0]; for one of which it says it is not, [1]. *)
Theorem add_to_set_counts_new now key url (expire_time : option Z)
    (self : RedisDB) (b : bool) :
  is_member now key (Some url) self = Some b →
  (add_to_set now key (inl url) expire_time self).1
  = Some (if b then 0 else 1).
Proof.
  destruct self as [[srv|]]; [|done].
  destruct (reachable srv) eqn:Hr.
  - rewrite is_member_reachable by done. intros [= <-].
    rewrite add_to_set_spec by done. cbn [fst].
    rewrite size_singleton_difference. unfold holds.
    destruct (get_live now srv key) as [e|]; simpl.
    + by case_bool_decide.
    + by rewrite bool_decide_false by set_solver.
  - unfold is_member, redis_call, sismember. simpl. by rewrite Hr.
Qed.

Lemma add_to_set_counts_new_witness :
  (add_to_set 100 "product_url_cache_1.5_monday"
     (inl "https://www.flipkart.com/1"%string) None example_db).1 = Some 0
  ∧ (add_to_set 100 "product_url_cache_1.5_monday" (inl example_url) None
       example_db).1 = Some 1.
Proof.
  split.
  - apply (add_to_set_counts_new 100 "product_url_cache_1.5_monday"
             "https://www.flipkart.com/1" None example_db true).
    vm_compute. reflexivity.
  - apply (add_to_set_counts_new 100 "product_url_cache_1.5_monday"
             example_url None example_db false).
    vm_compute. reflexivity.
Defined.

Lemma get_all_member_reachable now srv key :
  reachable srv = true →
  get_all_member now key (MkRedisDB (Some srv))
  = Some (elements (match get_live now srv key with
                    | Some e => members e
                    | None => ∅
                    end)).
Proof.
  intros Hr. unfold get_all_member, redis_call, smembers. simpl. rewrite Hr.
  by destruct (get_live now srv key).
Qed.

Lemma get_live_delete_eq now srv key :
  get_live now (with_keyspace srv (delete key (keyspace srv))) key = None.
Proof. unfold get_live. simpl. by rewrite lookup_delete_eq. Qed.

(** X14.  On a store that answers, [get_all_member] lists the members of
    the set without repetition, and a text is in the list exactly when
    [is_member] returns [True] for it; for a key without a set the list is
    empty. *)
Theorem get_all_member_agrees_with_is_member now srv key :
  reachable srv = true →
  ∃ l, get_all_member now key (MkRedisDB (Some srv)) = Some l
       ∧ NoDup l
       ∧ (∀ m, m ∈ l ↔ is_member now key (Some m) (MkRedisDB (Some srv))
                        = Some true)
       ∧ (get_live now srv key = None → l = []).
Proof.
  intros Hr. rewrite get_all_member_reachable by done.
  eexists. split; [done|]. split; [apply NoDup_elements|]. split.
  - intros m. rewrite is_member_reachable by done. rewrite elem_of_elements.
    unfold holds. destruct (get_live now srv key) as [e|].
    + split; [intros Hin; f_equal; by apply bool_decide_eq_true|].
      intros [= Hin]. by apply bool_decide_eq_true in Hin.
    + split; [set_solver|done].
  - intros ->. apply elements_empty.
Qed.

Lemma get_all_member_agrees_with_is_member_witness :
  ∃ l, get_all_member 100 "product_url_cache_1.5_monday" example_db = Some l
       ∧ NoDup l
       ∧ (∀ m, m ∈ l ↔ is_member 100 "product_url_cache_1.5_monday" (Some m)
                          example_db = Some true)
       ∧ (get_live 100 example_server "product_url_cache_1.5_monday" = None
          → l = []).
Proof.
  apply (get_all_member_agrees_with_is_member 100 example_server
           "product_url_cache_1.5_monday").
  reflexivity.
Defined.

(** X15.  After [remove_to_set] the member is not in the set, the other
    members of the set and the other keys are as before, and the call has
    returned [1] when [is_member] had the member in the set and [0] when it
    had not. *)
Theorem remove_to_set_then_is_member now srv key member :
  reachable srv = true →
  let self := MkRedisDB (Some srv) in
  let self' := (remove_to_set now key member self).2 in
  is_member now key (Some member) self' = Some false
  ∧ (∀ m, m ≠ member →
          is_member now key (Some m) self' = is_member now key (Some m) self)
  ∧ (∀ key' m, key' ≠ key →
          is_member now key' m self' = is_member now key' m self)
  ∧ (remove_to_set now key member self).1
    = Some (if holds now srv member key then 1 else 0).
Proof.
  intros Hr self self'. subst self self'.
  assert (∀ m, is_member now key (Some m) (MkRedisDB (Some srv))
               = Some (holds now srv m key)) as Hbefore.
  { intros m. by apply is_member_reachable. }
  unfold remove_to_set, redis_call, srem. simpl. rewrite Hr.
  unfold holds in *.
  destruct (get_live now srv key) as [e|] eqn:He.
  - destruct (bool_decide (member ∈ members e)) eqn:Hin; simpl.
    + apply bool_decide_eq_true in Hin.
      destruct (bool_decide (members e ∖ {[member]} = ∅)) eqn:Hrest; simpl.
      * apply bool_decide_eq_true in Hrest. split.
        { rewrite is_member_reachable by done. unfold holds.
          by rewrite get_live_delete_eq. }
        split.
        { intros m Hm. rewrite Hbefore.
          rewrite is_member_reachable by done. unfold holds.
          rewrite get_live_delete_eq. f_equal. symmetry.
          apply bool_decide_eq_false. set_solver. }
        split; [|done]. intros key' m Hne. apply is_member_ext; [done|].
        simpl. by rewrite lookup_delete_ne.
      * pose proof (get_live_live _ _ _ _ He) as Hlive.
        assert (live now (Entry (members e ∖ {[member]}) (deadline e)) = true)
          as Hlive' by done.
        split.
        { rewrite is_member_reachable by done. unfold holds.
          rewrite get_live_with_keyspace_eq, Hlive'. simpl. f_equal.
          apply bool_decide_eq_false. set_solver. }
        split.
        { intros m Hm. rewrite Hbefore.
          rewrite is_member_reachable by done. unfold holds.
          rewrite get_live_with_keyspace_eq, Hlive'. simpl. f_equal.
          apply bool_decide_ext. set_solver. }
        split; [|done]. intros key' m Hne. apply is_member_ext; [done|].
        simpl. by rewrite lookup_insert_ne.
    + split; [by rewrite Hbefore, Hin|]. done.
  - simpl. split; [|done]. by rewrite Hbefore.
Qed.

Lemma remove_to_set_then_is_member_witness :
  is_member 100 "product_url_cache_1.5_monday"
    (Some "https://www.flipkart.com/1"%string)
    (remove_to_set 100 "product_url_cache_1.5_monday"
       "https://www.flipkart.com/1" example_db).2 = Some false.
Proof.
  apply (remove_to_set_then_is_member 100 example_server
           "product_url_cache_1.5_monday" "https://www.flipkart.com/1").
  reflexivity.
Defined.

(** X16.  After [remove_set] the key has no member: [is_member] returns
    [False] for every text and [get_all_member] the empty list; the other
    keys are as before; the call has returned [1] when the key had a set
    that was not expired and [0] otherwise. *)
Theorem remove_set_then_empty now srv key :
  reachable srv = true →
  let self := MkRedisDB (Some srv) in
  let self' := (remove_set now key self).2 in
  (∀ m, is_member now key (Some m) self' = Some false)
  ∧ get_all_member now key self' = Some []
  ∧ (∀ key' m, key' ≠ key →
          is_member now key' m self' = is_member now key' m self)
  ∧ (remove_set now key self).1
    = Some (match get_live now srv key with Some _ => 1 | None => 0 end).
Proof.
  intros Hr self self'. subst self self'.
  unfold remove_set, redis_call, del. simpl. rewrite Hr.
  destruct (get_live now srv key) as [e|] eqn:He; simpl.
  - split.
    { intros m. rewrite is_member_reachable by done. unfold holds.
      by rewrite get_live_delete_eq. }
    split.
    { rewrite get_all_member_reachable by done.
      by rewrite get_live_delete_eq, elements_empty. }
    split; [|done]. intros key' m Hne. apply is_member_ext; [done|].
    simpl. by rewrite lookup_delete_ne.
  - split.
    { intros m. rewrite is_member_reachable by done. unfold holds.
      by rewrite He. }
    split; [|done].
    rewrite get_all_member_reachable by done. by rewrite He, elements_empty.
Qed.

Lemma remove_set_then_empty_witness :
  get_all_member 100 "product_url_cache_1.5_monday"
    (remove_set 100 "product_url_cache_1.5_monday" example_db).2 = Some []
  ∧ (remove_set 100 "product_url_cache_1.5_monday" example_db).1 = Some 1.
Proof.
  pose proof (remove_set_then_empty 100 example_server
                "product_url_cache_1.5_monday") as Hspec.
  simpl in Hspec. destruct Hspec as (_ & Hall & _ & Hres); [reflexivity|].
  split; [exact Hall|exact Hres].
Defined.

(** X17.  What [is_url_cached] answers does not depend on how many keys
    SCAN examines per call: on two stores with the same keys and sets, one
    as reachable as the other, it returns the same, given turns for the
    loop to end. *)
Theorem is_url_cached_any_scan_batch (fuel : nat) now srv (batch : nat) url
    (pattern : string → bool) :
  (length (live_keys now srv) < fuel)%nat →
  is_url_cached fuel now url pattern
    (MkRedisDB (Some (Server (keyspace srv) (reachable srv) batch)))
  = is_url_cached fuel now url pattern (MkRedisDB (Some srv))
  ∧ is_url_cached fuel now url pattern (MkRedisDB (Some srv)) ≠ OutOfFuel.
Proof.
  intros Hfuel. unfold is_url_cached. simpl.
  destruct (reachable srv) eqn:Hr.
  - rewrite (scan_loop_spec fuel now srv) by (done || lia).
    rewrite (scan_loop_spec fuel now (Server (keyspace srv) true batch));
      [|done|].
    + split; [reflexivity|discriminate].
    + change (live_keys now (Server (keyspace srv) true batch))
        with (live_keys now srv). lia.
  - destruct fuel as [|fuel]; [lia|]. simpl. unfold scan. simpl. rewrite Hr.
    split; [reflexivity|discriminate].
Qed.

Lemma is_url_cached_any_scan_batch_witness :
  is_url_cached 4 100 "https://www.flipkart.com/1"
    (prefix_pattern "product_url_cache")
    (MkRedisDB (Some (Server (keyspace example_server) true 7)))
  = is_url_cached 4 100 "https://www.flipkart.com/1"
      (prefix_pattern "product_url_cache") example_db.
Proof.
  apply (is_url_cached_any_scan_batch 4 100 example_server 7
           "https://www.flipkart.com/1" (prefix_pattern "product_url_cache")).
  vm_compute. lia.
Defined.

(** X18.  Without a client, and on a store that does not answer, every
    method of [RedisDB] returns [None] and leaves the object as it is: the
    decorator turns the missing connection and the error of the command
    into [None]. *)
Theorem redis_call_fail_soft now key (member : string + list string)
    (m : option string) (expire_time : option Z) url
    (pattern : string → bool) (fuel : nat) (self : RedisDB) :
  client self = None ∨ (∃ srv, client self = Some srv ∧ reachable srv = false) →
  is_member now key m self = None
  ∧ get_all_member now key self = None
  ∧ add_to_set now key member expire_time self = (None, self)
  ∧ remove_to_set now key url self = (None, self)
  ∧ remove_set now key self = (None, self)
  ∧ is_url_cached (S fuel) now url pattern self = Done None.
Proof.
  destruct self as [c]. simpl. intros [->|(srv & -> & Hr)].
  - done.
  - unfold is_member, get_all_member, add_to_set, remove_to_set, remove_set,
      is_url_cached, redis_call, sismember, smembers, sadd, srem, del. simpl.
    unfold scan. rewrite Hr. by destruct m.
Qed.

Lemma redis_call_fail_soft_witness :
  add_to_set 60 "product_url_cache_60.25_thursday" (inl example_url)
    (Some 604800) (MkRedisDB (Some (Server ∅ false 0)))
  = (None, MkRedisDB (Some (Server ∅ false 0))).
Proof.
  apply (redis_call_fail_soft 60 "product_url_cache_60.25_thursday"
           (inl example_url) None (Some 604800) example_url (λ _, true) 0
           (MkRedisDB (Some (Server ∅ false 0)))).
  right. eexists. split; reflexivity.
Defined.

(** X19.  [__exit__] on an object that [__enter__] has connected, when the
    pool disconnects, returns [True] whether or not an exception has left
    the block, so that the exception is suppressed; the object has no
    client afterwards and its methods return [None].  After an [__enter__]
    that could not reach the store, which returns [False] and leaves the
    client on the object without a pool, [__exit__] returns [False] and the
    client stays. *)
Theorem exit_suppresses_exceptions (srv : server) (exc_type : option string)
    (self : RedisDB) now key (m : option string) :
  let entered := __enter__ srv self in
  (reachable srv = true →
     entered.1 = true
     ∧ __exit__ (Some (Ok tt)) exc_type entered.2 = (true, MkRedisDB None)
     ∧ is_member now key m (__exit__ (Some (Ok tt)) exc_type entered.2).2
       = None)
  ∧ (reachable srv = false →
     entered.1 = false
     ∧ __exit__ None exc_type entered.2 = (false, MkRedisDB (Some srv))).
Proof.
  unfold __enter__, __exit__. split; intros ->; done.
Qed.

Lemma exit_suppresses_exceptions_witness :
  __exit__ (Some (Ok tt)) (Some "ValueError"%string)
    (__enter__ example_server (MkRedisDB None)).2 = (true, MkRedisDB None).
Proof.
  pose proof (exit_suppresses_exceptions example_server
                (Some "ValueError"%string) (MkRedisDB None) 0 "k"%string None)
    as [Hok _].
  destruct Hok as (_ & Hexit & _); [reflexivity|]. exact Hexit.
Defined.

End redis_more.

(** ** The key of a window and the two readers of the cache *)

Section window_more.
Import Redis CacheKey.
Local Open Scope string_scope.

Lemma occurs_dot_timestamp_text (now : datetime) :
  Str.occurs "." (timestamp_text now) = true.
Proof.
  unfold timestamp_text. rewrite occurs_append, append_cons, occurs_cons.
  simpl. by rewrite orb_true_r.
Qed.

Lemma occurs_dot_cache_key (PRODUCT_URL_CACHE_KEY : string) (now now' : datetime) :
  Str.occurs "."
    (generate_product_url_cache_key PRODUCT_URL_CACHE_KEY now now') = true.
Proof.
  unfold generate_product_url_cache_key.
  rewrite occurs_append, append_cons, occurs_cons, append_nil, occurs_append.
  rewrite occurs_dot_timestamp_text. simpl. by rewrite !orb_true_r.
Qed.

End window_more.

(** X20.  A URL registered with an expiry under the key
    [generate_product_url_cache_key] makes, at any time and on any day, is
    found by [is_url_cached] with its default pattern at every time before
    the expiry, whatever window is the current one by then; from the expiry
    on it is found only if another set of the cache has it. *)
Theorem registered_url_found_until_expiry (PRODUCT_URL_CACHE_KEY : string)
    (clock clock' : CacheKey.datetime) (srv srv' : Redis.server)
    (t0 t t1 : Z) (url : string) (fuel : nat) :
  let key :=
    CacheKey.generate_product_url_cache_key PRODUCT_URL_CACHE_KEY clock clock' in
  let pattern := Redis.prefix_pattern PRODUCT_URL_CACHE_KEY in
  let self' :=
    (Redis.add_to_set t0 key (inl url) (Some t)
       (Redis.MkRedisDB (Some srv))).2 in
  Redis.reachable srv = true → t ≠ 0 →
  Redis.client self' = Some srv' →
  (length (Redis.live_keys t1 srv') < fuel)%nat →
  (t1 < t0 + t →
     Redis.is_url_cached fuel t1 url pattern self' = Done (Some true))
  ∧ (t0 + t ≤ t1 →
     (∀ key' e, key' ≠ key → Redis.get_live t1 srv key' = Some e →
                pattern key' = true → url ∉ Redis.members e) →
     Redis.is_url_cached fuel t1 url pattern self' = Done (Some false)).
Proof.
  intros key pattern self' Hr Ht. subst self'.
  rewrite add_to_set_spec by done. simpl.
  rewrite (bool_decide_false (t = 0)) by done. intros [= <-] Hfuel.
  set (e1 := Redis.Entry _ _).
  set (srv1 := Redis.with_keyspace srv _) in *.
  assert (Redis.reachable srv1 = true) as Hr1 by done.
  destruct (is_url_cached_reachable fuel t1 srv1 url pattern Hr1 Hfuel)
    as [Hyes Hno].
  split.
  - intros Hlt. apply Hyes. exists key, e1. split.
    + unfold srv1. rewrite get_live_with_keyspace_eq.
      unfold Redis.live, e1. simpl. by rewrite bool_decide_true by lia.
    + split; [apply cache_key_matches_prefix|]. unfold e1. simpl. set_solver.
  - intros Hge Hother. apply Hno. intros (key' & e & He & Hp & Hin).
    destruct (decide (key' = key)) as [->|Hne].
    + unfold srv1 in He. rewrite get_live_with_keyspace_eq in He.
      unfold Redis.live, e1 in He. simpl in He.
      by rewrite bool_decide_false in He by lia.
    + unfold srv1 in He. rewrite get_live_with_keyspace_ne in He by done.
      by apply (Hother key' e).
Qed.

Lemma registered_url_found_until_expiry_witness :
  Redis.is_url_cached 5 86400 Redis.example_url
    (Redis.prefix_pattern "product_url_cache")
    (Redis.add_to_set 60
       (CacheKey.generate_product_url_cache_key "product_url_cache"
          CacheKey.example_now CacheKey.example_later)
       (inl Redis.example_url) (Some 604800) Redis.example_db).2
  = Done (Some true).
Proof.
  eapply (registered_url_found_until_expiry "product_url_cache"
            CacheKey.example_now CacheKey.example_later Redis.example_server
            _ 60 604800 86400 Redis.example_url 5).
  - reflexivity.
  - lia.
  - reflexivity.
  - vm_compute. lia.
  - lia.
Defined.

(** X21.  No key [generate_product_url_cache_key] makes is the key
    ["product_url_cache"] that [is_product_valid] asks [is_member] about:
    what is registered under the key of a window, with or without success,
    changes nothing in what the cache check of the session answers. *)
Theorem window_key_unseen_by_gate {F B : Type} (PRODUCT_URL_CACHE_KEY : string)
    (clock clock' : CacheKey.datetime) (t0 : Z)
    (member : string + list string) (expire_time : option Z)
    (self : Session.SeleniumHelper F B) (now : Z) (product_url : Session.value F) :
  let key :=
    CacheKey.generate_product_url_cache_key PRODUCT_URL_CACHE_KEY clock clock' in
  let registered :=
    Session.MkHelper
      (Redis.add_to_set t0 key member expire_time (Session.redis self)).2
      (Session.website_name self) (Session.category self)
      (Session.page_conter self) (Session.product_urls self)
      (Session.current_page self) (Session.driver self)
      (Session.gate_log self) in
  key ≠ "product_url_cache"%string
  ∧ (Session.cache_is_member now product_url registered).1
    = (Session.cache_is_member now product_url self).1.
Proof.
  intros key registered.
  assert (key ≠ "product_url_cache"%string) as Hne.
  { intros Heq.
    pose proof (occurs_dot_cache_key PRODUCT_URL_CACHE_KEY clock clock') as Hdot.
    fold key in Hdot. by rewrite Heq in Hdot. }
  split; [done|].
  unfold Session.cache_is_member, Session.bind, Session.log, Session.modify,
    Session.ret. simpl. f_equal.
  by apply is_member_after_add_to_other_key.
Qed.

(** ** [get_urls] and [delete_images] *)

Section helpers_more.
Import Helpers.
Local Open Scope string_scope.

Lemma get_urls_loop_app (ps1 ps2 : list (list (string * urls_value)))
    (acc : list string) :
  get_urls_loop (ps1 ++ ps2) acc
  = match get_urls_loop ps1 acc with
    | Ok acc => get_urls_loop ps2 acc
    | Raise e => Raise e
    end.
Proof.
  revert acc. induction ps1 as [|p ps1 IH]; intros acc; [done|].
  simpl. destruct (Session.getitem p "product_url") as [url|e]; [|done].
  destruct (if truthy url then Ok url else Session.getitem p "variant_urls")
    as [[s|l|]|e]; try done; apply IH.
Qed.

Lemma get_urls_loop_acc (ps : list (list (string * urls_value)))
    (acc : list string) :
  get_urls_loop ps acc
  = match get_urls_loop ps [] with
    | Ok urls => Ok (acc ++ urls)%list
    | Raise e => Raise e
    end.
Proof.
  revert acc. induction ps as [|p ps IH]; intros acc.
  - simpl. by rewrite app_nil_r.
  - simpl. destruct (Session.getitem p "product_url") as [url|e]; [|done].
    destruct (if truthy url then Ok url else Session.getitem p "variant_urls")
      as [[s|l|]|e]; try done.
    + rewrite (IH (acc ++ [s])%list), (IH [s]).
      destruct (get_urls_loop ps []); [|done]. by rewrite <- app_assoc.
    + rewrite (IH (acc ++ l)%list), (IH l).
      destruct (get_urls_loop ps []); [|done]. by rewrite <- app_assoc.
Qed.

(** The URLs a product adds to the list. *)
Lemma get_urls_cons (p : list (string * urls_value))
    (ps : list (list (string * urls_value))) (own rest : list string) :
  get_urls [p] = Ok own → get_urls ps = Ok rest →
  get_urls (p :: ps) = Ok (own ++ rest)%list.
Proof.
  unfold get_urls. intros Hown Hrest.
  change (p :: ps) with ([p] ++ ps)%list.
  by rewrite get_urls_loop_app, Hown, get_urls_loop_acc, Hrest.
Qed.

Lemma delete_images_loop_cons (image_path : string) (images : list string)
    (fs : gmap string node) :
  delete_images_loop (image_path :: images) fs
  = let step :=
      if bool_decide (is_Some (fs !! image_path)) then
        match remove image_path fs with
        | (Ok _, fs) => (fs, Info image_path)
        | (Raise e, fs) => (fs, Error image_path e)
        end
      else (fs, Warning image_path) in
    ((delete_images_loop images step.1).1,
     step.2 :: (delete_images_loop images step.1).2).
Proof.
  simpl. destruct (if bool_decide _ then _ else _) as [fs1 line].
  simpl. by destruct (delete_images_loop images fs1).
Qed.

End helpers_more.

(** X22.  [get_urls] takes from each product its [product_url] when that
    is a text that is not empty, and otherwise what [variant_urls] lists,
    and returns them in the order of the products: for products that each
    have one or the other, the result is the concatenation. *)
Theorem get_urls_flattens
    (products : list (list (string * Helpers.urls_value)))
    (urls : list (list string)) :
  Forall2 (λ product own,
    (∃ u, Session.assoc product "product_url" = Some (Helpers.UStr u)
          ∧ u ≠ ""%string ∧ own = [u])
    ∨ (∃ v, Session.assoc product "product_url" = Some v
            ∧ Helpers.truthy v = false
            ∧ Session.assoc product "variant_urls" = Some (Helpers.UList own)))
    products urls →
  Helpers.get_urls products = Ok (concat urls).
Proof.
  induction 1 as [|p own ps owns Hp _ IH]; [done|].
  simpl concat. apply get_urls_cons; [|done].
  unfold Helpers.get_urls, Helpers.get_urls_loop, Session.getitem.
  destruct Hp as [(u & -> & Hu & ->)|(v & -> & Hv & Hvar)].
  - simpl. by apply String.eqb_neq in Hu as ->.
  - rewrite Hv, Hvar. done.
Qed.

Lemma get_urls_flattens_witness :
  Helpers.get_urls
    [[("product_name", Helpers.UStr "Shirt");
      ("product_url", Helpers.UStr "https://www.flipkart.com/shirt/p/itm1")];
     [("product_url", Helpers.UNone);
      ("variant_urls",
       Helpers.UList ["https://www.myntra.com/1"; "https://www.myntra.com/2"])]]
  = Ok ["https://www.flipkart.com/shirt/p/itm1"; "https://www.myntra.com/1";
        "https://www.myntra.com/2"]%string.
Proof.
  apply (get_urls_flattens _
           [["https://www.flipkart.com/shirt/p/itm1"];
            ["https://www.myntra.com/1"; "https://www.myntra.com/2"]]%string).
  constructor.
  - left. eexists. split; [reflexivity|]. split; [discriminate|reflexivity].
  - constructor; [|constructor].
    right. eexists. split; [reflexivity|]. split; reflexivity.
Defined.

(** X23.  [get_urls] reads [product["product_url"]] by index: for a
    product without that key it raises [KeyError], whether or not the
    product has [variant_urls], and the URLs of the products before it are
    not returned; so the function returns only for products that all have
    the key. *)
Theorem get_urls_needs_product_url
    (before after : list (list (string * Helpers.urls_value)))
    (product : list (string * Helpers.urls_value)) (collected : list string) :
  Helpers.get_urls before = Ok collected →
  Session.assoc product "product_url" = None →
  Helpers.get_urls (before ++ product :: after)
  = Raise (KeyError "'product_url'").
Proof.
  unfold Helpers.get_urls. intros Hbefore Hkey.
  rewrite get_urls_loop_app, Hbefore. simpl.
  unfold Session.getitem. by rewrite Hkey.
Qed.

Lemma get_urls_needs_product_url_witness :
  Helpers.get_urls
    ([[("product_url", Helpers.UStr "https://www.flipkart.com/shirt/p/itm1")]]
     ++ [("variant_name", Helpers.UStr "Shirt");
         ("variant_urls", Helpers.UList ["https://www.myntra.com/1"])] :: [])
  = Raise (KeyError "'product_url'").
Proof.
  apply (get_urls_needs_product_url _ _ _
           ["https://www.flipkart.com/shirt/p/itm1"%string]); reflexivity.
Defined.

(** X24.  [delete_images] never raises; it removes the listed paths that
    are files and nothing else: a path is gone afterwards when it was
    listed and was a file, and is as before otherwise (a directory stays,
    the [OSError] of [os.remove] being caught); it writes one line to the
    log for each listed path. *)
Theorem delete_images_removes_listed_files (image_paths : string + list string)
    (fs : gmap string Helpers.node) (path : string) :
  let images := match image_paths with inl p => [p] | inr ps => ps end in
  (Helpers.delete_images image_paths fs).1 !! path
  = (if bool_decide (path ∈ images ∧ fs !! path = Some Helpers.File)
     then None else fs !! path)
  ∧ length (Helpers.delete_images image_paths fs).2 = length images.
Proof.
  intros images. unfold Helpers.delete_images. fold images. clearbody images.
  revert fs. induction images as [|p images IH]; intros fs.
  - split; [|done]. cbn [Helpers.delete_images_loop fst].
    rewrite bool_decide_false; [done|].
    intros [Hin _]. by apply elem_of_nil in Hin.
  - rewrite delete_images_loop_cons. cbn zeta.
    set (step := if bool_decide (is_Some (fs !! p)) then _ else _).
    assert (step.1 !! path
            = if bool_decide (path = p ∧ fs !! path = Some Helpers.File)
              then None else fs !! path) as Hstep.
    { subst step. unfold Helpers.remove.
      destruct (fs !! p) as [[|]|] eqn:Hp; simpl.
      - case_bool_decide as Hc.
        + destruct Hc as [-> _]. apply lookup_delete_eq.
        + destruct (decide (path = p)) as [->|Hne].
          * destruct Hc. by split.
          * by apply lookup_delete_ne.
      - rewrite bool_decide_false; [done|]. intros [-> Hf]. congruence.
      - rewrite bool_decide_false; [done|]. intros [-> Hf]. congruence. }
    destruct (IH step.1) as [Hfs Hlen]. simpl. split; [|by rewrite Hlen].
    rewrite Hfs, Hstep. clear.
    repeat case_bool_decide; try done;
      repeat match goal with
             | H : context [_ ∈ _ :: _] |- _ => rewrite elem_of_cons in H
             end;
      intuition congruence.
Qed.

(** ** The crawl session, further *)

Section session_more.
Import Session.
Context {F : Type} `{EqDecision F}.
Variable py_float : string → outcome F.
Variable py_int : F → outcome Z.
Context {B : Type} `{Chrome B}.
Variable PRODUCT_DETAILS : Websites → list (string * list string).
Variable PRODUCT_CARDS PRODUCT_CONTAINER NEXT_BUTTON : Websites → string.
Variable REQUIRED_PRODUCT_KEYS : list string.
Variable PRICE_LIMITS : list (string * Z).
Variable MAX_PRODUCTS_PER_WEBSITE : Z.
Variables AMAZON_AFFILIATE_ID FLIPKART_AFFILIATE_ID MYNTRA_AFFILIATE_ID : string.
Variable predict_deal : gmap string (value F) → outcome string.
Variable now : Z.

Abbreviation Product := (gmap string (value F)).
Abbreviation Self := (SeleniumHelper F B).
Abbreviation M := (M (F:=F) (B:=B)).
Abbreviation preserves := (preserves (F:=F) (B:=B)).
Abbreviation same_settings := (same_settings (F:=F) (B:=B)).
Abbreviation on_driver := (on_driver (F:=F) (B:=B)).
Abbreviation log := (log (F:=F) (B:=B)).

Abbreviation format_extracted_data :=
  (format_extracted_data py_float py_int AMAZON_AFFILIATE_ID
     FLIPKART_AFFILIATE_ID MYNTRA_AFFILIATE_ID).
Abbreviation is_product_valid :=
  (is_product_valid (B:=B) py_float py_int PRICE_LIMITS AMAZON_AFFILIATE_ID
     FLIPKART_AFFILIATE_ID MYNTRA_AFFILIATE_ID now).
Abbreviation within_price_limit := (within_price_limit (F:=F) (B:=B) PRICE_LIMITS).
Abbreviation cache_is_member := (cache_is_member (F:=F) (B:=B) now).
Abbreviation fetch_product_container_body :=
  (fetch_product_container_body (F:=F) PRODUCT_CARDS PRODUCT_CONTAINER).
Abbreviation fetch_product_container :=
  (fetch_product_container (F:=F) PRODUCT_CARDS PRODUCT_CONTAINER).
Abbreviation get_flipkart_data :=
  (get_flipkart_data (F:=F) PRODUCT_CARDS PRODUCT_CONTAINER).
Abbreviation extract_field :=
  (extract_field (B:=B) py_float py_int AMAZON_AFFILIATE_ID
     FLIPKART_AFFILIATE_ID MYNTRA_AFFILIATE_ID).
Abbreviation extract_fields :=
  (extract_fields (B:=B) py_float py_int AMAZON_AFFILIATE_ID
     FLIPKART_AFFILIATE_ID MYNTRA_AFFILIATE_ID).
Abbreviation classify := (classify (B:=B) predict_deal).
Abbreviation extract_card :=
  (extract_card py_float py_int PRODUCT_DETAILS PRODUCT_CARDS
     PRODUCT_CONTAINER REQUIRED_PRODUCT_KEYS PRICE_LIMITS AMAZON_AFFILIATE_ID
     FLIPKART_AFFILIATE_ID MYNTRA_AFFILIATE_ID predict_deal now).
Abbreviation extract_cards :=
  (extract_cards py_float py_int PRODUCT_DETAILS PRODUCT_CARDS
     PRODUCT_CONTAINER REQUIRED_PRODUCT_KEYS PRICE_LIMITS AMAZON_AFFILIATE_ID
     FLIPKART_AFFILIATE_ID MYNTRA_AFFILIATE_ID predict_deal now).
Abbreviation extract_products_by_website :=
  (extract_products_by_website py_float py_int PRODUCT_DETAILS PRODUCT_CARDS
     PRODUCT_CONTAINER REQUIRED_PRODUCT_KEYS PRICE_LIMITS AMAZON_AFFILIATE_ID
     FLIPKART_AFFILIATE_ID MYNTRA_AFFILIATE_ID predict_deal now).
Abbreviation get_products_turn :=
  (get_products_turn py_float py_int PRODUCT_DETAILS PRODUCT_CARDS
     PRODUCT_CONTAINER NEXT_BUTTON REQUIRED_PRODUCT_KEYS PRICE_LIMITS
     AMAZON_AFFILIATE_ID FLIPKART_AFFILIATE_ID MYNTRA_AFFILIATE_ID
     predict_deal now).
Abbreviation get_products_loop :=
  (get_products_loop py_float py_int PRODUCT_DETAILS PRODUCT_CARDS
     PRODUCT_CONTAINER NEXT_BUTTON REQUIRED_PRODUCT_KEYS PRICE_LIMITS
     MAX_PRODUCTS_PER_WEBSITE AMAZON_AFFILIATE_ID FLIPKART_AFFILIATE_ID
     MYNTRA_AFFILIATE_ID predict_deal now).
Abbreviation get_products :=
  (get_products py_float py_int PRODUCT_DETAILS PRODUCT_CARDS
     PRODUCT_CONTAINER NEXT_BUTTON REQUIRED_PRODUCT_KEYS PRICE_LIMITS
     MAX_PRODUCTS_PER_WEBSITE AMAZON_AFFILIATE_ID FLIPKART_AFFILIATE_ID
     MYNTRA_AFFILIATE_ID predict_deal now).

(** *** What the session leaves of its settings *)

#[local] Instance same_settings_refl : Reflexive same_settings.
Proof. by intros self. Qed.

#[local] Instance same_settings_trans : Transitive same_settings.
Proof.
  intros s1 s2 s3 (? & ? & ? & ? & ?) (? & ? & ? & ? & ?).
  repeat split; congruence.
Qed.

Lemma settings_log (ev : gate_event F) : preserves same_settings (log ev).
Proof. by intros self. Qed.

Lemma settings_on_driver {A} (call : B → outcome A * B) :
  preserves same_settings (on_driver call).
Proof. intros self. unfold Session.on_driver. by destruct (call (driver self)). Qed.

Lemma settings_set_product_urls (urls : Self → list (value F)) :
  preserves same_settings (modify (λ self, set_product_urls (urls self) self)).
Proof. by intros self. Qed.

Ltac keeps tac :=
  repeat (first
    [ apply preserves_ret | apply preserves_raise | apply preserves_lift
    | apply preserves_gets | apply preserves_by_website
    | apply preserves_getattr | apply preserves_text_of
    | apply preserves_format_data | apply preserves_get_current_page
    | apply settings_log | apply settings_on_driver
    | apply settings_set_product_urls
    | tac
    | apply preserves_bind; [apply _| |intros ?]
    | match goal with
      | |- Session.preserves _ (if ?b then _ else _) => destruct b
      | |- Session.preserves _ (match ?x with _ => _ end) => destruct x
      end ]; try apply _).

Lemma settings_within_price_limit (product_price : value F) :
  preserves same_settings (within_price_limit product_price).
Proof.
  intros self. unfold Session.within_price_limit.
  destruct (match category self with
            | Some c => assoc PRICE_LIMITS c
            | None => None
            end); [|done].
  by destruct product_price.
Qed.

Lemma settings_cache_is_member (product_url : value F) :
  preserves same_settings (cache_is_member product_url).
Proof. by intros self. Qed.

Lemma settings_is_product_valid (price url : option Soup) :
  preserves same_settings (is_product_valid price url).
Proof.
  unfold Session.is_product_valid.
  destruct price as [price|], url as [url|];
    keeps ltac:(first [ apply settings_within_price_limit
                      | apply settings_cache_is_member ]).
Qed.

Lemma settings_fetch_body (url type : string) :
  preserves same_settings (fetch_product_container_body url type).
Proof. unfold Session.fetch_product_container_body. keeps fail. Qed.

Lemma settings_fetch (url type : string) :
  preserves same_settings (fetch_product_container url type).
Proof.
  intros self. unfold Session.fetch_product_container, Retry.wrapper.
  pose proof (wrapper_loop_preserves (fetch_product_container_body url type)
                same_settings 3 (seqZ 0 3) self
                (settings_fetch_body url type)) as Hw.
  by destruct (Retry.wrapper_loop _ 3 (seqZ 0 3) self) as [[r self'] tr].
Qed.

Lemma settings_get_flipkart_data (url : option Soup) :
  preserves same_settings (get_flipkart_data url).
Proof.
  unfold Session.get_flipkart_data. keeps ltac:(apply settings_fetch).
Qed.

Lemma settings_extract_field (product_soup flipkart_product_soup : Soup)
    (product_url : option Soup) (product_details : Product)
    (item : string * list string) :
  preserves same_settings
    (extract_field product_soup flipkart_product_soup product_url
       product_details item).
Proof. unfold Session.extract_field. destruct item. keeps fail. Qed.

Lemma settings_extract_fields (product_soup flipkart_product_soup : Soup)
    (product_url : option Soup) (items : list (string * list string))
    (product_details : Product) :
  preserves same_settings
    (extract_fields product_soup flipkart_product_soup product_url items
       product_details).
Proof.
  revert product_details. induction items as [|item items IH];
    intros product_details; simpl.
  - keeps fail.
  - keeps ltac:(first [apply settings_extract_field | apply IH]).
Qed.

Lemma settings_extract_card (product_soup : Soup) :
  preserves same_settings (extract_card product_soup).
Proof.
  unfold Session.extract_card, Session.classify.
  keeps ltac:(first [ apply settings_is_product_valid
                    | apply settings_get_flipkart_data
                    | apply settings_extract_fields ]).
Qed.

Lemma settings_extract_cards (product_cards : list Soup)
    (products : list Product) :
  preserves same_settings (extract_cards product_cards products).
Proof.
  revert products. induction product_cards as [|card cards IH];
    intros products; simpl.
  - keeps fail.
  - keeps ltac:(first [apply settings_extract_card | apply IH]).
Qed.

Lemma settings_extract_products_by_website (main_container : Soup) :
  preserves same_settings (extract_products_by_website main_container).
Proof.
  unfold Session.extract_products_by_website.
  keeps ltac:(apply settings_extract_cards).
Qed.

(** A turn of the loop of [get_products] does not get as far as the
    counter of pages. *)
Lemma settings_get_products_turn (url : string) (products : list Product) :
  preserves same_settings (get_products_turn url products).
Proof.
  unfold Session.get_products_turn.
  apply preserves_bind; [apply _|apply settings_fetch|].
  intros [main_container|]; [|apply preserves_ret; apply _].
  apply preserves_bind;
    [apply _|apply settings_extract_products_by_website|].
  intros extracted self. done.
Qed.

(** X25.  [fetch_product_container] reads [self.current_page], which no
    method of the class assigns: on a helper without the attribute each of
    its three attempts raises [AttributeError] before the browser is asked
    for anything, and it returns [None] with the helper as it was.  So
    [get_products] on a helper as [__init__] has made it returns the empty
    list, whatever [MAX_PRODUCTS_PER_WEBSITE] is, without loading a page. *)
Theorem fresh_helper_loads_no_page (fuel : nat) (website : Websites)
    (category url type : string) (self : Self) :
  current_page self = None →
  fetch_product_container url type self = (Ok None, self)
  ∧ get_products (S fuel) website category url self
    = (Done (Ok []),
       MkHelper (redis self) (Some website) (Some category) 1 [] None
         (driver self) (gate_log self)).
Proof.
  intros Hcp. split; [by apply fetch_product_container_unset|].
  unfold Session.get_products. rewrite Hcp.
  rewrite get_products_loop_one_turn.
  destruct (_ >=? _)%Z; [|done].
  unfold Session.get_products_turn, bind.
  by rewrite fetch_product_container_unset.
Qed.

(** X26.  [get_products] ends within one turn of its loop and never turns
    the page: it returns the empty list or raises [Exception] with the text
    ["Error occurred while getting products: "] before that of the error;
    the counter of pages is [1] afterwards, the site and the category are
    the ones of the call, and the store and [current_page] are as
    before. *)
Theorem get_products_never_turns_the_page (fuel : nat) (website : Websites)
    (category url : string) (self : Self) :
  ∃ r self',
    get_products (S fuel) website category url self = (Done r, self')
    ∧ (r = Ok []
       ∨ ∃ msg, r = Raise (Exception
                  ("Error occurred while getting products: " +:+ msg)))
    ∧ redis self' = redis self
    ∧ website_name self' = Some website
    ∧ Session.category self' = Some category
    ∧ page_conter self' = 1
    ∧ current_page self' = current_page self.
Proof.
  unfold Session.get_products.
  set (start := MkHelper _ _ _ _ _ _ _ _).
  rewrite get_products_loop_one_turn.
  destruct (_ >=? _)%Z; [|by eexists _, _; split; [done|]; split; [left|]].
  pose proof (settings_get_products_turn url [] start)
    as (Hredis & Hsite & Hcat & Hpage & Hcp).
  pose proof (get_products_turn_outcome py_float py_int PRODUCT_DETAILS
                PRODUCT_CARDS PRODUCT_CONTAINER NEXT_BUTTON
                REQUIRED_PRODUCT_KEYS PRICE_LIMITS AMAZON_AFFILIATE_ID
                FLIPKART_AFFILIATE_ID MYNTRA_AFFILIATE_ID predict_deal now
                url [] start) as Hturn.
  destruct (fetch_product_container url "container" start)
    as [[[mc|]|e] self1]; [| |done].
  - destruct Hturn as (e & self'' & Hturn). rewrite Hturn in *.
    eexists _, _. split; [done|]. split; [right; by eexists|]. done.
  - rewrite Hturn in *. eexists _, _. split; [done|]. split; [by left|]. done.
Qed.

Lemma extract_cards_turns (product_cards : list Soup)
    (products out : list Product) (self self' : Self) :
  extract_cards product_cards products self = (Ok out, self') →
  ∃ turns : list (list (gate_event F) * option Product),
    length turns = length product_cards
    ∧ gate_log self' = gate_log self ++ concat turns.*1
    ∧ Forall (λ turn, gate_order turn.1 turn.2) turns
    ∧ out = products ++ omap snd turns.
Proof.
  revert products self.
  induction product_cards as [|card cards IH]; intros products self.
  - intros [= <- <-]. exists []. by rewrite !app_nil_r.
  - rewrite extract_cards_cons. unfold bind at 1.
    destruct (extract_card card self) as [[accepted|e] self1] eqn:Hcard;
      [|done].
    intros Hrest. apply extract_card_gate_order in Hcard as (events & Hlog & Hord).
    apply IH in Hrest as (turns & Hlen & Hlog' & Hall & Hout).
    exists ((events, accepted) :: turns). split; [by simpl; rewrite Hlen|].
    split; [by rewrite Hlog', Hlog, fmap_cons, <- app_assoc|].
    split; [by constructor|].
    rewrite Hout. destruct accepted; simpl; [|done]. by rewrite <- app_assoc.
Qed.

(** X27.  Whatever the site, the checks [extract_products_by_website]
    makes on a page are made card by card, in the order of the cards, and
    for each card in the order price, cache, classifier: the cache is asked
    only about a card whose price is within the limit, the classifier only
    about one the cache does not have, and the products returned are the
    cards the classifier found a best deal, in the order of the page. *)
Theorem page_gate_order (main_container : Soup) (self self' : Self)
    (products : list Product) :
  extract_products_by_website main_container self = (Ok products, self') →
  ∃ turns : list (list (gate_event F) * option Product),
    (∀ w, website_name self = Some w →
          length turns = length (select main_container (PRODUCT_CARDS w)))
    ∧ gate_log self' = gate_log self ++ concat turns.*1
    ∧ Forall (λ turn, gate_order turn.1 turn.2) turns
    ∧ products = omap snd turns.
Proof.
  unfold Session.extract_products_by_website, bind, by_website.
  destruct (website_name self) as [w|] eqn:Hname; [|done].
  destruct (select main_container (PRODUCT_CARDS w)) as [|card cards] eqn:Hsel.
  - intros [= <- <-]. exists []. split; [|by rewrite app_nil_r].
    intros w' [= <-]. by rewrite Hsel.
  - intros (turns & Hlen & Hlog & Hall & Hout)%extract_cards_turns.
    exists turns. split; [|done]. intros w' [= <-]. by rewrite Hsel.
Qed.

Lemma is_member_outage (key : string) (m : option string)
    (db : Redis.RedisDB) :
  Redis.client db = None
  ∨ (∃ srv, Redis.client db = Some srv ∧ Redis.reachable srv = false) →
  Redis.is_member now key m db = None.
Proof.
  destruct db as [c]. simpl. intros [->|(srv & -> & Hr)]; [done|].
  unfold Redis.is_member, Redis.redis_call, Redis.sismember. simpl.
  rewrite Hr. by destruct m.
Qed.

(** X28.  Without a client, or with a store that does not answer, the
    gate of [is_product_valid] fails open: a card whose link is new to the
    session is valid exactly when its price is within the limit of the
    category, the answer of the cache being [None]. *)
Theorem gate_without_cache (self : Self) (price url : Soup)
    (href category_name : string) (p limit : Z) (u : value F) :
  Redis.client (redis self) = None
  ∨ (∃ srv, Redis.client (redis self) = Some srv
            ∧ Redis.reachable srv = false) →
  getitem (attrs url) "href" = Ok href →
  format_extracted_data (website_name self) "product_price"
    (Some (get_text price)) = Ok (VInt p) →
  format_extracted_data (website_name self) "product_url" (Some href) = Ok u →
  u ∉ product_urls self →
  category self = Some category_name →
  assoc PRICE_LIMITS category_name = Some limit →
  is_product_valid (Some price) (Some url) self
  = (Ok (p <=? limit),
     logged (if (p <=? limit)
             then [PriceChecked p limit true; CacheChecked u None]
             else [PriceChecked p limit false]) self).
Proof.
  intros Hout Hhref Hprice Hurl Hnew Hcat Hlimit.
  unfold Session.is_product_valid, bind, getattr, lift, format_data, gets.
  rewrite Hhref, Hprice, Hurl. case_bool_decide; [done|].
  unfold Session.within_price_limit. rewrite Hcat, Hlimit.
  unfold bind, log, modify, ret. simpl.
  destruct (p <=? limit) eqn:Hle; [|done].
  unfold Session.cache_is_member, bind, log, modify, ret. simpl.
  rewrite is_member_outage by done. by rewrite logged_logged.
Qed.

(** X29.  The errors of [is_product_valid]: for a link without [href] it
    raises [KeyError]; on AJIO, and on a helper whose site is not set, it
    raises [ValueError] for every card with a price and a link, the price
    being read as [None] without an error and the link having no rule; in
    both cases no check is made.  Without a price element or without a link
    it returns [False]. *)
Theorem is_product_valid_errors (price url : Soup) (self : Self) :
  (assoc (attrs url) "href" = None →
     is_product_valid (Some price) (Some url) self
     = (Raise (KeyError "'href'"), self))
  ∧ (is_Some (assoc (attrs url) "href") →
     website_name self = None ∨ website_name self = Some AJIO →
     is_product_valid (Some price) (Some url) self
     = (Raise (ValueError "Invalid website specified"), self))
  ∧ is_product_valid None (Some url) self = (Ok false, self)
  ∧ is_product_valid (Some price) None self = (Ok false, self)
  ∧ is_product_valid None None self = (Ok false, self).
Proof.
  unfold Session.is_product_valid, bind, getattr, lift, format_data, gets,
    getitem.
  split; [by intros ->|]. split; [|done].
  intros [href ->] [Hw|Hw]; rewrite Hw; simpl; done.
Qed.

Lemma extract_card_complete (product_soup : Soup) (self self' : Self)
    (product : Product) :
  extract_card product_soup self = (Ok (Some product), self') →
  lacks_required REQUIRED_PRODUCT_KEYS product = false.
Proof.
  unfold Session.extract_card, bind, by_website, lift, ret.
  destruct (website_name self) as [w|] eqn:Hname; [|done].
  destruct (getitem (PRODUCT_DETAILS w) "product_url") as [url_selectors|e];
    [|done].
  rewrite Hname.
  destruct (getitem (PRODUCT_DETAILS w) "product_price") as [price_selectors|e];
    [|done].
  generalize (select_one product_soup (Str.join " ," url_selectors)).
  generalize (select_one product_soup (Str.join " ," price_selectors)).
  intros product_price product_url.
  destruct (is_product_valid product_price product_url self)
    as [[[|]|e] self1]; simpl; [|done|done].
  destruct (get_flipkart_data product_url self1) as [[[fps|]|e] self2];
    [|done|done].
  destruct (website_name self2) as [w2|]; [|done].
  destruct (extract_fields product_soup fps product_url (PRODUCT_DETAILS w2)
              ∅ self2) as [[d|e] self3]; [|done].
  destruct (lacks_required REQUIRED_PRODUCT_KEYS d) eqn:Hreq; [done|].
  unfold Session.classify, bind, lift, log, modify, ret.
  destruct (predict_deal d) as [verdict|e]; [|done].
  destruct (String.eqb verdict "Best Deal"); [|done].
  destruct (getattr product_url "href" _) as [[href|e] self4]; [|done].
  unfold format_data.
  destruct (short_url_with_affiliate_code _ _ _ _ href) as [[u|]|e];
    [| |done]; by intros [= <- <-].
Qed.

Lemma extract_cards_complete (product_cards : list Soup)
    (products out : list Product) (self self' : Self) :
  extract_cards product_cards products self = (Ok out, self') →
  Forall (λ product, lacks_required REQUIRED_PRODUCT_KEYS product = false)
    products →
  Forall (λ product, lacks_required REQUIRED_PRODUCT_KEYS product = false) out.
Proof.
  revert products self.
  induction product_cards as [|card cards IH]; intros products self.
  - by intros [= <- <-].
  - rewrite extract_cards_cons. unfold bind at 1.
    destruct (extract_card card self) as [[accepted|e] self1] eqn:Hcard;
      [|done].
    intros Hrest Hall. apply (IH _ _ Hrest).
    destruct accepted as [d|]; [|done].
    apply Forall_app. split; [done|]. constructor; [|done].
    by apply extract_card_complete in Hcard.
Qed.

(** X30.  Every product [extract_products_by_website] returns has each of
    the [REQUIRED_PRODUCT_KEYS], with a value that is not [None]: a card
    that lacks one is dropped before the classifier is asked. *)
Theorem accepted_products_are_complete (main_container : Soup)
    (self self' : Self) (products : list Product) :
  extract_products_by_website main_container self = (Ok products, self') →
  ∀ product key,
    product ∈ products → key ∈ REQUIRED_PRODUCT_KEYS →
    ∃ v, product !! key = Some v ∧ v ≠ VNone.
Proof.
  intros Hextract product key Hin Hkey.
  assert (Forall (λ product,
            lacks_required REQUIRED_PRODUCT_KEYS product = false) products)
    as Hall.
  { revert Hextract.
    unfold Session.extract_products_by_website, bind, by_website.
    destruct (website_name self) as [w|]; [|done].
    destruct (select main_container (PRODUCT_CARDS w)) as [|card cards].
    - by intros [= <- <-].
    - intros Hcards. by apply (extract_cards_complete _ _ _ _ _ Hcards). }
  rewrite Forall_forall in Hall. specialize (Hall product Hin).
  unfold lacks_required in Hall.
  apply not_true_iff_false in Hall.
  destruct (product !! key) as [v|] eqn:Hv.
  - exists v. split; [done|]. intros ->. apply Hall.
    apply existsb_exists. exists key. split; [by apply list_elem_of_In|].
    by rewrite Hv.
  - destruct Hall. apply existsb_exists. exists key.
    split; [by apply list_elem_of_In|]. by rewrite Hv.
Qed.

End session_more.

Lemma fresh_helper_loads_no_page_witness :
  Example.get_products 0 1 Urls.AMAZON "t-shirt"
    "https://www.amazon.in/s?k=t-shirt"
    (Session.__init__ Redis.example_db
       (Example.Browser "about:blank" (Example.amazon_web Example.listing)))
  = (Done (Ok []),
     Session.MkHelper Redis.example_db (Some Urls.AMAZON)
       (Some "t-shirt"%string) 1 [] None
       (Example.Browser "about:blank" (Example.amazon_web Example.listing)) []).
Proof.
  unfold Example.get_products.
  eapply (fresh_helper_loads_no_page _ _ _ _ _ _ _ _ _ _ _ _ _ _ 0
            Urls.AMAZON "t-shirt" "https://www.amazon.in/s?k=t-shirt"
            "container").
  reflexivity.
Defined.

Lemma page_gate_order_witness :
  ∃ turns : list (list (Session.gate_event Example.decimal)
                  * option (gmap string (Session.value Example.decimal))),
    (∀ w, Session.website_name Example.flipkart_helper = Some w →
          length turns
          = length (Session.select
                      (Example.flipkart_container Example.flipkart_listing)
                      (Example.PRODUCT_CARDS w)))
    ∧ Session.gate_log Example.flipkart_final
      = Session.gate_log Example.flipkart_helper ++ concat turns.*1
    ∧ Forall (λ turn, Session.gate_order turn.1 turn.2) turns
    ∧ Example.flipkart_accepted = omap snd turns.
Proof.
  assert (Example.extract_products_by_website
            (Example.flipkart_container Example.flipkart_listing)
            Example.flipkart_helper
          = (Ok Example.flipkart_accepted, Example.flipkart_final)) as Heq.
  { unfold Example.flipkart_final.
    rewrite (surjective_pairing (Example.extract_products_by_website _ _))
      at 1.
    f_equal; vm_compute; reflexivity. }
  unfold Example.extract_products_by_website in Heq.
  exact (page_gate_order _ _ _ _ _ _ _ _ _ _ _ _ _ _ _ _ Heq).
Defined.

Lemma gate_without_cache_witness :
  (Session.is_product_valid (B:=Example.browser) Example.py_float
     Example.py_int Example.PRICE_LIMITS Urls.const_AMAZON_AFFILIATE_ID
     Urls.const_FLIPKART_AFFILIATE_ID Urls.const_MYNTRA_AFFILIATE_ID 100
     (Some (Session.leaf "₹2,500" []))
     (Some (Session.leaf "" [("href", "/dp/B000000000")]))
     (Session.MkHelper (Redis.MkRedisDB None) (Some Urls.AMAZON)
        (Some "t-shirt") 1 [] (Some 1)
        (Example.Browser "about:blank" (Example.amazon_web Example.listing))
        [])).1
  = Ok true.
Proof.
  rewrite (gate_without_cache Example.py_float Example.py_int
    Example.PRICE_LIMITS Urls.const_AMAZON_AFFILIATE_ID
    Urls.const_FLIPKART_AFFILIATE_ID Urls.const_MYNTRA_AFFILIATE_ID 100
    _ (Session.leaf "₹2,500" [])
    (Session.leaf "" [("href", "/dp/B000000000")])
    "/dp/B000000000" "t-shirt" 2500 2500
    (Session.VStr "https://www.amazon.in/dp/B000000000/?tag=aladdinloot3-21")).
  - reflexivity.
  - by left.
  - reflexivity.
  - vm_compute. reflexivity.
  - reflexivity.
  - intros Hin. inversion Hin.
  - reflexivity.
  - reflexivity.
Defined.

Lemma is_product_valid_errors_witness :
  Example.is_product_valid
    (Some (Session.leaf "₹2,500" []))
    (Some (Session.leaf "" [("href", "/p/463998781_blue")]))
    (Session.MkHelper Redis.example_db (Some Urls.AJIO) (Some "t-shirt") 1 []
       (Some 1)
       (Example.Browser "about:blank" (Example.amazon_web Example.listing)) [])
  = (Raise (ValueError "Invalid website specified"),
     Session.MkHelper Redis.example_db (Some Urls.AJIO) (Some "t-shirt") 1 []
       (Some 1)
       (Example.Browser "about:blank" (Example.amazon_web Example.listing)) []).
Proof.
  unfold Example.is_product_valid.
  apply (proj1 (proj2 (is_product_valid_errors Example.py_float Example.py_int
    Example.PRICE_LIMITS Urls.const_AMAZON_AFFILIATE_ID
    Urls.const_FLIPKART_AFFILIATE_ID Urls.const_MYNTRA_AFFILIATE_ID 100
    (Session.leaf "₹2,500" [])
    (Session.leaf "" [("href", "/p/463998781_blue")]) _))).
  - by eexists.
  - by right.
Defined.

Lemma accepted_products_are_complete_witness :
  Forall (λ product,
    Forall (λ key, ∃ v, product !! key = Some v ∧ v ≠ Session.VNone)
      Example.REQUIRED_PRODUCT_KEYS)
    Example.flipkart_accepted.
Proof.
  assert (Example.extract_products_by_website
            (Example.flipkart_container Example.flipkart_listing)
            Example.flipkart_helper
          = (Ok Example.flipkart_accepted, Example.flipkart_final)) as Heq.
  { unfold Example.flipkart_final.
    rewrite (surjective_pairing (Example.extract_products_by_website _ _))
      at 1.
    f_equal; vm_compute; reflexivity. }
  unfold Example.extract_products_by_website in Heq.
  apply Forall_forall. intros product Hin.
  apply Forall_forall. intros key Hkey.
  exact (accepted_products_are_complete _ _ _ _ _ _ _ _ _ _ _ _ _ _ _ _ Heq
           product key Hin Hkey).
Defined.
